(** * Response extraction of the financial advisor agent

    A shallow embedding of [financial_advisor/response_extractor.py]:
    the three scans over a decoded agent response
    ([extract_financial_coordinator_output], [extract_all_agent_outputs],
    [extract_conversation_summary]) together with the Python operations
    they rely on (dictionary access, the [in] operator, the regular
    expression that finds the fenced JSON block, [str.strip]).

    Text is modelled by [string]: a character is one of the 256 code
    points of [ascii].  [json.loads] is a library function; the scans are
    stated over any decoder: two section variables, [json_loads] for the
    value it returns, [None] where Python raises, and [json_error] for the
    exception it raises then, [JSONDecodeError] or another one.  The
    closed examples run them with the reference decoder [json_loads_ref]
    and its exceptions [json_error_ref]. *)

From Stdlib Require Import String Ascii List ZArith Bool Arith Lia.
Import ListNotations.
Local Open Scope list_scope.
Local Open Scope string_scope.

(** ** Text *)

Module Text.

(** The two characters a string literal cannot hold conveniently. *)
Definition dquote : ascii := "034"%char.
Definition newline : ascii := "010"%char.

Definition nl : string := String newline "".
Definition quoted (s : string) : string := String dquote (s ++ String dquote "").

(** [Py_UNICODE_ISSPACE] on the code points below 256: what [\s] of a
    [str] pattern matches and what [str.strip()] removes. *)
Definition is_space (c : ascii) : bool :=
  let n := nat_of_ascii c in
  (((9 <=? n) && (n <=? 13)) || ((28 <=? n) && (n <=? 32))
   || (n =? 133) || (n =? 160))%nat.

Fixpoint all_space (s : string) : bool :=
  match s with
  | EmptyString => true
  | String c s' => is_space c && all_space s'
  end.

Fixpoint lstrip (s : string) : string :=
  match s with
  | EmptyString => EmptyString
  | String c s' => if is_space c then lstrip s' else s
  end.

Fixpoint rstrip (s : string) : string :=
  match s with
  | EmptyString => EmptyString
  | String c s' =>
      match rstrip s' with
      | EmptyString => if is_space c then EmptyString else String c EmptyString
      | r => String c r
      end
  end.

(** [s.strip()] *)
Definition strip (s : string) : string := rstrip (lstrip s).

(** [strip_prefix p s] is the rest of [s] after its prefix [p]. *)
Fixpoint strip_prefix (p s : string) : option string :=
  match p with
  | EmptyString => Some s
  | String a p' =>
      match s with
      | EmptyString => None
      | String b s' => if Ascii.eqb a b then strip_prefix p' s' else None
      end
  end.

Definition starts_with (p s : string) : bool :=
  match strip_prefix p s with Some _ => true | None => false end.

(** [p in s] for two strings: [p] occurs somewhere in [s]. *)
Fixpoint occurs (p s : string) : bool :=
  starts_with p s ||
  match s with
  | EmptyString => false
  | String _ s' => occurs p s'
  end.

(** The characters of a string, as Python iterates over it. *)
Fixpoint chars (s : string) : list string :=
  match s with
  | EmptyString => []
  | String c s' => String c "" :: chars s'
  end.

End Text.
Import Text.

(** ** The fenced block pattern

    The call of [re.search] with the flag [re.DOTALL] and the pattern
    made of: the opening marker (three backticks and json), [\s] starred,
    [\n], group 1 (any character, starred), [\n], three backticks.  It is
    embedded as the backtracking matcher runs it; the result is group 1
    of the match. *)

Module Fence.

Definition opening : string := "```json".
Definition closing : string := String newline "```".

(** Group 1 and the closing marker: with [DOTALL] the star takes every
    character it can, so the first closing marker tried is the last one
    of the text. *)
Fixpoint body (r : string) : option string :=
  match r with
  | EmptyString => None
  | String c r' =>
      match body r' with
      | Some g => Some (String c g)
      | None => if starts_with closing r then Some EmptyString else None
      end
  end.

(** What follows the opening marker: the white space star is greedy too
    and gives characters back one at a time until a newline follows it
    and the rest matches. *)
Fixpoint ws_then_body (r : string) : option string :=
  match r with
  | EmptyString => None
  | String c r' =>
      if is_space c then
        match ws_then_body r' with
        | Some g => Some g
        | None => if Ascii.eqb c newline then body r' else None
        end
      else None
  end.

(** The whole pattern anchored at the start of [s]. *)
Definition match_here (s : string) : option string :=
  match strip_prefix opening s with
  | Some r => ws_then_body r
  | None => None
  end.

(** [re.search]: the match at the leftmost position that has one. *)
Fixpoint re_search (s : string) : option string :=
  match match_here s with
  | Some g => Some g
  | None =>
      match s with
      | EmptyString => None
      | String _ s' => re_search s'
      end
  end.

End Fence.
Import Fence.

(** ** Python values and the operations the scans use *)

Module Py.

(** What [response.json()] can hold.  A dictionary is the list of its
    items in insertion order, looked up from the front. *)
#[local] Unset Elimination Schemes.
Inductive pyval : Type :=
| PNone
| PBool (b : bool)
| PInt (z : Z)
| PFloat (lexeme : string)
| PStr (s : string)
| PList (items : list pyval)
| PDict (items : list (string * pyval)).
#[local] Set Elimination Schemes.

Definition dict : Type := list (string * pyval).

Fixpoint lookup (key : string) (d : dict) : option pyval :=
  match d with
  | [] => None
  | (k, v) :: d' => if String.eqb key k then Some v else lookup key d'
  end.

(** [d[key] = v]: an existing key keeps its place. *)
Fixpoint dict_set (d : dict) (key : string) (v : pyval) : dict :=
  match d with
  | [] => [(key, v)]
  | (k, x) :: d' =>
      if String.eqb key k then (k, v) :: d' else (k, x) :: dict_set d' key v
  end.

(** The keys of a dictionary, each once, in insertion order. *)
Fixpoint keys (d : dict) : list string :=
  match d with
  | [] => []
  | (k, _) :: d' => k :: filter (fun k' => negb (String.eqb k' k)) (keys d')
  end.

Definition is_None (v : pyval) : bool :=
  match v with PNone => true | _ => false end.

(** [v == s] for a string constant [s]. *)
Definition py_eq_str (v : pyval) (s : string) : bool :=
  match v with PStr t => String.eqb t s | _ => false end.

(** The exceptions the scans can meet. *)
Inductive exn : Type :=
| TypeError | AttributeError | KeyError
| JSONDecodeError | ValueError | RecursionError.

(** [isinstance(e, json.JSONDecodeError)] *)
Definition is_decode_error (e : exn) : bool :=
  match e with JSONDecodeError => true | _ => false end.

Inductive result (A : Type) : Type :=
| Ok (a : A)
| Raise (e : exn).
Arguments Ok {A} a.
Arguments Raise {A} e.

Definition bind {A B : Type} (r : result A) (f : A -> result B) : result B :=
  match r with
  | Ok a => f a
  | Raise e => Raise e
  end.

(** [try: c except Exception as e: h e] *)
Definition try_except {A : Type} (c : result A) (h : exn -> result A) : result A :=
  match c with
  | Ok a => Ok a
  | Raise e => h e
  end.

(** [a and b] on conditions that may raise: [b] runs only when [a] holds. *)
Definition and_then (a b : result bool) : result bool :=
  bind a (fun x => if x then b else Ok false).

(** [o.get(key, default)]: only a dictionary has the method. *)
Definition py_get (o : pyval) (key : string) (default : pyval) : result pyval :=
  match o with
  | PDict d => Ok (match lookup key d with Some v => v | None => default end)
  | _ => Raise AttributeError
  end.

(** [o[key]] with a string [key]. *)
Definition py_getitem (o : pyval) (key : string) : result pyval :=
  match o with
  | PDict d => match lookup key d with Some v => Ok v | None => Raise KeyError end
  | _ => Raise TypeError
  end.

(** [key in o] with a string [key]: a key of a dictionary, a substring
    of a string, an element of a list; nothing else is a container. *)
Definition py_in (key : string) (o : pyval) : result bool :=
  match o with
  | PDict d => Ok (match lookup key d with Some _ => true | None => false end)
  | PStr s => Ok (occurs key s)
  | PList l => Ok (existsb (fun x => py_eq_str x key) l)
  | _ => Raise TypeError
  end.

(** [for x in o] *)
Definition py_iter (o : pyval) : result (list pyval) :=
  match o with
  | PList l => Ok l
  | PStr s => Ok (map PStr (chars s))
  | PDict d => Ok (map PStr (keys d))
  | _ => Raise TypeError
  end.

(** [re.search(pattern, raw, re.DOTALL)]: the pattern applies to text only. *)
Definition py_re_search (raw : pyval) : result (option string) :=
  match raw with
  | PStr s => Ok (re_search s)
  | _ => Raise TypeError
  end.

(** Statements that update a local object of type [S]: the object keeps
    what was done to it when an exception leaves the statement. *)
Definition M (S A : Type) : Type := S -> S * result A.

Definition mret {S A : Type} (a : A) : M S A := fun s => (s, Ok a).

Definition mbind {S A B : Type} (c : M S A) (f : A -> M S B) : M S B :=
  fun s =>
    match c s with
    | (s', Ok a) => f a s'
    | (s', Raise e) => (s', Raise e)
    end.

Definition lift {S A : Type} (r : result A) : M S A := fun s => (s, r).

Definition get {S : Type} : M S S := fun s => (s, Ok s).

Definition put {S : Type} (s : S) : M S unit := fun _ => (s, Ok tt).

Definition modify {S : Type} (f : S -> S) : M S unit := fun s => (f s, Ok tt).

Definition mtry {S A : Type} (c : M S A) (h : exn -> M S A) : M S A :=
  fun s =>
    match c s with
    | (s', Ok a) => (s', Ok a)
    | (s', Raise e) => h e s'
    end.

Fixpoint for_each {S A : Type} (xs : list A) (body : A -> M S unit) : M S unit :=
  match xs with
  | [] => mret tt
  | x :: xs' => mbind (body x) (fun _ => for_each xs' body)
  end.

End Py.
Import Py.

Declare Scope py_scope.
Delimit Scope py_scope with py.
Notation "x <- c ;; k" := (bind c (fun x => k))
  (at level 61, c at next level, right associativity) : py_scope.
Notation "x <~ c ;; k" := (mbind c (fun x => k))
  (at level 61, c at next level, right associativity) : py_scope.
Notation "c ;;; k" := (mbind c (fun _ => k))
  (at level 61, right associativity) : py_scope.
Notation "a 'and' b" := (and_then a b)
  (at level 60, right associativity) : py_scope.
Local Open Scope py_scope.

(** ** A reference JSON decoder

    [json.loads] on the documents this development runs: the JSON grammar
    as Python's decoder reads it (literals, numbers, strings with their
    escapes, arrays, objects; a repeated key keeps its first place and its
    last value).  A number with a fraction or an exponent is kept as its
    lexeme.  Text outside the grammar raises [JSONDecodeError]; an integer
    literal of more than 4300 digits raises [ValueError], which is not a
    [JSONDecodeError].  The [RecursionError] of a deeply nested document
    is not reproduced here.  An escaped code point above 255 is outside
    the alphabet of [string] and is refused. *)

Module Json.

Definition is_ws (c : ascii) : bool :=
  Ascii.eqb c " " || Ascii.eqb c "009" || Ascii.eqb c "010" || Ascii.eqb c "013".

Fixpoint skip_ws (s : string) : string :=
  match s with
  | String c s' => if is_ws c then skip_ws s' else s
  | EmptyString => s
  end.

Definition digit_of (c : ascii) : option nat :=
  let n := nat_of_ascii c in
  if ((48 <=? n) && (n <=? 57))%nat then Some (n - 48)%nat else None.

Definition hex_of (c : ascii) : option nat :=
  let n := nat_of_ascii c in
  if ((48 <=? n) && (n <=? 57))%nat then Some (n - 48)%nat
  else if ((65 <=? n) && (n <=? 70))%nat then Some (n - 55)%nat
  else if ((97 <=? n) && (n <=? 102))%nat then Some (n - 87)%nat
  else None.

(** The longest run of digits at the front of [s], and what follows it. *)
Fixpoint take_digits (s : string) : string * string :=
  match s with
  | String c s' =>
      match digit_of c with
      | Some _ => let (ds, r) := take_digits s' in (String c ds, r)
      | None => (EmptyString, s)
      end
  | EmptyString => (EmptyString, s)
  end.

Fixpoint digits_value (acc : Z) (ds : string) : Z :=
  match ds with
  | String c ds' =>
      match digit_of c with
      | Some d => digits_value (10 * acc + Z.of_nat d) ds'
      | None => acc
      end
  | EmptyString => acc
  end.

(** The integer part: a single zero, or a run of digits that does not
    start with zero. *)
Definition int_part (s : string) : option (string * string) :=
  match s with
  | String c s' =>
      if Ascii.eqb c "0" then Some ("0", s')
      else match take_digits s with
           | (EmptyString, _) => None
           | (ds, r) => Some (ds, r)
           end
  | EmptyString => None
  end.

Definition frac_part (s : string) : string * string :=
  match s with
  | String c s' =>
      if Ascii.eqb c "." then
        match take_digits s' with
        | (EmptyString, _) => (EmptyString, s)
        | (ds, r) => (String c ds, r)
        end
      else (EmptyString, s)
  | EmptyString => (EmptyString, s)
  end.

Definition exp_part (s : string) : string * string :=
  match s with
  | String c s' =>
      if Ascii.eqb c "e" || Ascii.eqb c "E" then
        let (sign, s'') :=
          match s' with
          | String d t => if Ascii.eqb d "+" || Ascii.eqb d "-"
                          then (String d EmptyString, t) else (EmptyString, s')
          | EmptyString => (EmptyString, s')
          end in
        match take_digits s'' with
        | (EmptyString, _) => (EmptyString, s)
        | (ds, r) => (String c (sign ++ ds), r)
        end
      else (EmptyString, s)
  | EmptyString => (EmptyString, s)
  end.

(** [int] refuses a literal of more than this many digits with
    [ValueError] ([sys.int_info.default_max_str_digits]). *)
Definition MAX_STR_DIGITS : nat := 4300.

Definition bad {A : Type} : result A := Raise JSONDecodeError.

Definition parse_number (s : string) : result (pyval * string) :=
  let (negative, s1) :=
    match s with
    | String c s' => if Ascii.eqb c "-" then (true, s') else (false, s)
    | EmptyString => (false, s)
    end in
  match int_part s1 with
  | None => bad
  | Some (ds, r) =>
      let (fr, r1) := frac_part r in
      let (ex, r2) := exp_part r1 in
      match fr, ex with
      | EmptyString, EmptyString =>
          if (MAX_STR_DIGITS <? String.length ds)%nat then Raise ValueError
          else
            let n := digits_value 0 ds in
            Ok (PInt (if negative then (- n)%Z else n), r2)
      | _, _ => Ok (PFloat ((if negative then "-" else "") ++ ds ++ fr ++ ex), r2)
      end
  end.

Definition hex4 (s : string) : option (nat * string) :=
  match s with
  | String a (String b (String c (String d r))) =>
      match hex_of a, hex_of b, hex_of c, hex_of d with
      | Some x, Some y, Some z, Some w => Some (((x * 16 + y) * 16 + z) * 16 + w, r)%nat
      | _, _, _, _ => None
      end
  | _ => None
  end.

Definition escape (c : ascii) : option ascii :=
  if Ascii.eqb c dquote then Some dquote
  else if Ascii.eqb c "\" then Some "\"%char
  else if Ascii.eqb c "/" then Some "/"%char
  else if Ascii.eqb c "b" then Some "008"%char
  else if Ascii.eqb c "f" then Some "012"%char
  else if Ascii.eqb c "n" then Some "010"%char
  else if Ascii.eqb c "r" then Some "013"%char
  else if Ascii.eqb c "t" then Some "009"%char
  else None.

(** The characters of a string after its opening quote, up to the
    closing one; [None] when the string is not well formed. *)
Fixpoint parse_string (fuel : nat) (s : string) : option (string * string) :=
  match fuel with
  | O => None
  | S fuel' =>
      match s with
      | EmptyString => None
      | String c r =>
          if Ascii.eqb c dquote then Some (EmptyString, r)
          else if Ascii.eqb c "\" then
            match r with
            | String e r' =>
                if Ascii.eqb e "u" then
                  match hex4 r' with
                  | Some (n, r'') =>
                      if (n <? 256)%nat then
                        match parse_string fuel' r'' with
                        | Some (t, rest) => Some (String (ascii_of_nat n) t, rest)
                        | None => None
                        end
                      else None
                  | None => None
                  end
                else
                  match escape e with
                  | Some x =>
                      match parse_string fuel' r' with
                      | Some (t, rest) => Some (String x t, rest)
                      | None => None
                      end
                  | None => None
                  end
            | EmptyString => None
            end
          else if (nat_of_ascii c <? 32)%nat then None
          else
            match parse_string fuel' r with
            | Some (t, rest) => Some (String c t, rest)
            | None => None
            end
      end
  end.

(** The decoder reads from left to right and stops at the first
    exception: the text after an over-long integer is never looked at. *)
Fixpoint parse_value (fuel : nat) (s : string) : result (pyval * string) :=
  match fuel with
  | O => bad
  | S fuel' =>
      match s with
      | EmptyString => bad
      | String c r =>
          if Ascii.eqb c dquote then
            match parse_string (String.length s) r with
            | Some (t, rest) => Ok (PStr t, rest)
            | None => bad
            end
          else if Ascii.eqb c "{" then
            match skip_ws r with
            | String c' r' =>
                if Ascii.eqb c' "}" then Ok (PDict [], r')
                else match parse_members fuel' (skip_ws r) [] with
                     | Ok (d, rest) => Ok (PDict d, rest)
                     | Raise e => Raise e
                     end
            | EmptyString => bad
            end
          else if Ascii.eqb c "[" then
            match skip_ws r with
            | String c' r' =>
                if Ascii.eqb c' "]" then Ok (PList [], r')
                else match parse_elements fuel' (skip_ws r) with
                     | Ok (l, rest) => Ok (PList l, rest)
                     | Raise e => Raise e
                     end
            | EmptyString => bad
            end
          else
            match strip_prefix "null" s with
            | Some rest => Ok (PNone, rest)
            | None =>
            match strip_prefix "true" s with
            | Some rest => Ok (PBool true, rest)
            | None =>
            match strip_prefix "false" s with
            | Some rest => Ok (PBool false, rest)
            | None =>
            match strip_prefix "NaN" s with
            | Some rest => Ok (PFloat "NaN", rest)
            | None =>
            match strip_prefix "Infinity" s with
            | Some rest => Ok (PFloat "Infinity", rest)
            | None =>
            match strip_prefix "-Infinity" s with
            | Some rest => Ok (PFloat "-Infinity", rest)
            | None => parse_number s
            end end end end end end
      end
  end

(** The elements of an array from its first value on, through the
    closing bracket. *)
with parse_elements (fuel : nat) (s : string) : result (list pyval * string) :=
  match fuel with
  | O => bad
  | S fuel' =>
      match parse_value fuel' s with
      | Ok (v, r) =>
          match skip_ws r with
          | String c r' =>
              if Ascii.eqb c "]" then Ok ([v], r')
              else if Ascii.eqb c "," then
                match parse_elements fuel' (skip_ws r') with
                | Ok (l, rest) => Ok (v :: l, rest)
                | Raise e => Raise e
                end
              else bad
          | EmptyString => bad
          end
      | Raise e => Raise e
      end
  end

(** The members of an object from its first key on, through the closing
    brace; [acc] holds the members read so far. *)
with parse_members (fuel : nat) (s : string) (acc : dict) : result (dict * string) :=
  match fuel with
  | O => bad
  | S fuel' =>
      match s with
      | String q r =>
          if Ascii.eqb q dquote then
            match parse_string (String.length s) r with
            | Some (k, r1) =>
                match skip_ws r1 with
                | String colon r2 =>
                    if Ascii.eqb colon ":" then
                      match parse_value fuel' (skip_ws r2) with
                      | Ok (v, r3) =>
                          match skip_ws r3 with
                          | String c r4 =>
                              if Ascii.eqb c "}" then Ok (dict_set acc k v, r4)
                              else if Ascii.eqb c "," then
                                parse_members fuel' (skip_ws r4) (dict_set acc k v)
                              else bad
                          | EmptyString => bad
                          end
                      | Raise e => Raise e
                      end
                    else bad
                | EmptyString => bad
                end
            | None => bad
            end
          else bad
      | EmptyString => bad
      end
  end.

(** [json.loads(s)] as a value or the exception it raises. *)
Definition decode (s : string) : result pyval :=
  let s0 := skip_ws s in
  match parse_value (S (String.length s0)) s0 with
  | Ok (v, rest) =>
      match skip_ws rest with
      | EmptyString => Ok v
      | _ => bad
      end
  | Raise e => Raise e
  end.

(** The value [json.loads(s)] returns, if it returns. *)
Definition json_loads_ref (s : string) : option pyval :=
  match decode s with
  | Ok v => Some v
  | Raise _ => None
  end.

(** The exception [json.loads(s)] raises when it does not return. *)
Definition json_error_ref (s : string) : exn :=
  match decode s with
  | Ok _ => JSONDecodeError
  | Raise e => e
  end.

End Json.
Import Json.

(** ** The three scans *)

(** One record of [summary["agent_calls"]]. *)
Record agent_call : Type := AgentCall {
  entry_index : nat;
  function_name : pyval;
  call_author : pyval
}.

(** The dictionary [summary] of [extract_conversation_summary]. *)
Record summary : Type := Summary {
  total_entries : nat;
  authors : list pyval;
  agent_calls : list agent_call;
  final_output_found : bool
}.

Definition append_author (a : pyval) (s : summary) : summary :=
  Summary (total_entries s) (authors s ++ [a])%list (agent_calls s)
          (final_output_found s).

Definition append_call (c : agent_call) (s : summary) : summary :=
  Summary (total_entries s) (authors s) (agent_calls s ++ [c])%list
          (final_output_found s).

Definition set_final_output_found (s : summary) : summary :=
  Summary (total_entries s) (authors s) (agent_calls s) true.

(** [enumerate(xs)] *)
Definition enumerate {A : Type} (xs : list A) : list (nat * A) :=
  combine (seq 0 (List.length xs)) xs.

(** The registry of [extract_all_agent_outputs]: the literal [outputs]. *)
Definition OUTPUT_KEYS : list string :=
  [ "data_analyst_output"; "trading_analyst_output"; "risk_analyst_output";
    "execution_analyst_output"; "financial_coordinator_output" ].

Definition initial_outputs : dict := map (fun k => (k, PNone)) OUTPUT_KEYS.

Section Extractors.

(** [json.loads]: the value it returns, or [None] when it raises; and
    the exception it raises then.  That is [JSONDecodeError] for text
    outside the grammar, and can be another one: [ValueError] for an
    integer literal that is too long, [RecursionError] for a document that
    is nested too deep. *)
Variable json_loads : string -> option pyval.
Variable json_error : string -> exn.

Definition loads (s : string) : result pyval :=
  match json_loads s with
  | Some v => Ok v
  | None => Raise (json_error s)
  end.

(** *** [extract_financial_coordinator_output] *)

(** The inner [try] block on one entry: [Some] of the value that
    [return parsed_output] hands back, [None] when the block falls
    through to the next entry. *)
Definition coordinator_entry (entry : pyval) : result (option pyval) :=
  found <-
    (author <- py_get entry "author" PNone ;;
     Ok (py_eq_str author "financial_coordinator"))
    and py_in "actions" entry
    and (actions <- py_getitem entry "actions" ;;
         py_in "stateDelta" actions)
    and (actions <- py_getitem entry "actions" ;;
         state_delta <- py_getitem actions "stateDelta" ;;
         py_in "financial_coordinator_output" state_delta) ;;
  if found : bool then
    actions <- py_getitem entry "actions" ;;
    state_delta <- py_getitem actions "stateDelta" ;;
    raw_output <- py_getitem state_delta "financial_coordinator_output" ;;
    json_match <- py_re_search raw_output ;;
    match json_match with
    | Some group1 =>
        parsed_output <- loads (strip group1) ;;
        Ok (Some parsed_output)
    | None => Ok None
    end
  else Ok None.

(** The loop over the reversed response; [except Exception: continue]
    moves on to the next entry, and the end of the loop returns [None]. *)
Fixpoint coordinator_scan (entries : list pyval) : result pyval :=
  match entries with
  | [] => Ok PNone
  | entry :: rest =>
      match coordinator_entry entry with
      | Ok (Some parsed_output) => Ok parsed_output
      | Ok None => coordinator_scan rest
      | Raise _ => coordinator_scan rest
      end
  end.

Definition extract_financial_coordinator_output (response_data : list pyval)
  : result pyval :=
  try_except (coordinator_scan (rev response_data)) (fun _ => Ok PNone).

(** *** [extract_all_agent_outputs] *)

Definition set_output (key : string) (v : pyval) : M dict unit :=
  modify (fun outputs => dict_set outputs key v).

(** The body of [for key in outputs.keys()]. *)
Definition store_output (state_delta : pyval) (key : string) : M dict unit :=
  unresolved <~
    (outputs <~ get ;;
     lift (py_in key state_delta
           and (current <- py_getitem (PDict outputs) key ;;
                Ok (is_None current)))) ;;
  if unresolved : bool then
    raw_output <~ lift (py_getitem state_delta key) ;;
    match raw_output with
    | PStr text =>
        match re_search text with
        | Some group1 =>
            mtry (parsed <~ lift (loads (strip group1)) ;; set_output key parsed)
                 (fun e => match e with
                           | JSONDecodeError => set_output key raw_output
                           | _ => lift (Raise e)
                           end)
        | None => set_output key raw_output
        end
    | _ => set_output key raw_output
    end
  else mret tt.

(** The body of [for entry in response_data], with its
    [except Exception: continue]. *)
Definition outputs_entry (entry : pyval) : M dict unit :=
  mtry
    (has_delta <~
       lift (py_in "actions" entry
             and (actions <- py_getitem entry "actions" ;;
                  py_in "stateDelta" actions)) ;;
     if has_delta : bool then
       state_delta <~
         lift (actions <- py_getitem entry "actions" ;;
               py_getitem actions "stateDelta") ;;
       outputs <~ get ;;
       for_each (keys outputs) (store_output state_delta)
     else mret tt)
    (fun _ => mret tt).

(** The outer [try] block: it starts from no local object, builds
    [outputs] and returns it. *)
Definition all_outputs_body (response_data : list pyval) : M dict dict :=
  put initial_outputs ;;;
  for_each response_data outputs_entry ;;;
  get.

Definition extract_all_agent_outputs (response_data : list pyval) : result dict :=
  snd (mtry (all_outputs_body response_data) (fun _ => mret []) []).

(** *** [extract_conversation_summary] *)

(** The body of [for part in entry["content"]["parts"]]. *)
Definition summary_part (i : nat) (author part : pyval) : M summary unit :=
  is_call <~ lift (py_in "functionCall" part) ;;
  if is_call : bool then
    name <~ lift (call <- py_getitem part "functionCall" ;;
                  py_get call "name" (PStr "unknown")) ;;
    modify (append_call (AgentCall i name author))
  else mret tt.

(** The body of [for i, entry in enumerate(response_data)], with its
    [except Exception: continue]. *)
Definition summary_entry (ie : nat * pyval) : M summary unit :=
  let (i, entry) := ie in
  mtry
    (author <~ lift (py_get entry "author" (PStr "unknown")) ;;
     modify (append_author author) ;;;
     has_parts <~
       lift (py_in "content" entry
             and (content <- py_getitem entry "content" ;;
                  py_in "parts" content)) ;;
     (if has_parts : bool then
        parts <~
          lift (content <- py_getitem entry "content" ;;
                parts <- py_getitem content "parts" ;;
                py_iter parts) ;;
        for_each parts (summary_part i author)
      else mret tt) ;;;
     is_final <~
       lift (Ok (py_eq_str author "financial_coordinator")
             and py_in "actions" entry
             and (actions <- py_getitem entry "actions" ;;
                  py_in "stateDelta" actions)
             and (actions <- py_getitem entry "actions" ;;
                  state_delta <- py_getitem actions "stateDelta" ;;
                  py_in "financial_coordinator_output" state_delta)) ;;
     if is_final : bool then modify set_final_output_found else mret tt)
    (fun _ => mret tt).

(** The outer [try] block; the state it starts from stands for the
    absence of [summary] before the literal is built. *)
Definition summary_body (response_data : list pyval) : M summary summary :=
  put (Summary (List.length response_data) [] [] false) ;;;
  for_each (enumerate response_data) summary_entry ;;;
  get.

(** [None] is the empty dictionary of the outer handler. *)
Definition extract_conversation_summary (response_data : list pyval)
  : result (option summary) :=
  snd (mtry (s <~ summary_body response_data ;; mret (Some s))
            (fun _ => mret None)
            (Summary 0 [] [] false)).

End Extractors.

(** * Readings of the data

    What the facts below are stated with: the parts of an entry the scans
    look at, read off its structure, and the values the scans build from
    them. *)

(** [entry["actions"]["stateDelta"]] when the entry, its actions and the
    state delta are all dictionaries. *)
Definition state_delta_of (entry : pyval) : option dict :=
  match entry with
  | PDict e =>
      match lookup "actions" e with
      | Some (PDict a) =>
          match lookup "stateDelta" a with
          | Some (PDict sd) => Some sd
          | _ => None
          end
      | _ => None
      end
  | _ => None
  end.

(** The entry is a dictionary whose author is the coordinator. *)
Definition has_coordinator_author (entry : pyval) : bool :=
  match entry with
  | PDict e =>
      match lookup "author" e with
      | Some a => py_eq_str a "financial_coordinator"
      | None => false
      end
  | _ => false
  end.

(** The raw value of a matching entry: the author is the coordinator and
    the state delta holds the coordinator's output key. *)
Definition coordinator_raw (entry : pyval) : option pyval :=
  if has_coordinator_author entry then
    match state_delta_of entry with
    | Some sd => lookup "financial_coordinator_output" sd
    | None => None
    end
  else None.

Section Readings.

Variable json_loads : string -> option pyval.
Variable json_error : string -> exn.

(** The decode both scans share: the fenced block of a text, stripped and
    parsed. *)
Definition fenced_decode (raw : pyval) : option pyval :=
  match raw with
  | PStr text =>
      match re_search text with
      | Some group1 => json_loads (strip group1)
      | None => None
      end
  | _ => None
  end.

Definition coordinator_output (entry : pyval) : option pyval :=
  match coordinator_raw entry with
  | Some raw => fenced_decode raw
  | None => None
  end.

(** The value the reversed scan returns: the output of the first entry
    that has one. *)
Fixpoint first_output (entries : list pyval) : pyval :=
  match entries with
  | [] => PNone
  | entry :: rest =>
      match coordinator_output entry with
      | Some v => v
      | None => first_output rest
      end
  end.

(** What the forward scan stores for a raw value, when it stores one:
    the decoded block of a text, the raw value itself where there is no
    block or the block does not decode.  Whether it stores anything is
    [abandons], below. *)
Definition stored_value (raw : pyval) : pyval :=
  match raw with
  | PStr text =>
      match re_search text with
      | Some group1 =>
          match json_loads (strip group1) with
          | Some v => v
          | None => raw
          end
      | None => raw
      end
  | _ => raw
  end.

(** The forward scan gives up on a raw value: it is a text with a fenced
    block on which [json.loads] raises an exception that
    [except json.JSONDecodeError] does not catch. *)
Definition abandons (raw : pyval) : bool :=
  match raw with
  | PStr text =>
      match re_search text with
      | Some group1 =>
          match json_loads (strip group1) with
          | Some _ => false
          | None => negb (is_decode_error (json_error (strip group1)))
          end
      | None => false
      end
  | _ => false
  end.

(** What a state delta has to store under [key]; [PNone] when it does
    not hold the key or the scan gives up on the value it holds. *)
Definition offered_in (sd : dict) (key : string) : pyval :=
  match lookup key sd with
  | Some raw => if abandons raw then PNone else stored_value raw
  | None => PNone
  end.

(** What an entry has to store under [key]. *)
Definition offered (key : string) (entry : pyval) : pyval :=
  match state_delta_of entry with
  | Some sd => offered_in sd key
  | None => PNone
  end.

(** The scan of a state delta gives up before it comes to [key]: a key
    that comes before it in [ks] holds a value the scan gives up on. *)
Fixpoint gives_up_before (sd : dict) (ks : list string) (key : string) : bool :=
  match ks with
  | [] => false
  | k :: rest =>
      if String.eqb k key then false
      else match lookup k sd with
           | Some raw => abandons raw
           | None => false
           end
           || gives_up_before sd rest key
  end.

(** The same for an entry and the keys of the registry in their order:
    when it holds, [except Exception: continue] may leave the entry before
    [key] is looked at. *)
Definition abandoned_before (key : string) (entry : pyval) : bool :=
  match state_delta_of entry with
  | Some sd => gives_up_before sd OUTPUT_KEYS key
  | None => false
  end.

(** The scan gives up on no value the entry holds under a key of the
    registry. *)
Definition quiet (entry : pyval) : bool :=
  match state_delta_of entry with
  | Some sd =>
      forallb (fun k => match lookup k sd with
                        | Some raw => negb (abandons raw)
                        | None => true
                        end)
              OUTPUT_KEYS
  | None => true
  end.

(** A key keeps its value once the value is not [None]. *)
Definition merge (current new : pyval) : pyval :=
  if is_None current then new else current.

(** The first value of a list that is not [None]. *)
Fixpoint first_resolved (vs : list pyval) : pyval :=
  match vs with
  | [] => PNone
  | v :: rest => if is_None v then first_resolved rest else v
  end.

(** One key of one state delta: the outputs after it, or [None] when
    the scan gives up on the value. *)
Definition store (sd : dict) (outputs : dict) (key : string) : option dict :=
  match lookup key sd, lookup key outputs with
  | Some raw, Some current =>
      if is_None current then
        if abandons raw then None
        else Some (dict_set outputs key (stored_value raw))
      else Some outputs
  | _, _ => Some outputs
  end.

(** The keys of one state delta in turn, up to the first on which the
    scan gives up: what was stored before it stays. *)
Fixpoint store_each (sd : dict) (ks : list string) (outputs : dict) : dict :=
  match ks with
  | [] => outputs
  | k :: rest =>
      match store sd outputs k with
      | Some outputs' => store_each sd rest outputs'
      | None => outputs
      end
  end.

(** One entry of the forward scan. *)
Definition scan_entry (outputs : dict) (entry : pyval) : dict :=
  match state_delta_of entry with
  | Some sd => store_each sd (map fst outputs) outputs
  | None => outputs
  end.

End Readings.

(** The raw value an entry holds under [key], when its state delta is a
    dictionary that holds the key. *)
Definition raw_at (key : string) (entry : pyval) : option pyval :=
  match state_delta_of entry with
  | Some sd => lookup key sd
  | None => None
  end.

(** Two entries hold the same raw values under the keys of the registry. *)
Definition same_registry_values (e1 e2 : pyval) : Prop :=
  forall key, In key OUTPUT_KEYS -> raw_at key e1 = raw_at key e2.

Definition is_mapping (entry : pyval) : bool :=
  match entry with PDict _ => true | _ => false end.

(** [entry.get("author", "unknown")] on an entry that is a dictionary. *)
Definition author_or_unknown (entry : pyval) : pyval :=
  match entry with
  | PDict e => match lookup "author" e with Some a => a | None => PStr "unknown" end
  | _ => PStr "unknown"
  end.

(** The summary that holds nothing. *)
Definition zero : summary := Summary 0 [] [] false.

(** [plus s d]: the summary [s] followed by what [d] adds. *)
Definition plus (s d : summary) : summary :=
  Summary (total_entries s)
          (authors s ++ authors d)%list
          (agent_calls s ++ agent_calls d)%list
          (final_output_found s || final_output_found d).

(** A statement is additive when what it appends does not depend on what
    the summary already holds. *)
Definition additive {A : Type} (c : M summary A) : Prop :=
  forall s, c s = (plus s (fst (c zero)), snd (c zero)).

(** A statement keeps the count and the authors when it only appends
    calls or sets the flag. *)
Definition keeps_authors {A : Type} (c : M summary A) : Prop :=
  forall s, total_entries (fst (c s)) = total_entries s
            /\ authors (fst (c s)) = authors s.

(** The author an entry adds to the list: none when the entry is not a
    dictionary, for then [entry.get] raises before the append. *)
Definition entry_authors (entry : pyval) : list pyval :=
  match entry with
  | PDict e =>
      [match lookup "author" e with Some a => a | None => PStr "unknown" end]
  | _ => []
  end.

(** The summary of one entry alone, at index [i]. *)
Definition entry_summary (ie : nat * pyval) : summary :=
  fst (summary_entry ie zero).

(** The sum of the summaries of the entries, each taken alone. *)
Definition sum_entries (n : nat) (ies : list (nat * pyval)) : summary :=
  fold_left plus (map entry_summary ies) (Summary n [] [] false).

(** Entries and texts the closed examples run the scans on. *)
Module Samples.

(** [body] inside a fenced block: three backticks and json, a newline,
    the body, a newline, three backticks. *)
Definition fenced (body : string) : string := opening ++ nl ++ body ++ closing.

(** The JSON object with the single member score. *)
Definition score (n : string) : string := "{" ++ quoted "score" ++ ": " ++ n ++ "}".

Definition delta_event (author key : string) (raw : pyval) : pyval :=
  PDict [("author", PStr author);
         ("actions", PDict [("stateDelta", PDict [(key, raw)])])].

Definition coordinator_event (raw : pyval) : pyval :=
  delta_event "financial_coordinator" "financial_coordinator_output" raw.

(** A text with two fenced blocks. *)
Definition two_blocks : string :=
  fenced (score "1") ++ nl ++ "and" ++ nl ++ fenced (score "2").

(** What [score] decodes to. *)
Definition score_value (n : Z) : pyval := PDict [("score", PInt n)].

(** An integer literal of [n] digits. *)
Fixpoint digits (n : nat) : string :=
  match n with
  | O => ""
  | S n' => String "1" (digits n')
  end.

(** An integer literal one digit longer than [int] accepts, in a fenced
    block: [json.loads] raises [ValueError] on it. *)
Definition long_integer : string := fenced (digits (S MAX_STR_DIGITS)).

(** An entry whose state delta holds several keys. *)
Definition delta_event_of (author : string) (state_delta : dict) : pyval :=
  PDict [("author", PStr author);
         ("actions", PDict [("stateDelta", PDict state_delta)])].

(** The outputs in which only the coordinator's key is resolved. *)
Definition no_outputs (final : pyval) : dict :=
  [ ("data_analyst_output", PNone); ("trading_analyst_output", PNone);
    ("risk_analyst_output", PNone); ("execution_analyst_output", PNone);
    ("financial_coordinator_output", final) ].

End Samples.

(** * Facts about text and the fenced block pattern *)

Module TextFacts.

Lemma append_nil_r (s : string) : s ++ "" = s.
Proof. induction s as [|c s IH]; simpl; [reflexivity | now rewrite IH]. Qed.

Lemma append_assoc (a b c : string) : (a ++ b) ++ c = a ++ (b ++ c).
Proof. induction a as [|x a IH]; simpl; [reflexivity | now rewrite IH]. Qed.

Lemma length_append (a b : string) :
  String.length (a ++ b) = String.length a + String.length b.
Proof. induction a as [|x a IH]; simpl; [reflexivity | now rewrite IH]. Qed.

Lemma strip_prefix_app (p r : string) : strip_prefix p (p ++ r) = Some r.
Proof.
  induction p as [|c p IH]; simpl; [reflexivity |].
  now rewrite Ascii.eqb_refl.
Qed.

Lemma strip_prefix_sound (p s r : string) :
  strip_prefix p s = Some r -> s = p ++ r.
Proof.
  revert s; induction p as [|c p IH]; simpl; intros s H.
  - now inversion H.
  - destruct s as [|d s]; [discriminate |].
    destruct (Ascii.eqb_spec c d) as [->|]; [|discriminate].
    now rewrite (IH _ H).
Qed.

Lemma starts_with_app (p r : string) : starts_with p (p ++ r) = true.
Proof. unfold starts_with; now rewrite strip_prefix_app. Qed.

(** Whether [p] starts a text is decided by the first [length p]
    characters of the text. *)
Lemma starts_with_long (p a y : string) :
  String.length p <= String.length a ->
  starts_with p (a ++ y) = starts_with p a.
Proof.
  unfold starts_with.
  revert a; induction p as [|c p IH]; simpl; intros a H; [reflexivity |].
  destruct a as [|d a]; simpl in *; [lia |].
  destruct (Ascii.eqb c d); [|reflexivity].
  apply IH; lia.
Qed.

(** A longer pattern starts a text only if its own prefix does. *)
Lemma starts_with_prefix (p q s : string) :
  starts_with (p ++ q) s = true -> starts_with p s = true.
Proof.
  unfold starts_with.
  revert s; induction p as [|c p IH]; simpl; intros s H; [reflexivity |].
  destruct s as [|d s]; [discriminate |].
  destruct (Ascii.eqb c d); [|discriminate].
  now apply IH.
Qed.

Lemma occurs_cons (p : string) (c : ascii) (s : string) :
  occurs p (String c s) = starts_with p (String c s) || occurs p s.
Proof. reflexivity. Qed.

Lemma occurs_prefix (p q s : string) :
  occurs p s = false -> occurs (p ++ q) s = false.
Proof.
  induction s as [|c s IH]; simpl; intros H.
  - apply orb_false_iff in H as [H _].
    rewrite orb_false_r in *.
    destruct (starts_with (p ++ q) "") eqn:E; [|reflexivity].
    apply starts_with_prefix in E; congruence.
  - apply orb_false_iff in H as [H1 H2].
    rewrite (IH H2), orb_false_r.
    destruct (starts_with (p ++ q) (String c s)) eqn:E; [|reflexivity].
    apply starts_with_prefix in E; congruence.
Qed.

Lemma all_space_app (u v : string) :
  all_space (u ++ v) = all_space u && all_space v.
Proof.
  induction u as [|c u IH]; simpl; [reflexivity |].
  now rewrite IH, andb_assoc.
Qed.

Lemma lstrip_space_app (u g : string) :
  all_space u = true -> lstrip (u ++ g) = lstrip g.
Proof.
  induction u as [|c u IH]; simpl; intros H; [reflexivity |].
  apply andb_true_iff in H as [Hc Hu].
  rewrite Hc; auto.
Qed.

Lemma strip_space_app (u g : string) :
  all_space u = true -> strip (u ++ g) = strip g.
Proof. intros H; unfold strip; now rewrite lstrip_space_app. Qed.

End TextFacts.
Import TextFacts.

Module FenceFacts.

Lemma body_none (r : string) : occurs closing r = false -> body r = None.
Proof.
  induction r as [|c r IH]; intros H; [reflexivity |].
  rewrite occurs_cons in H.
  apply orb_false_iff in H as [H1 H2].
  simpl body. rewrite (IH H2).
  now rewrite H1.
Qed.

Lemma body_app (x r g : string) :
  body r = Some g -> body (x ++ r) = Some (x ++ g).
Proof.
  intros H; induction x as [|c x IH]; simpl; [assumption |].
  now rewrite IH.
Qed.

(** Group 1 ends at the last closing marker of the text. *)
Lemma body_last (p tail : string) :
  occurs closing tail = false ->
  body (p ++ closing ++ tail) = Some p.
Proof.
  intros H.
  rewrite <- (append_nil_r p) at 2.
  apply body_app.
  assert (Hn : body ("```" ++ tail) = None).
  { apply body_none. simpl. now rewrite H. }
  simpl. simpl in Hn. now rewrite Hn.
Qed.

(** Every match of group 1 is followed by a closing marker after which
    no closing marker occurs. *)
Lemma body_sound (r g : string) :
  body r = Some g ->
  exists tail, r = g ++ closing ++ tail /\ body ("```" ++ tail) = None.
Proof.
  revert g; induction r as [|c r IH]; intros g H; [discriminate |].
  simpl in H.
  destruct (body r) as [g'|] eqn:E.
  - inversion H; subst.
    destruct (IH g' eq_refl) as (tail & -> & Hn).
    exists tail; split; [reflexivity | assumption].
  - destruct (starts_with closing (String c r)) eqn:S; [|discriminate].
    inversion H; subst.
    unfold starts_with in S.
    destruct (strip_prefix closing (String c r)) as [tail|] eqn:P; [|discriminate].
    apply strip_prefix_sound in P.
    exists tail; split; [exact P |].
    simpl in P. inversion P; subst. exact E.
Qed.

Lemma ws_then_body_sound (r g : string) :
  ws_then_body r = Some g ->
  exists u r1, r = u ++ nl ++ r1 /\ all_space u = true /\ body r1 = Some g.
Proof.
  revert g; induction r as [|c r IH]; intros g H; [discriminate |].
  simpl in H.
  destruct (is_space c) eqn:Hc; [|discriminate].
  destruct (ws_then_body r) as [g'|] eqn:E.
  - inversion H; subst.
    destruct (IH g eq_refl) as (u & r1 & -> & Hu & Hb).
    exists (String c u), r1; simpl; rewrite Hc, Hu; auto.
  - destruct (Ascii.eqb_spec c newline) as [->|]; [|discriminate].
    exists "", r; auto.
Qed.

(** After white space and a newline, the pattern matches whenever group
    1 can, and what the greedy white space takes from the front of the
    group is white space. *)
Lemma ws_then_body_complete (w r0 p : string) :
  all_space w = true ->
  body r0 = Some p ->
  exists g u, ws_then_body (w ++ nl ++ r0) = Some g
              /\ all_space u = true /\ p = u ++ g.
Proof.
  intros Hw Hb.
  induction w as [|c w IH]; simpl.
  - change (is_space newline) with true; cbv iota.
    destruct (ws_then_body r0) as [g|] eqn:E.
    + destruct (ws_then_body_sound _ _ E) as (u & r1 & -> & Hu & Hb1).
      exists g, (u ++ nl); split; [reflexivity | split].
      * rewrite all_space_app, Hu; reflexivity.
      * rewrite (body_app u _ _ (body_app nl _ _ Hb1)) in Hb.
        inversion Hb. now rewrite append_assoc.
    + exists p, ""; auto.
  - simpl in Hw. apply andb_true_iff in Hw as [Hc Hw].
    destruct (IH Hw) as (g & u & E & Hu & ->).
    simpl in E. rewrite Hc, E. exists g, u; auto.
Qed.

Lemma re_search_cons (c : ascii) (s : string) :
  re_search (String c s) =
  match match_here (String c s) with
  | Some g => Some g
  | None => re_search s
  end.
Proof. reflexivity. Qed.

(** The search skips the positions at which the opening marker does not
    start. *)
Lemma re_search_skip (pre rest : string) :
  occurs opening (pre ++ "```jso") = false ->
  re_search (pre ++ opening ++ rest) = re_search (opening ++ rest).
Proof.
  induction pre as [|c pre IH]; intros H; [reflexivity |].
  change (String c pre ++ "```jso") with (String c (pre ++ "```jso")) in H.
  rewrite occurs_cons in H.
  apply orb_false_iff in H as [H1 H2].
  change (String c pre ++ opening ++ rest)
    with (String c (pre ++ opening ++ rest)).
  rewrite re_search_cons.
  assert (E : match_here (String c (pre ++ opening ++ rest)) = None).
  { unfold match_here.
    assert (S : starts_with opening (String c (pre ++ opening ++ rest)) = false).
    { change (opening ++ rest) with ("```jso" ++ ("n" ++ rest)).
      rewrite <- append_assoc.
      change (String c ((pre ++ "```jso") ++ "n" ++ rest))
        with (String c (pre ++ "```jso") ++ ("n" ++ rest)).
      rewrite starts_with_long; [exact H1 |].
      simpl. rewrite length_append. simpl. lia. }
    unfold starts_with in S.
    now destruct (strip_prefix opening (String c (pre ++ opening ++ rest))). }
  rewrite E. now apply IH.
Qed.

Lemma match_here_opening (s g : string) :
  match_here s = Some g -> starts_with opening s = true.
Proof.
  unfold match_here, starts_with.
  now destruct (strip_prefix opening s).
Qed.

(** A text without three backticks in a row has no fenced block. *)
Lemma re_search_no_fence (t : string) :
  occurs "```" t = false -> re_search t = None.
Proof.
  induction t as [|c t IH]; intros H.
  - reflexivity.
  - rewrite occurs_cons in H. apply orb_false_iff in H as [H1 H2].
    rewrite re_search_cons.
    destruct (match_here (String c t)) as [g|] eqn:E; [|now apply IH].
    apply match_here_opening in E.
    apply (starts_with_prefix "```" "json") in E. congruence.
Qed.

End FenceFacts.
Import FenceFacts.

(** * Facts about dictionaries and statements *)

Module DictFacts.

Lemma lookup_dict_set_same (d : dict) (k : string) (v : pyval) :
  lookup k (dict_set d k v) = Some v.
Proof.
  induction d as [|[k' x] d IH]; simpl.
  - now rewrite String.eqb_refl.
  - destruct (String.eqb k k') eqn:E; simpl; rewrite E; auto.
Qed.

Lemma lookup_dict_set_other (d : dict) (k k' : string) (v : pyval) :
  k' <> k -> lookup k' (dict_set d k v) = lookup k' d.
Proof.
  intros N; induction d as [|[k0 x] d IH]; simpl.
  - apply String.eqb_neq in N; now rewrite N.
  - destruct (String.eqb_spec k k0) as [->|]; simpl.
    + apply String.eqb_neq in N; now rewrite N.
    + now rewrite IH.
Qed.

Lemma dict_set_keys (d : dict) (k : string) (v : pyval) :
  lookup k d <> None -> map fst (dict_set d k v) = map fst d.
Proof.
  induction d as [|[k0 x] d IH]; simpl; intros H; [congruence |].
  destruct (String.eqb k k0); simpl; [reflexivity |].
  now rewrite IH.
Qed.

Lemma lookup_in_keys (d : dict) (k : string) :
  In k (map fst d) -> lookup k d <> None.
Proof.
  induction d as [|[k0 x] d IH]; simpl; intros H; [tauto |].
  destruct (String.eqb_spec k k0); [discriminate |].
  destruct H; [congruence | auto].
Qed.

Lemma lookup_in_keys_inv (d : dict) (k : string) :
  lookup k d <> None -> In k (map fst d).
Proof.
  induction d as [|[k0 x] d IH]; simpl; intros H; [congruence |].
  destruct (String.eqb_spec k k0); [now left | right; auto].
Qed.

Lemma filter_other (k : string) (l : list string) :
  ~ In k l -> filter (fun k' => negb (String.eqb k' k)) l = l.
Proof.
  induction l as [|a l IH]; simpl; intros H; [reflexivity |].
  destruct (String.eqb_spec a k); simpl; [tauto |].
  rewrite IH; tauto.
Qed.

(** A dictionary holds each key once: its keys are the first components
    of its items. *)
Lemma keys_nodup (d : dict) : NoDup (map fst d) -> keys d = map fst d.
Proof.
  induction d as [|[k x] d IH]; simpl; intros H; [reflexivity |].
  inversion H; subst.
  rewrite IH by assumption.
  now rewrite filter_other.
Qed.

(** Two dictionaries with the same keys in the same order and the same
    value under each key are the same dictionary. *)
Lemma dict_ext (d1 d2 : dict) :
  map fst d1 = map fst d2 ->
  NoDup (map fst d1) ->
  (forall k, In k (map fst d1) -> lookup k d1 = lookup k d2) ->
  d1 = d2.
Proof.
  revert d2; induction d1 as [|[k v] d1 IH]; intros [|[k' v'] d2] K N L;
    simpl in *; try discriminate; [reflexivity |].
  injection K as -> K. inversion N as [|? ? Nk N']; subst.
  pose proof (L k' (or_introl eq_refl)) as Lk.
  rewrite String.eqb_refl in Lk. injection Lk as ->.
  f_equal. apply IH; auto.
  intros k0 Hk. specialize (L k0 (or_intror Hk)).
  destruct (String.eqb_spec k0 k') as [E|]; [subst; contradiction | exact L].
Qed.

End DictFacts.
Import DictFacts.

Module StatementFacts.

Section Loops.

Context {S A : Type}.

(** A loop whose body never raises runs to its end. *)
Lemma for_each_total (body : A -> M S unit) (xs : list A) (s : S) :
  (forall x s', snd (body x s') = Ok tt) ->
  for_each xs body s = (fold_left (fun s' x => fst (body x s')) xs s, Ok tt).
Proof.
  intros H; revert s; induction xs as [|x xs IH]; intros s; simpl.
  - reflexivity.
  - unfold mbind. specialize (H x s).
    destruct (body x s) as [s' [[]|e]]; simpl in *; [apply IH | discriminate].
Qed.

(** A loop whose body leaves the state alone leaves the state alone. *)
Lemma for_each_unchanged (body : A -> M S unit) (xs : list A) (s : S) :
  (forall x, fst (body x s) = s) ->
  fst (for_each xs body s) = s.
Proof.
  intros H; induction xs as [|x xs IH]; simpl; [reflexivity |].
  unfold mbind. specialize (H x).
  destruct (body x s) as [s' [[]|e]]; simpl in *; subst; auto.
Qed.

End Loops.

(** [except Exception: continue] swallows whatever the body raises. *)
Lemma mtry_continue {S : Type} (c : M S unit) (s : S) :
  mtry c (fun _ => mret tt) s = (fst (c s), Ok tt).
Proof.
  unfold mtry, mret. now destruct (c s) as [s' [[]|e]].
Qed.

End StatementFacts.
Import StatementFacts.

(** * Facts about the scans *)

Lemma lookup_initial_outputs (k : string) :
  In k OUTPUT_KEYS -> lookup k initial_outputs = Some PNone.
Proof.
  unfold initial_outputs.
  induction OUTPUT_KEYS as [|k0 ks IH]; simpl; intros H; [tauto |].
  destruct (String.eqb_spec k k0); [reflexivity |].
  destruct H; [congruence | auto].
Qed.

Section ScanFacts.

Variable json_loads : string -> option pyval.
Variable json_error : string -> exn.

Ltac case_split :=
  repeat match goal with
         | |- context [match ?x with _ => _ end] =>
             lazymatch x with
             | context [match _ with _ => _ end] => fail
             | _ => destruct x eqn:?; cbn in *; try discriminate; try congruence
             end
         end.

Lemma coordinator_entry_spec (entry : pyval) :
  match coordinator_entry json_loads json_error entry with
  | Ok (Some v) => coordinator_output json_loads entry = Some v
  | _ => coordinator_output json_loads entry = None
  end.
Proof.
  unfold coordinator_output, coordinator_raw, has_coordinator_author,
    state_delta_of, fenced_decode, coordinator_entry, loads.
  destruct entry; cbn; try reflexivity.
  case_split.
Qed.

Lemma coordinator_scan_spec (entries : list pyval) :
  coordinator_scan json_loads json_error entries = Ok (first_output json_loads entries).
Proof.
  induction entries as [|entry rest IH]; simpl; [reflexivity |].
  pose proof (coordinator_entry_spec entry) as H.
  destruct (coordinator_entry json_loads json_error entry) as [[v|]|e]; rewrite H; auto.
Qed.

Lemma extract_coordinator_spec (response_data : list pyval) :
  extract_financial_coordinator_output json_loads json_error response_data
  = Ok (first_output json_loads (rev response_data)).
Proof.
  unfold extract_financial_coordinator_output.
  now rewrite coordinator_scan_spec.
Qed.

Lemma first_output_skip (skipped rest : list pyval) :
  Forall (fun e => coordinator_output json_loads e = None) skipped ->
  first_output json_loads (skipped ++ rest)%list = first_output json_loads rest.
Proof.
  induction 1 as [|e l He _ IH]; simpl; [reflexivity |].
  now rewrite He.
Qed.

Lemma store_output_dict (sd outputs : dict) (key : string) :
  lookup key outputs <> None ->
  match store json_loads json_error sd outputs key with
  | Some outputs' =>
      store_output json_loads json_error (PDict sd) key outputs = (outputs', Ok tt)
  | None =>
      exists e,
        store_output json_loads json_error (PDict sd) key outputs
        = (outputs, Raise e)
  end.
Proof.
  intros H. unfold store_output, store, set_output, stored_value, abandons, loads.
  destruct (lookup key outputs) as [current|] eqn:E; [|congruence].
  cbn. rewrite E.
  destruct (lookup key sd) as [raw|]; cbn; [|reflexivity].
  destruct (is_None current); cbn; [|reflexivity].
  destruct raw as [| | | |text| |]; cbn; try reflexivity.
  destruct (re_search text) as [group1|]; cbn; [|reflexivity].
  destruct (json_loads (strip group1)); cbn; [reflexivity |].
  destruct (json_error (strip group1)); cbn;
    try reflexivity; eexists; reflexivity.
Qed.

Lemma store_output_other (state_delta : pyval) (outputs : dict) (key : string) :
  (forall sd, state_delta <> PDict sd) ->
  fst (store_output json_loads json_error state_delta key outputs) = outputs.
Proof.
  intros H. unfold store_output.
  destruct state_delta as [| | | |text|l|sd]; cbn; try reflexivity.
  - destruct (occurs key text); cbn; [|reflexivity].
    destruct (lookup key outputs) as [current|]; cbn; [|reflexivity].
    destruct (is_None current); reflexivity.
  - destruct (existsb _ l); cbn; [|reflexivity].
    destruct (lookup key outputs) as [current|]; cbn; [|reflexivity].
    destruct (is_None current); reflexivity.
  - now destruct (H sd).
Qed.

Lemma merge_none (current : pyval) : merge current PNone = current.
Proof. now destruct current. Qed.

Lemma merge_kept (current v : pyval) : is_None current = false -> merge current v = current.
Proof. unfold merge. now intros ->. Qed.

Lemma merge_twice (current v : pyval) : merge (merge current v) v = merge current v.
Proof. unfold merge. destruct (is_None current) eqn:E; [now destruct (is_None v) | now rewrite E]. Qed.

Lemma is_None_true (v : pyval) : is_None v = true -> v = PNone.
Proof. now destruct v. Qed.

Lemma is_None_false (v : pyval) : v <> PNone -> is_None v = false.
Proof. destruct v; simpl; congruence. Qed.

Lemma store_keys (sd outputs outputs' : dict) (key : string) :
  store json_loads json_error sd outputs key = Some outputs' ->
  map fst outputs' = map fst outputs.
Proof.
  unfold store.
  destruct (lookup key sd) as [raw|]; [|now intros [= <-]].
  destruct (lookup key outputs) as [current|] eqn:E; [|now intros [= <-]].
  destruct (is_None current); [|now intros [= <-]].
  destruct (abandons json_loads json_error raw); [discriminate |].
  intros [= <-]. apply dict_set_keys; congruence.
Qed.

Lemma store_same (sd outputs outputs' : dict) (key : string) (current : pyval) :
  lookup key outputs = Some current ->
  store json_loads json_error sd outputs key = Some outputs' ->
  lookup key outputs' = Some (merge current (offered_in json_loads json_error sd key)).
Proof.
  intros E. unfold store, offered_in, merge. rewrite E.
  destruct (lookup key sd) as [raw|].
  - destruct (is_None current).
    + destruct (abandons json_loads json_error raw); [discriminate |].
      intros [= <-]. apply lookup_dict_set_same.
    + now intros [= <-].
  - intros [= <-]. rewrite E. now destruct current.
Qed.

Lemma store_other (sd outputs outputs' : dict) (key k : string) :
  k <> key ->
  store json_loads json_error sd outputs key = Some outputs' ->
  lookup k outputs' = lookup k outputs.
Proof.
  intros N. unfold store.
  destruct (lookup key sd) as [raw|]; [|now intros [= <-]].
  destruct (lookup key outputs) as [current|]; [|now intros [= <-]].
  destruct (is_None current); [|now intros [= <-]].
  destruct (abandons json_loads json_error raw); [discriminate |].
  intros [= <-]. now apply lookup_dict_set_other.
Qed.

(** The scan gives up on a key only where the key still holds [None] and
    the state delta has nothing to store for it. *)
Lemma store_gives_up (sd outputs : dict) (key : string) :
  store json_loads json_error sd outputs key = None ->
  lookup key outputs = Some PNone
  /\ offered_in json_loads json_error sd key = PNone
  /\ exists raw, lookup key sd = Some raw
                 /\ abandons json_loads json_error raw = true.
Proof.
  unfold store, offered_in.
  destruct (lookup key sd) as [raw|]; [|discriminate].
  destruct (lookup key outputs) as [current|]; [|discriminate].
  destruct (is_None current) eqn:E; [|discriminate].
  destruct (abandons json_loads json_error raw) eqn:A; [|discriminate].
  intros _. rewrite (is_None_true current E). eauto.
Qed.

Lemma for_each_store (sd : dict) (ks : list string) (outputs : dict) :
  (forall k, In k ks -> In k (map fst outputs)) ->
  fst (for_each ks (store_output json_loads json_error (PDict sd)) outputs)
  = store_each json_loads json_error sd ks outputs.
Proof.
  revert outputs; induction ks as [|k ks IH]; intros outputs H; simpl.
  - reflexivity.
  - unfold mbind.
    pose proof (store_output_dict sd outputs k) as S.
    destruct (store json_loads json_error sd outputs k) as [o1|] eqn:E.
    + rewrite S by (apply lookup_in_keys, H; now left).
      apply IH. intros k' Hk'. rewrite (store_keys _ _ _ _ E). apply H; now right.
    + destruct S as [e S]; [apply lookup_in_keys, H; now left |].
      now rewrite S.
Qed.

Lemma store_each_keys (sd : dict) (ks : list string) (outputs : dict) :
  map fst (store_each json_loads json_error sd ks outputs) = map fst outputs.
Proof.
  revert outputs; induction ks as [|k ks IH]; intros outputs; simpl.
  - reflexivity.
  - destruct (store json_loads json_error sd outputs k) as [o1|] eqn:E; [|reflexivity].
    now rewrite IH, (store_keys _ _ _ _ E).
Qed.

Lemma store_each_other (sd : dict) (ks : list string) (outputs : dict) (k : string) :
  ~ In k ks ->
  lookup k (store_each json_loads json_error sd ks outputs) = lookup k outputs.
Proof.
  revert outputs; induction ks as [|k0 ks IH]; intros outputs H; simpl.
  - reflexivity.
  - destruct (store json_loads json_error sd outputs k0) as [o1|] eqn:E; [|reflexivity].
    rewrite IH by (simpl in H; tauto).
    apply (store_other _ _ _ _ _ (fun X => H (or_introl (eq_sym X))) E).
Qed.

(** Whatever the scan of a state delta gives up on, a key keeps its value
    or takes what the state delta has to store for it. *)
Lemma store_each_bound (sd : dict) (ks : list string) (outputs : dict)
      (k : string) (current : pyval) :
  lookup k outputs = Some current ->
  lookup k (store_each json_loads json_error sd ks outputs) = Some current
  \/ lookup k (store_each json_loads json_error sd ks outputs)
     = Some (merge current (offered_in json_loads json_error sd k)).
Proof.
  revert outputs current; induction ks as [|k0 ks IH]; intros outputs current L; simpl.
  - now left.
  - destruct (store json_loads json_error sd outputs k0) as [o1|] eqn:E; [|now left].
    destruct (String.eqb_spec k k0) as [->|D].
    + pose proof (store_same _ _ _ _ _ L E) as L1.
      destruct (IH o1 _ L1) as [R|R]; right; rewrite R; [reflexivity |].
      now rewrite merge_twice.
    + apply IH. now rewrite (store_other _ _ _ _ _ D E).
Qed.

(** A key the scan comes to takes what the state delta has to store for
    it, unless it holds a value already. *)
Lemma store_each_reach (sd : dict) (ks : list string) (outputs : dict)
      (k : string) (current : pyval) :
  NoDup ks -> In k ks ->
  lookup k outputs = Some current ->
  gives_up_before json_loads json_error sd ks k = false ->
  lookup k (store_each json_loads json_error sd ks outputs)
  = Some (merge current (offered_in json_loads json_error sd k)).
Proof.
  revert outputs; induction ks as [|k0 ks IH]; intros outputs N I L G; simpl.
  - destruct I.
  - inversion N as [|? ? Nk N']; subst. simpl in G.
    destruct (String.eqb_spec k0 k) as [->|D].
    + destruct (store json_loads json_error sd outputs k) as [o1|] eqn:E.
      * rewrite store_each_other by assumption.
        now apply (store_same _ _ _ _ _ L E).
      * destruct (store_gives_up _ _ _ E) as (L0 & O & _).
        rewrite L in L0. injection L0 as ->. now rewrite L, O.
    + destruct I as [->|I]; [congruence |].
      apply orb_false_iff in G as [G0 G].
      destruct (store json_loads json_error sd outputs k0) as [o1|] eqn:E.
      * apply IH; auto.
        rewrite (store_other _ _ _ _ _ (fun X => D (eq_sym X)) E). exact L.
      * destruct (store_gives_up _ _ _ E) as (_ & _ & raw & R & A).
        rewrite R in G0. congruence.
Qed.

(** The scan of a state delta reads only the values under the keys it is
    run on. *)
Lemma store_each_ext (sd1 sd2 : dict) (ks : list string) (outputs : dict) :
  (forall k, In k ks -> lookup k sd1 = lookup k sd2) ->
  store_each json_loads json_error sd1 ks outputs
  = store_each json_loads json_error sd2 ks outputs.
Proof.
  revert outputs; induction ks as [|k ks IH]; intros outputs H; simpl.
  - reflexivity.
  - assert (S : store json_loads json_error sd1 outputs k
                = store json_loads json_error sd2 outputs k).
    { unfold store. now rewrite (H k (or_introl eq_refl)). }
    rewrite S.
    destruct (store json_loads json_error sd2 outputs k); [|reflexivity].
    apply IH. intros k' Hk'. apply H. now right.
Qed.

Lemma store_each_absent (sd : dict) (ks : list string) (outputs : dict) :
  (forall k, In k ks -> lookup k sd = None) ->
  store_each json_loads json_error sd ks outputs = outputs.
Proof.
  intros H. rewrite (store_each_ext sd [] ks outputs) by (intros k Hk; now rewrite H).
  clear. revert outputs. induction ks as [|k ks IH]; intros outputs; simpl; auto.
Qed.

(** One entry of the forward scan never raises, whatever happens inside
    it, and leaves the outputs as [scan_entry] says. *)
Lemma outputs_entry_spec (entry : pyval) (outputs : dict) :
  NoDup (map fst outputs) ->
  outputs_entry json_loads json_error entry outputs
  = (scan_entry json_loads json_error outputs entry, Ok tt).
Proof.
  intros N.
  unfold outputs_entry. rewrite mtry_continue. f_equal.
  unfold scan_entry, state_delta_of.
  destruct entry as [| | | |text|l|e]; cbn; auto.
  - destruct (occurs "actions" text); cbn; auto.
  - destruct (existsb _ l); cbn; auto.
  - destruct (lookup "actions" e) as [actions|]; cbn; auto.
    destruct actions as [| | | |text|l|a]; cbn; auto.
    + destruct (occurs "stateDelta" text); cbn; auto.
    + destruct (existsb _ l); cbn; auto.
    + destruct (lookup "stateDelta" a) as [state_delta|]; cbn; auto.
      assert (Hother : (forall sd, state_delta <> PDict sd) ->
                fst (for_each (keys outputs)
                       (store_output json_loads json_error state_delta) outputs)
                = outputs).
      { intros H. apply for_each_unchanged.
        intros x. now apply store_output_other. }
      destruct state_delta as [| | | | | |sd];
        try (rewrite Hother by discriminate; now auto).
      rewrite keys_nodup by assumption.
      now rewrite for_each_store by auto.
Qed.

Lemma scan_entry_keys (outputs : dict) (entry : pyval) :
  map fst (scan_entry json_loads json_error outputs entry) = map fst outputs.
Proof.
  unfold scan_entry. destruct (state_delta_of entry); [|reflexivity].
  apply store_each_keys.
Qed.

Lemma scan_entry_bound (outputs : dict) (entry : pyval) (k : string) (current : pyval) :
  lookup k outputs = Some current ->
  lookup k (scan_entry json_loads json_error outputs entry) = Some current
  \/ lookup k (scan_entry json_loads json_error outputs entry)
     = Some (merge current (offered json_loads json_error k entry)).
Proof.
  intros L. unfold scan_entry, offered.
  destruct (state_delta_of entry) as [sd|]; [|now left].
  now apply store_each_bound.
Qed.

Lemma output_keys_nodup : NoDup OUTPUT_KEYS.
Proof.
  unfold OUTPUT_KEYS.
  repeat (constructor; [simpl; intuition discriminate |]).
  constructor.
Qed.

Lemma scan_entry_reach (outputs : dict) (entry : pyval) (k : string) (current : pyval) :
  map fst outputs = OUTPUT_KEYS ->
  In k OUTPUT_KEYS ->
  lookup k outputs = Some current ->
  abandoned_before json_loads json_error k entry = false ->
  lookup k (scan_entry json_loads json_error outputs entry)
  = Some (merge current (offered json_loads json_error k entry)).
Proof.
  intros K I L. unfold scan_entry, offered, abandoned_before.
  destruct (state_delta_of entry) as [sd|].
  - intros G. rewrite K. apply store_each_reach; auto using output_keys_nodup.
  - intros _. now rewrite merge_none.
Qed.

Lemma scan_entry_ext (outputs : dict) (e1 e2 : pyval) :
  map fst outputs = OUTPUT_KEYS ->
  same_registry_values e1 e2 ->
  scan_entry json_loads json_error outputs e1
  = scan_entry json_loads json_error outputs e2.
Proof.
  intros K H. unfold same_registry_values, raw_at in H. unfold scan_entry.
  rewrite K.
  destruct (state_delta_of e1) as [sd1|], (state_delta_of e2) as [sd2|].
  - now apply store_each_ext.
  - now apply store_each_absent.
  - symmetry. apply store_each_absent. intros k Hk. symmetry. now apply H.
  - reflexivity.
Qed.

Lemma scan_entry_kept (outputs : dict) (entry : pyval) (k : string) (current : pyval) :
  lookup k outputs = Some current ->
  is_None current = false ->
  lookup k (scan_entry json_loads json_error outputs entry) = Some current.
Proof.
  intros L N.
  destruct (scan_entry_bound outputs entry k current L) as [R|R]; rewrite R; auto.
  now rewrite merge_kept.
Qed.

Lemma merge_first_resolved (current v : pyval) (vs : list pyval) :
  merge (merge current v) (first_resolved vs)
  = merge current (first_resolved (v :: vs)).
Proof. unfold merge; simpl. destruct current, v; reflexivity. Qed.

(** The loop over the response, from any state that holds the registry:
    it never raises and is the scan of its entries in turn. *)
Lemma outputs_loop_spec (response_data : list pyval) (outputs : dict) :
  map fst outputs = OUTPUT_KEYS ->
  for_each response_data (outputs_entry json_loads json_error) outputs
  = (fold_left (scan_entry json_loads json_error) response_data outputs, Ok tt)
  /\ map fst (fold_left (scan_entry json_loads json_error) response_data outputs)
     = OUTPUT_KEYS.
Proof.
  revert outputs; induction response_data as [|entry rest IH]; intros outputs K.
  - now split.
  - simpl for_each. unfold mbind. rewrite outputs_entry_spec.
    + simpl fold_left. apply IH. now rewrite scan_entry_keys.
    + rewrite K. apply output_keys_nodup.
Qed.

Lemma scan_keys (response_data : list pyval) (outputs : dict) :
  map fst (fold_left (scan_entry json_loads json_error) response_data outputs)
  = map fst outputs.
Proof.
  revert outputs; induction response_data as [|entry rest IH]; intros outputs; simpl.
  - reflexivity.
  - now rewrite IH, scan_entry_keys.
Qed.

(** A value other than [None] stays where it is to the end of the scan. *)
Lemma scan_kept (response_data : list pyval) (outputs : dict)
      (k : string) (current : pyval) :
  lookup k outputs = Some current ->
  is_None current = false ->
  lookup k (fold_left (scan_entry json_loads json_error) response_data outputs)
  = Some current.
Proof.
  revert outputs; induction response_data as [|entry rest IH]; intros outputs L N; simpl.
  - exact L.
  - apply IH; [|exact N]. now apply scan_entry_kept.
Qed.

(** What a key holds at the end of the scan is what it held at the start
    or what an entry had to store for it. *)
Lemma scan_bound (response_data : list pyval) (outputs : dict)
      (k : string) (current : pyval) :
  lookup k outputs = Some current ->
  lookup k (fold_left (scan_entry json_loads json_error) response_data outputs)
  = Some current
  \/ exists entry,
       In entry response_data
       /\ lookup k (fold_left (scan_entry json_loads json_error) response_data outputs)
          = Some (offered json_loads json_error k entry).
Proof.
  revert outputs current; induction response_data as [|entry rest IH];
    intros outputs current L; simpl.
  - now left.
  - destruct (scan_entry_bound outputs entry k current L) as [R|R].
    + destruct (IH _ _ R) as [F|(e & I & F)]; [now left | right].
      exists e; split; [now right | exact F].
    + unfold merge in R. destruct (is_None current) eqn:E.
      * destruct (IH _ _ R) as [F|(e & I & F)]; right.
        -- exists entry; split; [now left | exact F].
        -- exists e; split; [now right | exact F].
      * destruct (IH _ _ R) as [F|(e & I & F)]; [now left | right].
        exists e; split; [now right | exact F].
Qed.

Lemma scan_none (response_data : list pyval) (outputs : dict) (k : string) :
  lookup k outputs = Some PNone ->
  Forall (fun x => offered json_loads json_error k x = PNone) response_data ->
  lookup k (fold_left (scan_entry json_loads json_error) response_data outputs)
  = Some PNone.
Proof.
  intros L F.
  destruct (scan_bound response_data outputs k PNone L) as [R|(e & I & R)]; [exact R |].
  rewrite R. f_equal. rewrite Forall_forall in F. now apply F.
Qed.

(** Where no entry can be left before the scan comes to the key, the key
    holds the first value stored for it that is not [None]. *)
Lemma scan_reach (response_data : list pyval) (outputs : dict)
      (k : string) (current : pyval) :
  map fst outputs = OUTPUT_KEYS ->
  In k OUTPUT_KEYS ->
  lookup k outputs = Some current ->
  Forall (fun x => abandoned_before json_loads json_error k x = false) response_data ->
  lookup k (fold_left (scan_entry json_loads json_error) response_data outputs)
  = Some (merge current
            (first_resolved (map (offered json_loads json_error k) response_data))).
Proof.
  intros K I L F. revert outputs current K L.
  induction F as [|entry rest G _ IH]; intros outputs current K L; simpl fold_left.
  - simpl. now rewrite merge_none.
  - rewrite (IH (scan_entry json_loads json_error outputs entry)
               (merge current (offered json_loads json_error k entry))).
    + simpl map. now rewrite merge_first_resolved.
    + now rewrite scan_entry_keys.
    + now apply scan_entry_reach.
Qed.

(** The forward scan as a whole: its body returns [outputs] without
    raising, [outputs] is the scan of the entries in turn from the
    literal, and it holds exactly the registry. *)
Lemma all_outputs_spec (response_data : list pyval) :
  exists outputs,
    all_outputs_body json_loads json_error response_data [] = (outputs, Ok outputs)
    /\ extract_all_agent_outputs json_loads json_error response_data = Ok outputs
    /\ map fst outputs = OUTPUT_KEYS
    /\ outputs
       = fold_left (scan_entry json_loads json_error) response_data initial_outputs.
Proof.
  destruct (outputs_loop_spec response_data initial_outputs eq_refl) as [E K].
  assert (B : all_outputs_body json_loads json_error response_data []
              = (fold_left (scan_entry json_loads json_error) response_data
                   initial_outputs,
                 Ok (fold_left (scan_entry json_loads json_error) response_data
                       initial_outputs))).
  { unfold all_outputs_body, mbind, put, get. now rewrite E. }
  eexists; repeat split; [exact B | | exact K].
  unfold extract_all_agent_outputs, mtry. now rewrite B.
Qed.

End ScanFacts.

(** ** The summary, entry by entry *)

Module SummaryFacts.

Lemma plus_assoc (a b c : summary) : plus (plus a b) c = plus a (plus b c).
Proof.
  unfold plus; simpl. now rewrite !app_assoc, orb_assoc.
Qed.

Lemma plus_zero_r (s : summary) : plus s zero = s.
Proof.
  destruct s; unfold plus; simpl. now rewrite !app_nil_r, orb_false_r.
Qed.

Lemma additive_ret {A : Type} (a : A) : additive (mret a).
Proof. intros s; unfold mret; simpl. now rewrite plus_zero_r. Qed.

Lemma additive_lift {A : Type} (r : result A) : additive (lift r).
Proof. intros s; unfold lift; simpl. now rewrite plus_zero_r. Qed.

Lemma additive_modify (f : summary -> summary) :
  (forall s, f s = plus s (f zero)) -> additive (modify f).
Proof. intros H s; unfold modify; simpl. now rewrite H at 1. Qed.

Lemma additive_bind {A B : Type} (c : M summary A) (f : A -> M summary B) :
  additive c -> (forall a, additive (f a)) -> additive (mbind c f).
Proof.
  intros Hc Hf s. unfold mbind. rewrite (Hc s).
  destruct (c zero) as [d [a|e]]; simpl.
  - rewrite (Hf a (plus s d)), (Hf a d); simpl. now rewrite plus_assoc.
  - reflexivity.
Qed.

Lemma additive_mtry {A : Type} (c : M summary A) (h : exn -> M summary A) :
  additive c -> (forall e, additive (h e)) -> additive (mtry c h).
Proof.
  intros Hc Hh s. unfold mtry. rewrite (Hc s).
  destruct (c zero) as [d [a|e]]; simpl.
  - reflexivity.
  - rewrite (Hh e (plus s d)), (Hh e d); simpl. now rewrite plus_assoc.
Qed.

Lemma additive_for_each {A : Type} (xs : list A) (body : A -> M summary unit) :
  (forall x, additive (body x)) -> additive (for_each xs body).
Proof.
  intros H; induction xs as [|x xs IH]; simpl.
  - apply additive_ret.
  - apply additive_bind; auto.
Qed.

Ltac additive_steps :=
  repeat first
    [ apply additive_mtry | apply additive_bind | apply additive_for_each
    | apply additive_lift | apply additive_ret
    | apply additive_modify; intros []; unfold plus; simpl;
      now rewrite ?app_nil_r, ?orb_false_r, ?orb_true_r
    | match goal with
      | |- additive (if ?b then _ else _) => destruct b
      | |- forall _, _ => intro
      end ].

Lemma summary_entry_additive (ie : nat * pyval) : additive (summary_entry ie).
Proof.
  destruct ie as [i entry]. unfold summary_entry, summary_part.
  additive_steps.
Qed.

Lemma keeps_ret {A : Type} (a : A) : keeps_authors (mret a).
Proof. now intros s. Qed.

Lemma keeps_lift {A : Type} (r : result A) : keeps_authors (lift r).
Proof. now intros s. Qed.

Lemma keeps_modify (f : summary -> summary) :
  (forall s, total_entries (f s) = total_entries s /\ authors (f s) = authors s) ->
  keeps_authors (modify f).
Proof. intros H s; apply H. Qed.

Lemma keeps_bind {A B : Type} (c : M summary A) (f : A -> M summary B) :
  keeps_authors c -> (forall a, keeps_authors (f a)) -> keeps_authors (mbind c f).
Proof.
  intros Hc Hf s. unfold mbind. specialize (Hc s).
  destruct (c s) as [s' [a|e]]; simpl in *; [|assumption].
  destruct Hc as [H3 H4]. destruct (Hf a s') as [H1 H2]. split; congruence.
Qed.

Lemma keeps_for_each {A : Type} (xs : list A) (body : A -> M summary unit) :
  (forall x, keeps_authors (body x)) -> keeps_authors (for_each xs body).
Proof.
  intros H; induction xs as [|x xs IH]; simpl.
  - apply keeps_ret.
  - apply keeps_bind; auto.
Qed.

Ltac keeps_steps :=
  repeat first
    [ apply keeps_bind | apply keeps_for_each | apply keeps_lift
    | apply keeps_ret | apply keeps_modify; intros []; now simpl
    | match goal with
      | |- keeps_authors (if ?b then _ else _) => destruct b
      | |- forall _, _ => intro
      end ].

Lemma authors_after_append (r : result pyval) (rest : pyval -> M summary unit)
      (s : summary) :
  (forall a, keeps_authors (rest a)) ->
  authors (fst (mbind (lift r)
                  (fun a => mbind (modify (append_author a)) (fun _ => rest a)) s))
  = (authors s ++ match r with Ok a => [a] | Raise _ => [] end)%list.
Proof.
  intros K. destruct r as [a|e]; unfold mbind, lift, modify; simpl.
  - destruct (K a (append_author a s)) as [_ H].
    destruct (rest a (append_author a s)) as [s' [[]|e]]; simpl in *; exact H.
  - now rewrite app_nil_r.
Qed.

Lemma entry_summary_authors (i : nat) (entry : pyval) :
  authors (entry_summary (i, entry)) = entry_authors entry.
Proof.
  unfold entry_summary, summary_entry. rewrite mtry_continue. simpl fst.
  rewrite authors_after_append.
  - now destruct entry.
  - intros a. unfold summary_part. keeps_steps.
Qed.

Lemma entry_summary_not_dict (i : nat) (entry : pyval) :
  (forall e, entry <> PDict e) -> entry_summary (i, entry) = zero.
Proof.
  intros H. unfold entry_summary, summary_entry. rewrite mtry_continue.
  destruct entry as [| | | | | |e]; try reflexivity.
  now destruct (H e).
Qed.

Lemma summary_loop_spec (ies : list (nat * pyval)) (s : summary) :
  for_each ies summary_entry s
  = (fold_left plus (map entry_summary ies) s, Ok tt).
Proof.
  rewrite for_each_total.
  - f_equal. revert s; induction ies as [|ie ies IH]; intros s; simpl.
    + reflexivity.
    + rewrite (summary_entry_additive ie s). simpl. apply IH.
  - intros [i entry] s'. unfold summary_entry. now rewrite mtry_continue.
Qed.

Lemma summary_spec (response_data : list pyval) :
  summary_body response_data zero
  = (sum_entries (List.length response_data) (enumerate response_data),
     Ok (sum_entries (List.length response_data) (enumerate response_data)))
  /\ extract_conversation_summary response_data
     = Ok (Some (sum_entries (List.length response_data)
                   (enumerate response_data))).
Proof.
  assert (B : summary_body response_data zero
              = (sum_entries (List.length response_data) (enumerate response_data),
                 Ok (sum_entries (List.length response_data)
                       (enumerate response_data)))).
  { unfold summary_body, mbind, put, get. now rewrite summary_loop_spec. }
  split; [exact B |].
  unfold extract_conversation_summary, mtry, mbind.
  fold zero. now rewrite B.
Qed.

Lemma fold_plus_total (ds : list summary) (s : summary) :
  total_entries (fold_left plus ds s) = total_entries s.
Proof.
  revert s; induction ds as [|d ds IH]; intros s; simpl; [reflexivity |].
  now rewrite IH.
Qed.

Lemma fold_plus_authors (ds : list summary) (s : summary) :
  authors (fold_left plus ds s) = (authors s ++ flat_map authors ds)%list.
Proof.
  revert s; induction ds as [|d ds IH]; intros s; simpl.
  - now rewrite app_nil_r.
  - rewrite IH. simpl. now rewrite app_assoc.
Qed.

Lemma fold_plus_calls (ds : list summary) (s : summary) :
  agent_calls (fold_left plus ds s)
  = (agent_calls s ++ flat_map agent_calls ds)%list.
Proof.
  revert s; induction ds as [|d ds IH]; intros s; simpl.
  - now rewrite app_nil_r.
  - rewrite IH. simpl. now rewrite app_assoc.
Qed.

Lemma fold_plus_final (ds : list summary) (s : summary) :
  final_output_found (fold_left plus ds s)
  = final_output_found s || existsb final_output_found ds.
Proof.
  revert s; induction ds as [|d ds IH]; intros s; simpl.
  - now rewrite orb_false_r.
  - rewrite IH. simpl. now rewrite orb_assoc.
Qed.

Lemma sum_entries_authors (entries : list pyval) (start : nat) :
  flat_map authors
    (map entry_summary (combine (seq start (List.length entries)) entries))
  = flat_map entry_authors entries.
Proof.
  revert start; induction entries as [|e l IH]; intros start; simpl.
  - reflexivity.
  - now rewrite entry_summary_authors, IH.
Qed.

End SummaryFacts.
Import SummaryFacts.

(** ** Traces *)

Section TraceFacts.

Variable json_loads : string -> option pyval.
Variable json_error : string -> exn.

Lemma coordinator_output_offered (entry v : pyval) :
  coordinator_output json_loads entry = Some v ->
  offered json_loads json_error "financial_coordinator_output" entry = v.
Proof.
  unfold coordinator_output, coordinator_raw, offered, offered_in, fenced_decode,
    abandons, stored_value.
  destruct (has_coordinator_author entry); [|discriminate].
  destruct (state_delta_of entry) as [sd|]; [|discriminate].
  destruct (lookup "financial_coordinator_output" sd) as [raw|]; [|discriminate].
  destruct raw as [| | | |text| |]; try discriminate.
  destruct (re_search text) as [g|]; [|discriminate].
  intros ->. reflexivity.
Qed.

Lemma coordinator_raw_none_output (entry : pyval) :
  coordinator_raw entry = None -> coordinator_output json_loads entry = None.
Proof. unfold coordinator_output. now intros ->. Qed.

Lemma first_output_drop (before after : list pyval) (skipped : pyval) :
  coordinator_output json_loads skipped = None ->
  first_output json_loads (before ++ skipped :: after)%list
  = first_output json_loads (before ++ after)%list.
Proof.
  intros H; induction before as [|e l IH]; simpl.
  - now rewrite H.
  - now rewrite IH.
Qed.

(** The reversed scan on a trace split around one of its entries. *)
Lemma extract_coordinator_at (pre post : list pyval) (entry v : pyval) :
  coordinator_output json_loads entry = Some v ->
  Forall (fun x => coordinator_output json_loads x = None) post ->
  extract_financial_coordinator_output json_loads json_error (pre ++ entry :: post)%list
  = Ok v.
Proof.
  intros H F. rewrite extract_coordinator_spec.
  rewrite rev_app_distr. simpl rev. rewrite <- app_assoc.
  rewrite first_output_skip by now apply Forall_rev.
  simpl. now rewrite H.
Qed.

Lemma extract_coordinator_none (trace : list pyval) :
  Forall (fun x => coordinator_output json_loads x = None) trace ->
  extract_financial_coordinator_output json_loads json_error trace = Ok PNone.
Proof.
  intros F. rewrite extract_coordinator_spec.
  rewrite <- (app_nil_r (rev trace)).
  rewrite first_output_skip by now apply Forall_rev.
  reflexivity.
Qed.

Lemma extract_coordinator_drop (pre post : list pyval) (skipped : pyval) :
  coordinator_output json_loads skipped = None ->
  extract_financial_coordinator_output json_loads json_error (pre ++ skipped :: post)%list
  = extract_financial_coordinator_output json_loads json_error (pre ++ post)%list.
Proof.
  intros H. rewrite !extract_coordinator_spec.
  rewrite !rev_app_distr. simpl rev. rewrite <- app_assoc. simpl.
  now rewrite first_output_drop.
Qed.

(** The entry whose output the reversed scan returns, and the entries it
    passed over before it. *)
Lemma first_output_split (entries : list pyval) :
  first_output json_loads entries <> PNone ->
  exists before entry after,
    entries = (before ++ entry :: after)%list
    /\ Forall (fun x => coordinator_output json_loads x = None) before
    /\ coordinator_output json_loads entry = Some (first_output json_loads entries).
Proof.
  induction entries as [|e l IH]; simpl; [congruence |].
  destruct (coordinator_output json_loads e) as [v|] eqn:E.
  - intros _. exists [], e, l. auto.
  - intros N. destruct (IH N) as (a & x & b & -> & F & O).
    exists (e :: a), x, b. repeat split; auto.
Qed.

(** The forward scan on a trace split around an entry that stores a
    value for the key: no entry before it has one to store, and the scan
    of the entry comes to the key. *)
Lemma extract_all_at (pre post : list pyval) (entry : pyval) (key : string) :
  In key OUTPUT_KEYS ->
  Forall (fun x => offered json_loads json_error key x = PNone) pre ->
  abandoned_before json_loads json_error key entry = false ->
  offered json_loads json_error key entry <> PNone ->
  exists outputs,
    extract_all_agent_outputs json_loads json_error (pre ++ entry :: post)%list
    = Ok outputs
    /\ lookup key outputs = Some (offered json_loads json_error key entry).
Proof.
  intros I F G N.
  destruct (all_outputs_spec json_loads json_error (pre ++ entry :: post)%list)
    as (o & _ & E & _ & ->).
  eexists; split; [exact E |].
  rewrite fold_left_app. simpl fold_left.
  apply scan_kept; [|now apply is_None_false].
  rewrite (scan_entry_reach json_loads json_error _ entry key PNone); auto.
  - now rewrite scan_keys.
  - apply scan_none; [now apply lookup_initial_outputs | exact F].
Qed.

(** Two traces that hold, entry by entry, the same raw values under the
    keys of the registry have the same outputs. *)
Lemma extract_all_same (t1 t2 : list pyval) :
  Forall2 same_registry_values t1 t2 ->
  extract_all_agent_outputs json_loads json_error t1
  = extract_all_agent_outputs json_loads json_error t2.
Proof.
  intros F.
  destruct (all_outputs_spec json_loads json_error t1) as (o1 & _ & E1 & _ & ->).
  destruct (all_outputs_spec json_loads json_error t2) as (o2 & _ & E2 & _ & ->).
  rewrite E1, E2. f_equal. clear E1 E2.
  assert (K : map fst initial_outputs = OUTPUT_KEYS) by reflexivity.
  revert K. generalize initial_outputs.
  induction F as [|e1 e2 l1 l2 He _ IH]; intros o K; simpl; [reflexivity |].
  rewrite (scan_entry_ext json_loads json_error o e1 e2 K He).
  apply IH. now rewrite scan_entry_keys.
Qed.

Lemma scan_entry_no_delta (outputs : dict) (entry : pyval) :
  state_delta_of entry = None ->
  scan_entry json_loads json_error outputs entry = outputs.
Proof. unfold scan_entry. now intros ->. Qed.

Lemma coordinator_output_no_delta (entry : pyval) :
  state_delta_of entry = None -> coordinator_output json_loads entry = None.
Proof.
  intros H. unfold coordinator_output, coordinator_raw. rewrite H.
  now destruct (has_coordinator_author entry).
Qed.

Lemma coordinator_output_other_author (entry : pyval) :
  has_coordinator_author entry = false ->
  coordinator_output json_loads entry = None.
Proof.
  intros H. unfold coordinator_output, coordinator_raw. now rewrite H.
Qed.

Lemma extract_all_drop (pre post : list pyval) (skipped : pyval) :
  state_delta_of skipped = None ->
  extract_all_agent_outputs json_loads json_error (pre ++ skipped :: post)%list
  = extract_all_agent_outputs json_loads json_error (pre ++ post)%list.
Proof.
  intros H.
  destruct (all_outputs_spec json_loads json_error (pre ++ skipped :: post)%list)
    as (o1 & _ & E1 & _ & ->).
  destruct (all_outputs_spec json_loads json_error (pre ++ post)%list)
    as (o2 & _ & E2 & _ & ->).
  rewrite E1, E2, !fold_left_app. simpl fold_left.
  now rewrite scan_entry_no_delta.
Qed.

End TraceFacts.

(** * The specification, statement by statement *)

Ltac in_registry := unfold OUTPUT_KEYS; simpl; tauto.

Section Claims.

Variable json_loads : string -> option pyval.
Variable json_error : string -> exn.

(** C1 (as amended).  The reversed scan returns the decoded value of the
    most recent entry that is a matching entry (author the coordinator,
    the output key in its state delta) AND whose value decodes (a text
    with a fenced block that parses): matching entries whose value does
    not decode are passed over and the scan goes on to earlier entries.
    That value is [None] itself when the block holds the JSON value null.
    When no entry decodes the result is [None]; a result other than
    [None] is always the decoded value of the most recent entry that
    decodes. *)
Theorem C1_most_recent_decodable_output (trace : list pyval) :
  (forall pre entry post v,
      trace = (pre ++ entry :: post)%list ->
      coordinator_output json_loads entry = Some v ->
      Forall (fun x => coordinator_output json_loads x = None) post ->
      extract_financial_coordinator_output json_loads json_error trace = Ok v)
  /\ (Forall (fun x => coordinator_output json_loads x = None) trace ->
      extract_financial_coordinator_output json_loads json_error trace = Ok PNone)
  /\ (forall v,
        extract_financial_coordinator_output json_loads json_error trace = Ok v ->
        v <> PNone ->
        exists pre entry post,
          trace = (pre ++ entry :: post)%list
          /\ coordinator_output json_loads entry = Some v
          /\ Forall (fun x => coordinator_output json_loads x = None) post).
Proof.
  repeat split.
  - intros pre entry post v -> H F. now apply extract_coordinator_at.
  - apply extract_coordinator_none.
  - intros v E N. rewrite extract_coordinator_spec in E. injection E as E.
    destruct (first_output_split json_loads (rev trace)) as (a & e & b & R & F & O).
    { now rewrite E. }
    exists (rev b), e, (rev a). repeat split.
    + rewrite <- (rev_involutive trace), R, rev_app_distr. simpl.
      now rewrite <- app_assoc.
    + now rewrite O, E.
    + now apply Forall_rev.
Qed.

(** C2 (as amended).  The fenced block pattern matches from the first
    opening marker of the text (followed by white space and a newline) to
    the LAST closing marker of the text: whatever lies between them, other
    fence markers included, is the payload that is stripped and parsed. *)
Theorem C2_fence_match_runs_to_last_closing_marker
        (pre ws payload tail : string) :
  occurs opening (pre ++ "```jso") = false ->
  all_space ws = true ->
  occurs closing tail = false ->
  (exists group1,
      re_search (pre ++ opening ++ ws ++ nl ++ payload ++ closing ++ tail)
      = Some group1
      /\ strip group1 = strip payload)
  /\ fenced_decode json_loads
       (PStr (pre ++ opening ++ ws ++ nl ++ payload ++ closing ++ tail))
     = json_loads (strip payload).
Proof.
  intros Hpre Hws Htail.
  destruct (ws_then_body_complete ws (payload ++ closing ++ tail) payload Hws
              (body_last payload tail Htail)) as (g & u & E & Hu & P).
  assert (S : re_search (pre ++ opening ++ ws ++ nl ++ payload ++ closing ++ tail)
              = Some g).
  { rewrite re_search_skip by assumption.
    assert (M : match_here (opening ++ ws ++ nl ++ payload ++ closing ++ tail)
                = Some g).
    { unfold match_here. now rewrite strip_prefix_app. }
    change (opening ++ ws ++ nl ++ payload ++ closing ++ tail)
      with (String "`" ("``json" ++ ws ++ nl ++ payload ++ closing ++ tail)) in *.
    rewrite re_search_cons. now rewrite M. }
  assert (T : strip g = strip payload).
  { rewrite P. symmetry. now apply strip_space_app. }
  split.
  - exists g; auto.
  - unfold fenced_decode. now rewrite S, T.
Qed.

(** C3 (as amended).  In the forward scan a key that holds a value
    other than [None] is never written again: a value other than [None]
    that the scan returns for a beginning of the trace is the value it
    returns for the whole trace, and the value returned for a registered
    key is the one stored by the first entry, in the order of the trace,
    that stores a value other than [None] for it.  An entry stores its
    value for the key when the scan of the entry comes to the key, that is
    when no key before it in the registry holds, in the same state delta,
    a fenced block on which [json.loads] raises something else than
    [JSONDecodeError].  A key that holds a decoded null holds [None], and
    is written again. *)
Theorem C3_first_resolution_is_kept (key : string) (v : pyval) :
  In key OUTPUT_KEYS ->
  v <> PNone ->
  (forall first rest outputs,
      extract_all_agent_outputs json_loads json_error first = Ok outputs ->
      lookup key outputs = Some v ->
      exists outputs',
        extract_all_agent_outputs json_loads json_error (first ++ rest)%list
        = Ok outputs'
        /\ lookup key outputs' = Some v)
  /\ (forall pre entry post,
        Forall (fun x => offered json_loads json_error key x = PNone) pre ->
        abandoned_before json_loads json_error key entry = false ->
        offered json_loads json_error key entry = v ->
        exists outputs,
          extract_all_agent_outputs json_loads json_error (pre ++ entry :: post)%list
          = Ok outputs
          /\ lookup key outputs = Some v)
  /\ (forall outputs later,
         map fst outputs = OUTPUT_KEYS ->
         lookup key outputs = Some v ->
         lookup key (fst (for_each later (outputs_entry json_loads json_error) outputs))
         = Some v).
Proof.
  intros I N. repeat split.
  - intros first rest outputs E L.
    destruct (all_outputs_spec json_loads json_error first) as (o1 & _ & E1 & _ & O1).
    destruct (all_outputs_spec json_loads json_error (first ++ rest)%list)
      as (o2 & _ & E2 & _ & O2).
    rewrite E1 in E. injection E as <-.
    exists o2. split; [exact E2 |].
    rewrite O2, fold_left_app, <- O1.
    apply scan_kept; [exact L | now apply is_None_false].
  - intros pre entry post F G <-. now apply extract_all_at.
  - intros outputs later K L.
    destruct (outputs_loop_spec json_loads json_error later outputs K) as [E _].
    rewrite E. simpl. apply scan_kept; [exact L | now apply is_None_false].
Qed.

(** C4 (as amended).  When exactly two entries of the trace are matching
    entries and the value of each decodes, the reversed scan returns the
    decoded value of the later one; the forward scan returns the decoded
    value of the earlier one provided that value is not [None], no entry
    before it, whoever its author, has a value to store for the key, and
    the scan of the earlier entry comes to the key. *)
Theorem C4_later_for_one_scan_earlier_for_the_other
        (a b c : list pyval) (e1 e2 v1 v2 : pyval) :
  coordinator_output json_loads e1 = Some v1 ->
  coordinator_output json_loads e2 = Some v2 ->
  Forall (fun x => coordinator_raw x = None) (a ++ b ++ c)%list ->
  Forall (fun x => offered json_loads json_error "financial_coordinator_output" x
                   = PNone) a ->
  abandoned_before json_loads json_error "financial_coordinator_output" e1 = false ->
  v1 <> PNone ->
  extract_financial_coordinator_output json_loads json_error
    (a ++ e1 :: b ++ e2 :: c)%list = Ok v2
  /\ exists outputs,
       extract_all_agent_outputs json_loads json_error (a ++ e1 :: b ++ e2 :: c)%list
       = Ok outputs
       /\ lookup "financial_coordinator_output" outputs = Some v1.
Proof.
  intros H1 H2 Fo Fa G N. split.
  - replace (a ++ e1 :: b ++ e2 :: c)%list with ((a ++ e1 :: b) ++ e2 :: c)%list
      by (rewrite <- app_assoc; reflexivity).
    apply extract_coordinator_at; [assumption |].
    apply Forall_app in Fo as [_ Fo]. apply Forall_app in Fo as [_ Fo].
    eapply Forall_impl; [|exact Fo].
    intros x. apply coordinator_raw_none_output.
  - pose proof (coordinator_output_offered json_loads json_error e1 v1 H1) as O.
    destruct (extract_all_at json_loads json_error a (b ++ e2 :: c)%list e1
                "financial_coordinator_output") as (o & E & L).
    + in_registry.
    + assumption.
    + assumption.
    + now rewrite O.
    + exists o. split; [exact E | now rewrite L, O].
Qed.

(** C5.  For every list the forward scan returns, from the body of its
    outer [try] and so never from the handler, a dictionary whose keys are
    exactly the keys of the registry; a key no entry offers a value for
    holds [None]. *)
Theorem C5_outputs_hold_every_registry_key (trace : list pyval) :
  exists outputs,
    all_outputs_body json_loads json_error trace [] = (outputs, Ok outputs)
    /\ extract_all_agent_outputs json_loads json_error trace = Ok outputs
    /\ map fst outputs = OUTPUT_KEYS
    /\ forall key,
         In key OUTPUT_KEYS ->
         Forall (fun x => offered json_loads json_error key x = PNone) trace ->
         lookup key outputs = Some PNone.
Proof.
  destruct (all_outputs_spec json_loads json_error trace) as (o & B & E & K & O).
  exists o; repeat split; auto.
  intros key I F. rewrite O.
  apply scan_none; [now apply lookup_initial_outputs | exact F].
Qed.

(** C6 (as amended).  An entry holds under a registered key a text that
    does not decode: it has no fence marker at all, or it has a fenced
    block on which [json.loads] raises.  If the entry is the only matching
    entry of the trace, the reversed scan returns [None].  The forward
    scan stores the text itself, unchanged, when the exception is a
    [JSONDecodeError] (the text is not one the scan gives up on), no
    earlier entry has a value to store for the key, and the scan of the
    entry comes to the key. *)
Theorem C6_text_that_does_not_decode
        (pre post : list pyval) (entry : pyval) (key text : string) :
  In key OUTPUT_KEYS ->
  raw_at key entry = Some (PStr text) ->
  (occurs "```" text = false
   \/ exists group1, re_search text = Some group1
                     /\ json_loads (strip group1) = None) ->
  (key = "financial_coordinator_output" ->
   Forall (fun x => coordinator_raw x = None) (pre ++ post)%list ->
   extract_financial_coordinator_output json_loads json_error
     (pre ++ entry :: post)%list
   = Ok PNone)
  /\ (abandons json_loads json_error (PStr text) = false ->
      abandoned_before json_loads json_error key entry = false ->
      Forall (fun x => offered json_loads json_error key x = PNone) pre ->
      exists outputs,
        extract_all_agent_outputs json_loads json_error (pre ++ entry :: post)%list
        = Ok outputs
        /\ lookup key outputs = Some (PStr text)).
Proof.
  intros I R D.
  assert (Dec : fenced_decode json_loads (PStr text) = None).
  { unfold fenced_decode. destruct D as [D|(g & D1 & D2)].
    - now rewrite (re_search_no_fence text D).
    - now rewrite D1. }
  split.
  - intros -> F.
    apply extract_coordinator_none.
    apply Forall_app in F as [F1 F2].
    apply Forall_app; split; [|constructor].
    + eapply Forall_impl; [|exact F1]. intros x. apply coordinator_raw_none_output.
    + unfold coordinator_output, coordinator_raw. unfold raw_at in R.
      destruct (has_coordinator_author entry); [|reflexivity].
      destruct (state_delta_of entry) as [sd|]; [|reflexivity].
      now rewrite R.
    + eapply Forall_impl; [|exact F2]. intros x. apply coordinator_raw_none_output.
  - intros A G F.
    assert (St : offered json_loads json_error key entry = PStr text).
    { unfold offered, offered_in. unfold raw_at in R.
      destruct (state_delta_of entry) as [sd|]; [|discriminate].
      rewrite R, A. unfold stored_value. unfold fenced_decode in Dec.
      destruct (re_search text) as [g|]; [|reflexivity].
      now rewrite Dec. }
    destruct (extract_all_at json_loads json_error pre post entry key I F G)
      as (o & E & L).
    + rewrite St. discriminate.
    + exists o. split; [exact E | now rewrite L, St].
Qed.

(** C7 (what the code does).  A matching entry whose value is not text:
    the reversed scan raises on it inside its inner [try] and passes it
    over, so with no other entry that decodes it returns [None] and not
    the value; the forward scan stores the value as it is when no earlier
    entry has a value to store for the key and the scan of the entry
    comes to the key. *)
Theorem C7_value_that_is_not_text
        (pre post : list pyval) (entry raw : pyval) :
  coordinator_raw entry = Some raw ->
  (forall text, raw <> PStr text) ->
  raw <> PNone ->
  (Forall (fun x => coordinator_output json_loads x = None) (pre ++ post)%list ->
   extract_financial_coordinator_output json_loads json_error
     (pre ++ entry :: post)%list
   = Ok PNone)
  /\ (abandoned_before json_loads json_error "financial_coordinator_output" entry
      = false ->
      Forall (fun x => offered json_loads json_error "financial_coordinator_output" x
                       = PNone) pre ->
      exists outputs,
        extract_all_agent_outputs json_loads json_error (pre ++ entry :: post)%list
        = Ok outputs
        /\ lookup "financial_coordinator_output" outputs = Some raw).
Proof.
  intros R T N.
  assert (Dec : coordinator_output json_loads entry = None).
  { unfold coordinator_output. rewrite R. unfold fenced_decode.
    destruct raw as [| | | |text| |]; try reflexivity. now destruct (T text). }
  assert (St : offered json_loads json_error "financial_coordinator_output" entry
               = raw).
  { unfold offered, offered_in. unfold coordinator_raw in R.
    destruct (has_coordinator_author entry); [|discriminate].
    destruct (state_delta_of entry) as [sd|]; [|discriminate].
    rewrite R. unfold abandons, stored_value.
    destruct raw as [| | | |text| |]; try reflexivity. now destruct (T text). }
  split.
  - intros F. apply extract_coordinator_none.
    apply Forall_app in F as [F1 F2].
    apply Forall_app; split; [assumption | now constructor].
  - intros G F.
    destruct (extract_all_at json_loads json_error pre post entry
                "financial_coordinator_output") as (o & E & L).
    + in_registry.
    + assumption.
    + assumption.
    + now rewrite St.
    + exists o. split; [exact E | now rewrite L, St].
Qed.

(** C8.  None of the three scans raises, whatever the list.  An entry
    without a state delta that is a dictionary inside actions that are a
    dictionary (the entry is not a dictionary, a field is missing or has
    another shape) changes nothing in the result of the two extractions,
    and neither does, for the reversed scan, an entry without the
    coordinator as author; the summary is the sum of the summaries of the
    entries, each taken alone, and an entry that is not a dictionary adds
    nothing to it. *)
Theorem C8_scans_never_raise_and_skip_malformed_entries (trace : list pyval) :
  ((exists v, extract_financial_coordinator_output json_loads json_error trace = Ok v)
   /\ (exists outputs, extract_all_agent_outputs json_loads json_error trace = Ok outputs)
   /\ extract_conversation_summary trace
      = Ok (Some (sum_entries (List.length trace) (enumerate trace))))
  /\ forall pre bad post,
       trace = (pre ++ bad :: post)%list ->
       (state_delta_of bad = None \/ has_coordinator_author bad = false ->
        extract_financial_coordinator_output json_loads json_error trace
        = extract_financial_coordinator_output json_loads json_error (pre ++ post)%list)
       /\ (state_delta_of bad = None ->
           extract_all_agent_outputs json_loads json_error trace
           = extract_all_agent_outputs json_loads json_error (pre ++ post)%list)
       /\ (is_mapping bad = false ->
           entry_summary (List.length pre, bad) = zero).
Proof.
  split; [repeat split |].
  - eexists. apply extract_coordinator_spec.
  - destruct (all_outputs_spec json_loads json_error trace) as (o & _ & E & _).
    now exists o.
  - apply summary_spec.
  - intros pre bad post ->. repeat split.
    + intros [H|H]; apply extract_coordinator_drop.
      * now apply coordinator_output_no_delta.
      * now apply coordinator_output_other_author.
    + intros H. now apply extract_all_drop.
    + intros H. apply entry_summary_not_dict.
      intros e ->. discriminate.
Qed.

(** C9 (as amended).  For every trace the summary counts the elements
    of the trace, and lists, in order and with repetitions, one author per
    element that is a dictionary: the author field of the entry, or
    "unknown" when the entry has none.  An element that is not a
    dictionary is counted and adds no author; so when every element is a
    dictionary the list has one author per entry and is as long as the
    count. *)
Theorem C9_one_author_per_mapping_entry (trace : list pyval) :
  exists s,
    extract_conversation_summary trace = Ok (Some s)
    /\ total_entries s = List.length trace
    /\ authors s = flat_map entry_authors trace
    /\ (Forall (fun x => is_mapping x = true) trace ->
        authors s = map author_or_unknown trace
        /\ List.length (authors s) = total_entries s).
Proof.
  destruct (summary_spec trace) as [_ E].
  eexists; split; [exact E |].
  assert (T : total_entries (sum_entries (List.length trace) (enumerate trace))
              = List.length trace).
  { unfold sum_entries. now rewrite fold_plus_total. }
  assert (A : authors (sum_entries (List.length trace) (enumerate trace))
              = flat_map entry_authors trace).
  { unfold sum_entries, enumerate. rewrite fold_plus_authors. simpl.
    apply sum_entries_authors. }
  split; [exact T | split; [exact A | intros F; split]].
  - rewrite A. clear -F.
    induction F as [|x l Hx _ IH]; simpl; [reflexivity |].
    rewrite IH. destruct x; try discriminate. reflexivity.
  - rewrite A, T. clear -F.
    induction F as [|x l Hx _ IH]; simpl; [reflexivity |].
    destruct x; try discriminate. simpl. now rewrite IH.
Qed.

(** C10.  The forward scan takes the response only; the keys of the
    dictionary it returns are the five keys of its literal, and the result
    depends on the entries only through the raw values their state deltas
    hold under these five keys: two traces that agree on them, entry by
    entry, have the same result whatever else their state deltas hold. *)
Theorem C10_only_the_registry_keys_are_read (t1 t2 : list pyval) :
  Forall2 same_registry_values t1 t2 ->
  exists outputs,
    extract_all_agent_outputs json_loads json_error t1 = Ok outputs
    /\ extract_all_agent_outputs json_loads json_error t2 = Ok outputs
    /\ map fst outputs
       = [ "data_analyst_output"; "trading_analyst_output";
           "risk_analyst_output"; "execution_analyst_output";
           "financial_coordinator_output" ].
Proof.
  intros F.
  destruct (all_outputs_spec json_loads json_error t1) as (o & _ & E & K & _).
  exists o; repeat split; auto.
  rewrite <- E. symmetry. now apply extract_all_same.
Qed.

End Claims.

(** * The statements on concrete traces *)

Import Samples.

(** C1, a run of the amended statement: the most recent matching entry
    holds plain text, and the scan returns the output of the entry before
    it. *)
Lemma C1_most_recent_decodable_output_run :
  extract_financial_coordinator_output json_loads_ref json_error_ref
    ([coordinator_event (PStr (fenced (score "7")))]
       ++ coordinator_event (PStr (fenced (score "42")))
       :: [coordinator_event (PStr "no fence here")])%list
  = Ok (score_value 42)
  /\ extract_financial_coordinator_output json_loads_ref json_error_ref
       [coordinator_event (PStr "no fence here")]
     = Ok PNone.
Proof.
  split.
  - apply (proj1 (C1_most_recent_decodable_output json_loads_ref json_error_ref _)
             [coordinator_event (PStr (fenced (score "7")))]
             (coordinator_event (PStr (fenced (score "42"))))
             [coordinator_event (PStr "no fence here")]
             (score_value 42) eq_refl).
    + reflexivity.
    + repeat constructor.
  - apply (proj1 (proj2 (C1_most_recent_decodable_output
                           json_loads_ref json_error_ref _))).
    repeat constructor.
Defined.

(** C1 as stated fails: the most recent matching entry holds a text with
    no fenced block, so its decode fails, and the scan still returns the
    decoded value of the earlier matching entry instead of [None]. *)
Lemma C1_scan_falls_back_to_earlier_entry :
  coordinator_raw (coordinator_event (PStr "no fence here"))
  = Some (PStr "no fence here")
  /\ fenced_decode json_loads_ref (PStr "no fence here") = None
  /\ extract_financial_coordinator_output json_loads_ref json_error_ref
       [ coordinator_event (PStr (fenced (score "7")));
         coordinator_event (PStr "no fence here") ]
     = Ok (score_value 7).
Proof. repeat split; reflexivity. Qed.

(** C2, a run of the amended statement: after a sentence, two fenced
    blocks and a closing remark; the payload runs from the first block
    through the second one. *)
Lemma C2_fence_match_runs_to_last_closing_marker_run :
  (exists group1,
      re_search ("Here it is: " ++ opening ++ " " ++ nl
                 ++ (score "1" ++ closing ++ nl ++ fenced (score "2"))
                 ++ closing ++ " done")
      = Some group1
      /\ strip group1 = strip (score "1" ++ closing ++ nl ++ fenced (score "2")))
  /\ fenced_decode json_loads_ref
       (PStr ("Here it is: " ++ opening ++ " " ++ nl
              ++ (score "1" ++ closing ++ nl ++ fenced (score "2"))
              ++ closing ++ " done"))
     = json_loads_ref (strip (score "1" ++ closing ++ nl ++ fenced (score "2"))).
Proof.
  apply (C2_fence_match_runs_to_last_closing_marker json_loads_ref
           "Here it is: " " "
           (score "1" ++ closing ++ nl ++ fenced (score "2")) " done");
    reflexivity.
Defined.

(** C2 as stated fails: on a text with two fenced blocks, group 1 is not
    the body of the first block (which is valid JSON) but everything up to
    the closing marker of the second block, and that does not parse. *)
Lemma C2_two_blocks_are_captured_together :
  re_search two_blocks
  = Some (score "1" ++ closing ++ nl ++ "and" ++ nl ++ opening ++ nl ++ score "2")
  /\ json_loads_ref (score "1") = Some (score_value 1)
  /\ fenced_decode json_loads_ref (PStr two_blocks) = None.
Proof. repeat split; reflexivity. Qed.

(** C3, a run of the amended statement: the second entry is the first to
    store a value for the key, and the third entry, which holds another
    one, does not replace it. *)
Lemma C3_first_resolution_is_kept_run :
  exists outputs,
    extract_all_agent_outputs json_loads_ref json_error_ref
      ([delta_event "data_analyst" "note" (PStr "working")]
         ++ delta_event "data_analyst" "data_analyst_output"
              (PStr (fenced (score "1")))
         :: [delta_event "data_analyst" "data_analyst_output"
               (PStr (fenced (score "2")))])%list
    = Ok outputs
    /\ lookup "data_analyst_output" outputs = Some (score_value 1).
Proof.
  apply (proj1 (proj2 (C3_first_resolution_is_kept json_loads_ref json_error_ref
                         "data_analyst_output" (score_value 1)
                         ltac:(in_registry) ltac:(discriminate)))
           [delta_event "data_analyst" "note" (PStr "working")]
           (delta_event "data_analyst" "data_analyst_output"
              (PStr (fenced (score "1"))))
           [delta_event "data_analyst" "data_analyst_output"
              (PStr (fenced (score "2")))]).
  - repeat constructor.
  - reflexivity.
  - reflexivity.
Defined.

(** C3 as stated fails: the first entry resolves the key, for its fenced
    block decodes, and the value stored for it is the decoded null, that
    is [None]; the entry after it writes the key again. *)
Lemma C3_stored_null_is_written_again :
  fenced_decode json_loads_ref (PStr (fenced "null")) = Some PNone
  /\ extract_all_agent_outputs json_loads_ref json_error_ref
       [ coordinator_event (PStr (fenced "null")) ]
     = Ok (no_outputs PNone)
  /\ extract_all_agent_outputs json_loads_ref json_error_ref
       [ coordinator_event (PStr (fenced "null"));
         coordinator_event (PStr (fenced (score "42"))) ]
     = Ok (no_outputs (score_value 42)).
Proof. repeat split; reflexivity. Qed.

(** C4, a run of the amended statement. *)
Lemma C4_later_for_one_scan_earlier_for_the_other_run :
  extract_financial_coordinator_output json_loads_ref json_error_ref
    ([delta_event "data_analyst" "data_analyst_output" (PInt 3)]
       ++ coordinator_event (PStr (fenced (score "7")))
       :: [] ++ coordinator_event (PStr (fenced (score "42"))) :: [])%list
  = Ok (score_value 42)
  /\ exists outputs,
       extract_all_agent_outputs json_loads_ref json_error_ref
         ([delta_event "data_analyst" "data_analyst_output" (PInt 3)]
            ++ coordinator_event (PStr (fenced (score "7")))
            :: [] ++ coordinator_event (PStr (fenced (score "42"))) :: [])%list
       = Ok outputs
       /\ lookup "financial_coordinator_output" outputs = Some (score_value 7).
Proof.
  apply (C4_later_for_one_scan_earlier_for_the_other json_loads_ref json_error_ref
           [delta_event "data_analyst" "data_analyst_output" (PInt 3)] [] []
           (coordinator_event (PStr (fenced (score "7"))))
           (coordinator_event (PStr (fenced (score "42"))))
           (score_value 7) (score_value 42)).
  - reflexivity.
  - reflexivity.
  - repeat constructor.
  - repeat constructor.
  - reflexivity.
  - discriminate.
Defined.

(** C4 as stated fails for the forward scan.  First trace: an entry of
    another author holds the key before the two matching entries, and the
    forward scan returns its value.  Second trace: the earlier matching
    entry holds the JSON value null, and the forward scan returns the
    value of the later one.  Third trace: the earlier matching entry
    holds, under a key that comes before in the registry, a fenced integer
    on which [json.loads] raises [ValueError]; the forward scan leaves the
    entry before it comes to the coordinator's key, and returns the value
    of the later one. *)
Lemma C4_forward_scan_does_not_return_earlier_entry :
  (extract_financial_coordinator_output json_loads_ref json_error_ref
     [ delta_event "data_analyst" "financial_coordinator_output"
         (PStr (fenced (score "0")));
       coordinator_event (PStr (fenced (score "7")));
       coordinator_event (PStr (fenced (score "42"))) ]
   = Ok (score_value 42)
   /\ extract_all_agent_outputs json_loads_ref json_error_ref
        [ delta_event "data_analyst" "financial_coordinator_output"
            (PStr (fenced (score "0")));
          coordinator_event (PStr (fenced (score "7")));
          coordinator_event (PStr (fenced (score "42"))) ]
      = Ok (no_outputs (score_value 0)))
  /\ (coordinator_output json_loads_ref (coordinator_event (PStr (fenced "null")))
      = Some PNone
      /\ extract_all_agent_outputs json_loads_ref json_error_ref
           [ coordinator_event (PStr (fenced "null"));
             coordinator_event (PStr (fenced (score "42"))) ]
         = Ok (no_outputs (score_value 42)))
  /\ (coordinator_output json_loads_ref
        (delta_event_of "financial_coordinator"
           [ ("trading_analyst_output", PStr long_integer);
             ("financial_coordinator_output", PStr (fenced (score "7"))) ])
      = Some (score_value 7)
      /\ json_error_ref (digits (S MAX_STR_DIGITS)) = ValueError
      /\ extract_all_agent_outputs json_loads_ref json_error_ref
           [ delta_event_of "financial_coordinator"
               [ ("trading_analyst_output", PStr long_integer);
                 ("financial_coordinator_output", PStr (fenced (score "7"))) ];
             coordinator_event (PStr (fenced (score "42"))) ]
         = Ok (no_outputs (score_value 42))).
Proof. repeat split; vm_compute; reflexivity. Qed.

(** C5, a run: an entry that is not a dictionary and an entry with a
    state delta; the key nothing is offered for holds [None]. *)
Lemma C5_outputs_hold_every_registry_key_run :
  exists outputs,
    extract_all_agent_outputs json_loads_ref json_error_ref
      [ PStr "not an entry";
        delta_event "data_analyst" "data_analyst_output" (PInt 3) ]
    = Ok outputs
    /\ map fst outputs = OUTPUT_KEYS
    /\ lookup "risk_analyst_output" outputs = Some PNone.
Proof.
  destruct (C5_outputs_hold_every_registry_key json_loads_ref json_error_ref
              [ PStr "not an entry";
                delta_event "data_analyst" "data_analyst_output" (PInt 3) ])
    as (outputs & _ & E & K & L).
  exists outputs. split; [exact E | split; [exact K |]].
  apply L; [in_registry | repeat constructor].
Defined.

(** C6, two runs of the amended statement: the only matching entry holds
    plain text; the only matching entry holds a fenced block that is not
    JSON. *)
Lemma C6_text_that_does_not_decode_run :
  (extract_financial_coordinator_output json_loads_ref json_error_ref
     ([] ++ coordinator_event (PStr "All done, no table today.") :: [])%list
   = Ok PNone
   /\ exists outputs,
        extract_all_agent_outputs json_loads_ref json_error_ref
          ([] ++ coordinator_event (PStr "All done, no table today.") :: [])%list
        = Ok outputs
        /\ lookup "financial_coordinator_output" outputs
           = Some (PStr "All done, no table today."))
  /\ (extract_financial_coordinator_output json_loads_ref json_error_ref
        ([] ++ coordinator_event (PStr (fenced "{score: 42")) :: [])%list
      = Ok PNone
      /\ exists outputs,
           extract_all_agent_outputs json_loads_ref json_error_ref
             ([] ++ coordinator_event (PStr (fenced "{score: 42")) :: [])%list
           = Ok outputs
           /\ lookup "financial_coordinator_output" outputs
              = Some (PStr (fenced "{score: 42"))).
Proof.
  split.
  - destruct (C6_text_that_does_not_decode json_loads_ref json_error_ref [] []
                (coordinator_event (PStr "All done, no table today."))
                "financial_coordinator_output" "All done, no table today.")
      as [A B].
    + in_registry.
    + reflexivity.
    + left; reflexivity.
    + split; [apply A; [reflexivity | constructor]
             | apply B; [reflexivity | reflexivity | constructor]].
  - destruct (C6_text_that_does_not_decode json_loads_ref json_error_ref [] []
                (coordinator_event (PStr (fenced "{score: 42")))
                "financial_coordinator_output" (fenced "{score: 42"))
      as [A B].
    + in_registry.
    + reflexivity.
    + right. exists "{score: 42". split; reflexivity.
    + split; [apply A; [reflexivity | constructor]
             | apply B; [reflexivity | reflexivity | constructor]].
Defined.

(** C6 as stated fails for the forward scan: the entry holds plain text
    under the coordinator's key, and under a key that comes before it in
    the registry a fenced integer on which [json.loads] raises
    [ValueError]; the scan leaves the entry there, and the plain text is
    not stored. *)
Lemma C6_plain_text_is_not_stored_when_the_entry_is_left :
  occurs "```" "plain" = false
  /\ json_loads_ref (digits (S MAX_STR_DIGITS)) = None
  /\ json_error_ref (digits (S MAX_STR_DIGITS)) = ValueError
  /\ extract_all_agent_outputs json_loads_ref json_error_ref
       [ delta_event_of "financial_coordinator"
           [ ("trading_analyst_output", PStr long_integer);
             ("financial_coordinator_output", PStr "plain") ] ]
     = Ok (no_outputs PNone).
Proof. repeat split; vm_compute; reflexivity. Qed.

(** C7, the run that shows the defect: the only matching entry holds a
    dictionary; the reversed scan returns [None], the forward scan the
    dictionary. *)
Lemma C7_value_that_is_not_text_run :
  extract_financial_coordinator_output json_loads_ref json_error_ref
    ([] ++ coordinator_event (score_value 42) :: [])%list
  = Ok PNone
  /\ exists outputs,
       extract_all_agent_outputs json_loads_ref json_error_ref
         ([] ++ coordinator_event (score_value 42) :: [])%list
       = Ok outputs
       /\ lookup "financial_coordinator_output" outputs = Some (score_value 42).
Proof.
  destruct (C7_value_that_is_not_text json_loads_ref json_error_ref [] []
              (coordinator_event (score_value 42)) (score_value 42))
    as [A B].
  - reflexivity.
  - discriminate.
  - discriminate.
  - split; [apply A; constructor | apply B; [reflexivity | constructor]].
Defined.

(** C8, a run: an entry that is not a dictionary and an entry without
    actions, before and after a well formed entry. *)
Lemma C8_scans_never_raise_and_skip_malformed_entries_run :
  extract_financial_coordinator_output json_loads_ref json_error_ref
    ([coordinator_event (PStr (fenced (score "42")))]
       ++ PDict [("author", PStr "financial_coordinator")] :: [PInt 5])%list
  = extract_financial_coordinator_output json_loads_ref json_error_ref
      ([coordinator_event (PStr (fenced (score "42")))] ++ [PInt 5])%list
  /\ extract_all_agent_outputs json_loads_ref json_error_ref
       ([coordinator_event (PStr (fenced (score "42")))]
          ++ PDict [("author", PStr "financial_coordinator")] :: [PInt 5])%list
     = extract_all_agent_outputs json_loads_ref json_error_ref
         ([coordinator_event (PStr (fenced (score "42")))] ++ [PInt 5])%list.
Proof.
  destruct (proj2 (C8_scans_never_raise_and_skip_malformed_entries
                     json_loads_ref json_error_ref
                     ([coordinator_event (PStr (fenced (score "42")))]
                        ++ PDict [("author", PStr "financial_coordinator")]
                        :: [PInt 5])%list)
              [coordinator_event (PStr (fenced (score "42")))]
              (PDict [("author", PStr "financial_coordinator")])
              [PInt 5] eq_refl) as (A & B & _).
  split; [apply A; left; reflexivity | apply B; reflexivity].
Defined.

(** C9, a run of the amended statement: two entries, one without
    author. *)
Lemma C9_one_author_per_mapping_entry_run :
  exists s,
    extract_conversation_summary
      [ delta_event "data_analyst" "data_analyst_output" (PInt 3);
        PDict [("content", PNone)] ]
    = Ok (Some s)
    /\ total_entries s = 2
    /\ authors s = [PStr "data_analyst"; PStr "unknown"]
    /\ List.length (authors s) = total_entries s.
Proof.
  destruct (C9_one_author_per_mapping_entry
              [ delta_event "data_analyst" "data_analyst_output" (PInt 3);
                PDict [("content", PNone)] ])
    as (s & E & T & A & L).
  exists s. split; [exact E | split; [exact T | split; [exact A |]]].
  apply L. repeat constructor.
Defined.

(** C9 as stated fails: an element of the list that is not a dictionary
    is counted in [total_entries] and adds nothing to [authors]. *)
Lemma C9_entry_that_is_not_a_mapping_has_no_author :
  extract_conversation_summary
    [ PStr "keep-alive"; delta_event "data_analyst" "data_analyst_output" (PInt 3) ]
  = Ok (Some (Summary 2 [PStr "data_analyst"] [] false)).
Proof. reflexivity. Qed.

(** C10, a run: the two traces differ only by a key outside the
    registry. *)
Lemma C10_only_the_registry_keys_are_read_run :
  exists outputs,
    extract_all_agent_outputs json_loads_ref json_error_ref
      [ PDict [("actions",
                PDict [("stateDelta",
                        PDict [("risk_analyst_output", PInt 1);
                               ("scratch_output", PStr (fenced (score "9")))])])] ]
    = Ok outputs
    /\ extract_all_agent_outputs json_loads_ref json_error_ref
         [ PDict [("actions",
                   PDict [("stateDelta",
                           PDict [("risk_analyst_output", PInt 1)])])] ]
       = Ok outputs
    /\ map fst outputs
       = [ "data_analyst_output"; "trading_analyst_output";
           "risk_analyst_output"; "execution_analyst_output";
           "financial_coordinator_output" ].
Proof.
  apply (C10_only_the_registry_keys_are_read json_loads_ref json_error_ref).
  repeat constructor.
  intros key [<-|[<-|[<-|[<-|[<-|[]]]]]]; reflexivity.
Defined.

(** * Further properties of the extraction code *)

(** ** Readings used below *)

(** The output of one trace completed by the output of a later one: a
    key that holds [None] takes the later value. *)
Definition merge_outputs (first later : dict) : dict :=
  map (fun kv =>
         (fst kv,
          merge (snd kv)
                (match lookup (fst kv) later with Some v => v | None => PNone end)))
      first.

(** The calls of a summary moved [n] entries further in the trace. *)
Definition shift_call (n : nat) (c : agent_call) : agent_call :=
  AgentCall (n + entry_index c) (function_name c) (call_author c).

Definition shift (n : nat) (s : summary) : summary :=
  Summary (total_entries s) (authors s) (map (shift_call n) (agent_calls s))
          (final_output_found s).

(** Two statements do the same up to the index of the entry. *)
Definition shifted {A : Type} (n : nat) (c1 c2 : M summary A) : Prop :=
  forall s, c2 (shift n s) = (shift n (fst (c1 s)), snd (c1 s)).

(** What the loop over the parts does with one part: the calls it
    appends, or [None] when it raises. *)
Definition part_outcome (i : nat) (author part : pyval) : option (list agent_call) :=
  match part with
  | PDict p =>
      match lookup "functionCall" p with
      | None => Some []
      | Some (PDict call) =>
          Some [AgentCall i
                  (match lookup "name" call with
                   | Some name => name
                   | None => PStr "unknown"
                   end)
                  author]
      | Some _ => None
      end
  | PStr s => if occurs "functionCall" s then None else Some []
  | PList l => if existsb (fun x => py_eq_str x "functionCall") l then None else Some []
  | _ => None
  end.

(** The calls appended by the loop over the parts up to the first part
    that raises, and whether a part raised. *)
Fixpoint parts_outcome (i : nat) (author : pyval) (parts : list pyval)
  : list agent_call * bool :=
  match parts with
  | [] => ([], false)
  | part :: rest =>
      match part_outcome i author part with
      | Some calls =>
          let (more, raised) := parts_outcome i author rest in
          ((calls ++ more)%list, raised)
      | None => ([], true)
      end
  end.

(** The test the summary makes for the final output, on an entry that is
    a dictionary. *)
Definition final_condition (entry : pyval) : result bool :=
  Ok (py_eq_str (author_or_unknown entry) "financial_coordinator")
  and py_in "actions" entry
  and (actions <- py_getitem entry "actions" ;;
       py_in "stateDelta" actions)
  and (actions <- py_getitem entry "actions" ;;
       state_delta <- py_getitem actions "stateDelta" ;;
       py_in "financial_coordinator_output" state_delta).

Definition holds (c : result bool) : bool :=
  match c with Ok b => b | Raise _ => false end.

(** ** The pattern: what a match looks like *)

Module MatchFacts.

Lemma body_none_inv (r : string) : body r = None -> occurs closing r = false.
Proof.
  induction r as [|c r IH]; intros H; [reflexivity |].
  rewrite occurs_cons. simpl in H.
  destruct (body r) as [g|]; [discriminate |].
  rewrite (IH eq_refl), orb_false_r.
  now destruct (starts_with closing (String c r)).
Qed.

Lemma occurs_here (p s : string) : starts_with p s = true -> occurs p s = true.
Proof. intros H. destruct s; simpl; now rewrite H. Qed.

Lemma occurs_app (p a b : string) : occurs p (a ++ p ++ b) = true.
Proof.
  induction a as [|c a IH].
  - change ("" ++ p ++ b) with (p ++ b).
    apply occurs_here. apply starts_with_app.
  - change (String c a ++ p ++ b) with (String c (a ++ p ++ b)).
    rewrite occurs_cons, IH. apply orb_true_r.
Qed.

Lemma match_here_sound (s g : string) :
  match_here s = Some g ->
  exists ws tail,
    s = opening ++ ws ++ nl ++ g ++ closing ++ tail
    /\ all_space ws = true /\ occurs closing tail = false.
Proof.
  unfold match_here. intros H.
  destruct (strip_prefix opening s) as [r|] eqn:P; [|discriminate].
  apply strip_prefix_sound in P.
  destruct (ws_then_body_sound _ _ H) as (ws & r1 & -> & Hws & B).
  destruct (body_sound _ _ B) as (tail & -> & N).
  exists ws, tail. repeat split; auto.
  apply body_none_inv in N.
  change ("```" ++ tail) with (String "`" (String "`" (String "`" tail))) in N.
  rewrite !occurs_cons in N.
  repeat (apply orb_false_iff in N as [_ N]). exact N.
Qed.

Lemma re_search_sound (text group1 : string) :
  re_search text = Some group1 ->
  exists pre ws tail,
    text = pre ++ opening ++ ws ++ nl ++ group1 ++ closing ++ tail
    /\ all_space ws = true
    /\ occurs closing tail = false.
Proof.
  induction text as [|c text IH]; intros H.
  - discriminate.
  - rewrite re_search_cons in H.
    destruct (match_here (String c text)) as [g|] eqn:M.
    + injection H as ->.
      destruct (match_here_sound _ _ M) as (ws & tail & E & Hws & Ht).
      exists "", ws, tail. auto.
    + destruct (IH H) as (pre & ws & tail & -> & Hws & Ht).
      exists (String c pre), ws, tail. auto.
Qed.

End MatchFacts.
Import MatchFacts.

(** X1.  Whatever the search returns is delimited in the text as the
    pattern says: an opening marker, white space, a newline, the group, a
    newline and three backticks, and no closing marker after them. *)
Lemma X1_match_is_delimited_by_fences (text group1 : string) :
  re_search text = Some group1 ->
  exists pre ws tail,
    text = pre ++ opening ++ ws ++ nl ++ group1 ++ closing ++ tail
    /\ all_space ws = true
    /\ occurs closing tail = false.
Proof. apply re_search_sound. Qed.

Lemma X1_match_is_delimited_by_fences_run :
  exists pre ws tail,
    "see ```json" ++ nl ++ "[1]" ++ nl ++ "``` ok"
    = pre ++ opening ++ ws ++ nl ++ "[1]" ++ closing ++ tail
    /\ all_space ws = true
    /\ occurs closing tail = false.
Proof.
  apply (X1_match_is_delimited_by_fences
           ("see ```json" ++ nl ++ "[1]" ++ nl ++ "``` ok") "[1]").
  reflexivity.
Defined.

Section MoreOnDecoding.

Variable json_loads : string -> option pyval.
Variable json_error : string -> exn.

(** X2.  A text that lacks the opening marker as the pattern spells it
    (lower case, right after the backticks), or lacks a newline followed
    by three backticks, has no fenced block: it does not decode, and the
    forward scan stores it as it is. *)
Lemma X2_text_without_a_proper_fence_is_not_decoded (text : string) :
  occurs opening text = false \/ occurs closing text = false ->
  re_search text = None
  /\ fenced_decode json_loads (PStr text) = None
  /\ stored_value json_loads (PStr text) = PStr text.
Proof.
  intros H.
  assert (N : re_search text = None).
  { destruct (re_search text) as [g|] eqn:E; [|reflexivity].
    destruct (re_search_sound text g E)
      as (pre & ws & tail & -> & _ & _).
    destruct H as [H|H].
    - now rewrite occurs_app in H.
    - replace (pre ++ opening ++ ws ++ nl ++ g ++ closing ++ tail)
        with ((pre ++ opening ++ ws ++ nl ++ g) ++ closing ++ tail) in H
        by (now rewrite !append_assoc).
      now rewrite occurs_app in H. }
  unfold fenced_decode, stored_value. now rewrite N.
Qed.

Lemma re_search_here (s g : string) :
  match_here s = Some g -> re_search s = Some g.
Proof.
  intros H. destruct s as [|c s].
  - unfold re_search. now rewrite H.
  - now rewrite re_search_cons, H.
Qed.

Lemma re_search_fenced (payload : string) :
  exists group1,
    re_search (fenced payload) = Some group1 /\ strip group1 = strip payload.
Proof.
  destruct (ws_then_body_complete "" (payload ++ closing ++ "") payload eq_refl
              (body_last payload "" eq_refl)) as (g & u & E & Hu & P).
  exists g. split.
  - apply re_search_here. unfold match_here, fenced.
    rewrite strip_prefix_app.
    rewrite append_nil_r in E. exact E.
  - rewrite P. symmetry. now apply strip_space_app.
Qed.

Lemma first_output_in (entries : list pyval) :
  first_output json_loads entries = PNone
  \/ exists entry,
       In entry entries
       /\ coordinator_output json_loads entry
          = Some (first_output json_loads entries).
Proof.
  induction entries as [|e l IH]; simpl; [now left |].
  destruct (coordinator_output json_loads e) as [v|] eqn:E.
  - right. exists e. auto.
  - destruct IH as [IH|(x & I & H)]; [now left |].
    right. exists x. auto.
Qed.

Lemma first_output_app_hit (before after : list pyval) :
  Exists (fun e => coordinator_output json_loads e <> None) before ->
  first_output json_loads (before ++ after)%list = first_output json_loads before.
Proof.
  induction 1 as [e l H|e l _ IH]; simpl.
  - destruct (coordinator_output json_loads e); [reflexivity | congruence].
  - now rewrite IH.
Qed.

(** X3.  Fencing and decoding: a text wrapped in a fenced block decodes
    to what [json.loads] makes of the text, stripped; and when that is a
    value, the reversed scan returns it for a trace that ends with the
    coordinator's entry holding the fenced text. *)
Lemma X3_fenced_text_decodes_to_its_content
      (payload : string) (v : pyval) (pre : list pyval) (entry : pyval) :
  json_loads (strip payload) = Some v ->
  coordinator_raw entry = Some (PStr (fenced payload)) ->
  fenced_decode json_loads (PStr (fenced payload)) = Some v
  /\ extract_financial_coordinator_output json_loads json_error (pre ++ [entry])%list = Ok v.
Proof.
  intros J R.
  assert (D : fenced_decode json_loads (PStr (fenced payload)) = Some v).
  { destruct (re_search_fenced payload) as (g & S & T).
    unfold fenced_decode. now rewrite S, T. }
  split; [exact D |].
  apply extract_coordinator_at; [|constructor].
  unfold coordinator_output. now rewrite R.
Qed.

(** X4.  The reversed scan never returns a value of its own making: what
    it returns is [None], or what [json.loads] made of the fenced block of
    a text held by a matching entry of the trace. *)
Lemma X4_returned_output_is_a_decoded_block (trace : list pyval) (v : pyval) :
  extract_financial_coordinator_output json_loads json_error trace = Ok v ->
  v = PNone
  \/ exists entry text group1,
       In entry trace
       /\ coordinator_raw entry = Some (PStr text)
       /\ re_search text = Some group1
       /\ json_loads (strip group1) = Some v.
Proof.
  rewrite extract_coordinator_spec. intros H. injection H as <-.
  destruct (first_output_in (rev trace)) as [N|(e & I & O)]; [now left |].
  right. apply in_rev in I.
  unfold coordinator_output in O.
  destruct (coordinator_raw e) as [raw|] eqn:R; [|discriminate].
  unfold fenced_decode in O.
  destruct raw as [| | | |text| |]; try discriminate.
  destruct (re_search text) as [g|] eqn:S; [|discriminate].
  exists e, text, g. auto.
Qed.

(** X5.  The forward scan never moves or invents a value: what it
    returns under a key is [None], or what it stores for a raw value that
    some entry of the trace holds under that same key. *)
Lemma X5_stored_output_comes_from_its_key
      (trace : list pyval) (outputs : dict) (key : string) (v : pyval) :
  extract_all_agent_outputs json_loads json_error trace = Ok outputs ->
  lookup key outputs = Some v ->
  v = PNone
  \/ exists entry raw,
       In entry trace
       /\ raw_at key entry = Some raw
       /\ v = stored_value json_loads raw.
Proof.
  intros E L.
  destruct (all_outputs_spec json_loads json_error trace) as (o & _ & E' & K & ->).
  rewrite E' in E. injection E as <-.
  assert (I : In key OUTPUT_KEYS).
  { rewrite <- K. apply lookup_in_keys_inv. congruence. }
  destruct (scan_bound json_loads json_error trace initial_outputs key PNone
              (lookup_initial_outputs key I)) as [R|(e & Ie & R)].
  - left. congruence.
  - rewrite R in L. injection L as <-.
    unfold offered, offered_in, raw_at.
    destruct (state_delta_of e) as [sd|] eqn:D; [|now left].
    destruct (lookup key sd) as [raw|] eqn:Lr; [|now left].
    destruct (abandons json_loads json_error raw); [now left |].
    right. exists e, raw. rewrite D. auto.
Qed.

(** X6.  The reversed scan over two traces put end to end: the later
    trace decides as soon as one of its entries decodes, and otherwise the
    earlier trace does. *)
Lemma X6_later_trace_takes_precedence (earlier later : list pyval) :
  (Exists (fun e => coordinator_output json_loads e <> None) later ->
   extract_financial_coordinator_output json_loads json_error (earlier ++ later)%list
   = extract_financial_coordinator_output json_loads json_error later)
  /\ (Forall (fun e => coordinator_output json_loads e = None) later ->
      extract_financial_coordinator_output json_loads json_error (earlier ++ later)%list
      = extract_financial_coordinator_output json_loads json_error earlier).
Proof.
  rewrite !extract_coordinator_spec, rev_app_distr. split; intros H.
  - f_equal. apply first_output_app_hit.
    apply Exists_exists in H as (e & I & N).
    apply Exists_exists. exists e. split; [now apply in_rev in I |].
    exact N.
  - f_equal. apply first_output_skip. now apply Forall_rev.
Qed.

Lemma quiet_not_abandoned (key : string) (entry : pyval) :
  quiet json_loads json_error entry = true ->
  abandoned_before json_loads json_error key entry = false.
Proof.
  unfold quiet, abandoned_before.
  destruct (state_delta_of entry) as [sd|]; [|reflexivity].
  induction OUTPUT_KEYS as [|k ks IH]; simpl; [reflexivity |].
  intros H. apply andb_true_iff in H as [H0 H].
  destruct (String.eqb k key); [reflexivity |].
  rewrite (IH H), orb_false_r.
  destruct (lookup k sd) as [raw|]; [|reflexivity].
  now destruct (abandons json_loads json_error raw).
Qed.

(** X7.  The forward scan over two traces put end to end returns the
    outputs of the earlier trace, completed by those of the later trace
    under the keys the earlier trace left at [None], when the scan gives
    up on no value that an entry of the later trace holds under a key of
    the registry. *)
Lemma X7_outputs_of_concatenated_traces
      (earlier later : list pyval) (o1 o2 : dict) :
  Forall (fun x => quiet json_loads json_error x = true) later ->
  extract_all_agent_outputs json_loads json_error earlier = Ok o1 ->
  extract_all_agent_outputs json_loads json_error later = Ok o2 ->
  extract_all_agent_outputs json_loads json_error (earlier ++ later)%list
  = Ok (merge_outputs o1 o2).
Proof.
  intros Q E1 E2.
  destruct (all_outputs_spec json_loads json_error earlier) as (a & _ & A & Ka & Ea).
  destruct (all_outputs_spec json_loads json_error later) as (b & _ & B & Kb & Eb).
  destruct (all_outputs_spec json_loads json_error (earlier ++ later)%list)
    as (c & _ & C & Kc & Ec).
  rewrite A in E1. injection E1 as <-.
  rewrite B in E2. injection E2 as <-.
  rewrite C. f_equal.
  rewrite fold_left_app, <- Ea in Ec.
  assert (Km : map fst (merge_outputs a b) = map fst a).
  { unfold merge_outputs. rewrite map_map. reflexivity. }
  assert (Lm : forall k x, lookup k a = Some x ->
               lookup k (merge_outputs a b)
               = Some (merge x (match lookup k b with
                                | Some y => y
                                | None => PNone
                                end))).
  { unfold merge_outputs. clear. induction a as [|[k0 x0] a IH]; simpl.
    - discriminate.
    - intros k x. destruct (String.eqb_spec k k0) as [->|].
      + now intros [= ->].
      + apply IH. }
  assert (R : forall k, Forall (fun x => abandoned_before json_loads json_error k x
                                         = false) later).
  { intros k. eapply Forall_impl; [|exact Q].
    intros x. apply quiet_not_abandoned. }
  apply dict_ext.
  - congruence.
  - rewrite Kc. apply output_keys_nodup.
  - intros k I. rewrite Kc in I.
    destruct (lookup k a) as [x|] eqn:La.
    + rewrite (Lm k x La), Ec, Eb.
      rewrite (scan_reach json_loads json_error later a k x Ka I La (R k)).
      rewrite (scan_reach json_loads json_error later initial_outputs k PNone
                 eq_refl I (lookup_initial_outputs k I) (R k)).
      reflexivity.
    + exfalso. revert La. apply lookup_in_keys. now rewrite Ka.
Qed.

(** X8.  The two extractions agree on a trace with a single entry that
    holds the coordinator's key: if that entry is a matching entry whose
    value decodes to something other than [None], and the forward scan of
    the entry comes to the key, both return the decoded value. *)
Lemma X8_both_scans_agree_on_a_single_output
      (pre post : list pyval) (entry v : pyval) :
  coordinator_output json_loads entry = Some v ->
  v <> PNone ->
  abandoned_before json_loads json_error "financial_coordinator_output" entry
  = false ->
  Forall (fun x => raw_at "financial_coordinator_output" x = None)
         (pre ++ post)%list ->
  extract_financial_coordinator_output json_loads json_error (pre ++ entry :: post)%list
  = Ok v
  /\ exists outputs,
       extract_all_agent_outputs json_loads json_error (pre ++ entry :: post)%list
       = Ok outputs
       /\ lookup "financial_coordinator_output" outputs = Some v.
Proof.
  intros O N G F. apply Forall_app in F as [F1 F2].
  pose proof (coordinator_output_offered json_loads json_error entry v O) as Of.
  split.
  - apply extract_coordinator_at; [assumption |].
    eapply Forall_impl; [|exact F2].
    intros x R. unfold coordinator_output, coordinator_raw.
    unfold raw_at in R.
    destruct (has_coordinator_author x); [|reflexivity].
    destruct (state_delta_of x); [now rewrite R | reflexivity].
  - destruct (extract_all_at json_loads json_error pre post entry
                "financial_coordinator_output") as (o & E & L).
    + in_registry.
    + eapply Forall_impl; [|exact F1].
      intros x R. unfold offered, offered_in. unfold raw_at in R.
      destruct (state_delta_of x); [now rewrite R | reflexivity].
    + assumption.
    + now rewrite Of.
    + exists o. split; [exact E | now rewrite L, Of].
Qed.

(** The keys the scan of a state delta gives up on. *)
Lemma store_some (sd outputs : dict) (k : string) :
  match lookup k sd with
  | Some raw => abandons json_loads json_error raw = false
  | None => True
  end ->
  exists outputs', store json_loads json_error sd outputs k = Some outputs'.
Proof.
  intros H.
  destruct (store json_loads json_error sd outputs k) as [o1|] eqn:E; [now exists o1 |].
  destruct (store_gives_up _ _ _ _ _ E) as (_ & _ & raw & R & A).
  rewrite R in H. congruence.
Qed.

Lemma store_each_app (sd : dict) (a b : list string) (outputs : dict) :
  (forall k, In k a ->
     match lookup k sd with
     | Some raw => abandons json_loads json_error raw = false
     | None => True
     end) ->
  store_each json_loads json_error sd (a ++ b)%list outputs
  = store_each json_loads json_error sd b
      (store_each json_loads json_error sd a outputs).
Proof.
  revert outputs; induction a as [|k a IH]; intros outputs H; simpl; [reflexivity |].
  destruct (store_some sd outputs k (H k (or_introl eq_refl))) as [o1 E].
  rewrite E. apply IH. intros k' Hk'. apply H. now right.
Qed.

Lemma gives_up_before_app (sd : dict) (a b : list string) (key : string) :
  ~ In key a ->
  gives_up_before json_loads json_error sd (a ++ key :: b)%list key = false ->
  forall k, In k a ->
    match lookup k sd with
    | Some raw => abandons json_loads json_error raw = false
    | None => True
    end.
Proof.
  induction a as [|k0 a IH]; simpl; intros N G k I; [destruct I |].
  destruct (String.eqb_spec k0 key) as [->|D]; [tauto |].
  apply orb_false_iff in G as [G0 G].
  destruct I as [<-|I].
  - now destruct (lookup k0 sd).
  - apply IH; tauto.
Qed.

Lemma gives_up_before_none (sd : dict) (a : list string) (key : string) :
  (forall k, In k a ->
     match lookup k sd with
     | Some raw => abandons json_loads json_error raw = false
     | None => True
     end) ->
  gives_up_before json_loads json_error sd a key = false.
Proof.
  induction a as [|k0 a IH]; simpl; intros H; [reflexivity |].
  destruct (String.eqb k0 key); [reflexivity |].
  rewrite IH by (intros k Hk; apply H; now right).
  rewrite orb_false_r.
  specialize (H k0 (or_introl eq_refl)).
  now destruct (lookup k0 sd).
Qed.

Lemma nodup_app_disjoint {A : Type} (a b : list A) (x : A) :
  NoDup (a ++ b)%list -> In x a -> ~ In x b.
Proof.
  induction a as [|y a IH]; simpl; intros N I; [destruct I |].
  inversion N as [|? ? Ny N']; subst.
  destruct I as [->|I]; [|now apply IH].
  intros H. apply Ny. apply in_or_app. now right.
Qed.

(** X22.  What [except Exception: continue] does to an entry of the
    forward scan: when the scan comes to a key that still holds [None],
    and [json.loads] raises on the fenced block held under it something
    else than [JSONDecodeError], the entry is left there.  The entry
    itself raises nothing, that key and the keys after it in the registry
    keep what they held, and the keys before it have been dealt with as
    usual. *)
Lemma X22_entry_is_left_on_another_exception
      (outputs sd : dict) (entry raw : pyval)
      (before after : list string) (key : string) :
  map fst outputs = OUTPUT_KEYS ->
  OUTPUT_KEYS = (before ++ key :: after)%list ->
  state_delta_of entry = Some sd ->
  lookup key sd = Some raw ->
  abandons json_loads json_error raw = true ->
  lookup key outputs = Some PNone ->
  abandoned_before json_loads json_error key entry = false ->
  exists outputs',
    outputs_entry json_loads json_error entry outputs = (outputs', Ok tt)
    /\ map fst outputs' = OUTPUT_KEYS
    /\ (forall k, In k (key :: after) -> lookup k outputs' = lookup k outputs)
    /\ (forall k current,
          In k before ->
          lookup k outputs = Some current ->
          lookup k outputs'
          = Some (merge current (offered json_loads json_error k entry))).
Proof.
  intros K S D R A L G.
  pose proof output_keys_nodup as N. rewrite S in N.
  assert (Nk : ~ In key before).
  { intros H. apply (nodup_app_disjoint before (key :: after) key N H). now left. }
  unfold abandoned_before in G. rewrite D, S in G.
  pose proof (gives_up_before_app sd before after key Nk G) as Q.
  assert (E : scan_entry json_loads json_error outputs entry
              = store_each json_loads json_error sd before outputs).
  { unfold scan_entry. rewrite D, K, S.
    rewrite store_each_app by exact Q. simpl.
    unfold store. rewrite R, store_each_other, L by exact Nk. simpl.
    now rewrite A. }
  exists (scan_entry json_loads json_error outputs entry).
  repeat split.
  - apply outputs_entry_spec. rewrite K. apply output_keys_nodup.
  - now rewrite scan_entry_keys.
  - intros k I. rewrite E. apply store_each_other.
    intros H. exact (nodup_app_disjoint before (key :: after) k N H I).
  - intros k current I Lk. rewrite E. unfold offered. rewrite D.
    apply store_each_reach; auto.
    + now apply NoDup_app_remove_r in N.
    + now apply gives_up_before_none.
Qed.

End MoreOnDecoding.

(** ** The summary of traces put end to end *)

Module ShiftFacts.

Lemma shifted_ret {A : Type} (n : nat) (a : A) : shifted n (mret a) (mret a).
Proof. now intros s. Qed.

Lemma shifted_lift {A : Type} (n : nat) (r : result A) :
  shifted n (lift r) (lift r).
Proof. now intros s. Qed.

Lemma shifted_modify (n : nat) (f1 f2 : summary -> summary) :
  (forall s, f2 (shift n s) = shift n (f1 s)) ->
  shifted n (modify f1) (modify f2).
Proof. intros H s. unfold modify; simpl. now rewrite H. Qed.

Lemma shifted_bind {A B : Type} (n : nat) (c1 c2 : M summary A)
      (f1 f2 : A -> M summary B) :
  shifted n c1 c2 -> (forall a, shifted n (f1 a) (f2 a)) ->
  shifted n (mbind c1 f1) (mbind c2 f2).
Proof.
  intros Hc Hf s. unfold mbind. rewrite (Hc s).
  destruct (c1 s) as [s' [a|e]]; simpl; [apply Hf | reflexivity].
Qed.

Lemma shifted_mtry {A : Type} (n : nat) (c1 c2 : M summary A)
      (h1 h2 : exn -> M summary A) :
  shifted n c1 c2 -> (forall e, shifted n (h1 e) (h2 e)) ->
  shifted n (mtry c1 h1) (mtry c2 h2).
Proof.
  intros Hc Hh s. unfold mtry. rewrite (Hc s).
  destruct (c1 s) as [s' [a|e]]; simpl; [reflexivity | apply Hh].
Qed.

Lemma shifted_for_each {A : Type} (n : nat) (xs : list A)
      (b1 b2 : A -> M summary unit) :
  (forall x, shifted n (b1 x) (b2 x)) ->
  shifted n (for_each xs b1) (for_each xs b2).
Proof.
  intros H; induction xs as [|x xs IH]; simpl.
  - apply shifted_ret.
  - apply shifted_bind; auto.
Qed.

Ltac shifted_steps :=
  repeat first
    [ apply shifted_mtry | apply shifted_bind | apply shifted_for_each
    | apply shifted_lift | apply shifted_ret
    | apply shifted_modify; intros []; unfold shift; simpl;
      now rewrite ?map_app
    | match goal with
      | |- shifted _ (if ?b then _ else _) _ => destruct b
      | |- forall _, _ => intro
      end ].

Lemma summary_entry_shifted (n i : nat) (entry : pyval) :
  shifted n (summary_entry (i, entry)) (summary_entry (n + i, entry)).
Proof.
  unfold summary_entry, summary_part. shifted_steps.
Qed.

Lemma entry_summary_shift (n i : nat) (entry : pyval) :
  entry_summary (n + i, entry) = shift n (entry_summary (i, entry)).
Proof.
  unfold entry_summary.
  change zero with (shift n zero) at 1.
  now rewrite (summary_entry_shifted n i entry zero).
Qed.

Lemma flat_map_map {A B C : Type} (f : B -> list C) (g : A -> B) (l : list A) :
  flat_map f (map g l) = flat_map (fun x => f (g x)) l.
Proof. induction l as [|x l IH]; simpl; [reflexivity | now rewrite IH]. Qed.

Lemma existsb_map {A B : Type} (f : B -> bool) (g : A -> B) (l : list A) :
  existsb f (map g l) = existsb (fun x => f (g x)) l.
Proof. induction l as [|x l IH]; simpl; [reflexivity | now rewrite IH]. Qed.

(** The fields of the sum of the summaries of the entries. *)
Lemma sum_entries_fields (n : nat) (ies : list (nat * pyval)) :
  sum_entries n ies
  = Summary n
      (flat_map (fun ie => authors (entry_summary ie)) ies)
      (flat_map (fun ie => agent_calls (entry_summary ie)) ies)
      (existsb (fun ie => final_output_found (entry_summary ie)) ies).
Proof.
  unfold sum_entries.
  pose proof (fold_plus_total (map entry_summary ies) (Summary n [] [] false)) as T.
  pose proof (fold_plus_authors (map entry_summary ies) (Summary n [] [] false)) as A.
  pose proof (fold_plus_calls (map entry_summary ies) (Summary n [] [] false)) as C.
  pose proof (fold_plus_final (map entry_summary ies) (Summary n [] [] false)) as F.
  destruct (fold_left plus (map entry_summary ies) (Summary n [] [] false))
    as [t a c f].
  simpl in *. subst.
  now rewrite !flat_map_map, existsb_map.
Qed.

Lemma enumerate_app {A : Type} (start : nat) (l1 l2 : list A) :
  combine (seq start (List.length (l1 ++ l2))) (l1 ++ l2)
  = (combine (seq start (List.length l1)) l1
     ++ combine (seq (List.length l1 + start) (List.length l2)) l2)%list.
Proof.
  revert start; induction l1 as [|x l1 IH]; intros start; simpl.
  - reflexivity.
  - rewrite IH. now rewrite Nat.add_succ_r.
Qed.

Lemma shifted_entries_authors (n start : nat) (l : list pyval) :
  flat_map (fun ie => authors (entry_summary ie))
           (combine (seq (n + start) (List.length l)) l)
  = flat_map (fun ie => authors (entry_summary ie))
             (combine (seq start (List.length l)) l).
Proof.
  revert start; induction l as [|e l IH]; intros start; simpl.
  - reflexivity.
  - rewrite entry_summary_shift. simpl.
    rewrite <- Nat.add_succ_r. now rewrite IH.
Qed.

Lemma shifted_entries_calls (n start : nat) (l : list pyval) :
  flat_map (fun ie => agent_calls (entry_summary ie))
           (combine (seq (n + start) (List.length l)) l)
  = map (shift_call n)
        (flat_map (fun ie => agent_calls (entry_summary ie))
                  (combine (seq start (List.length l)) l)).
Proof.
  revert start; induction l as [|e l IH]; intros start; simpl.
  - reflexivity.
  - rewrite entry_summary_shift. simpl.
    rewrite <- Nat.add_succ_r. now rewrite IH, map_app.
Qed.

Lemma shifted_entries_final (n start : nat) (l : list pyval) :
  existsb (fun ie => final_output_found (entry_summary ie))
          (combine (seq (n + start) (List.length l)) l)
  = existsb (fun ie => final_output_found (entry_summary ie))
            (combine (seq start (List.length l)) l).
Proof.
  revert start; induction l as [|e l IH]; intros start; simpl.
  - reflexivity.
  - rewrite entry_summary_shift. simpl.
    rewrite <- Nat.add_succ_r. now rewrite IH.
Qed.

End ShiftFacts.
Import ShiftFacts.

(** X9.  The summary of two traces put end to end: the counts add up,
    the authors and the calls follow one another, the calls of the later
    trace with their entry index moved by the length of the earlier one,
    and the flag is set when it is set for either trace. *)
Lemma X9_summary_of_concatenated_traces
      (earlier later : list pyval) (s1 s2 : summary) :
  extract_conversation_summary earlier = Ok (Some s1) ->
  extract_conversation_summary later = Ok (Some s2) ->
  extract_conversation_summary (earlier ++ later)%list
  = Ok (Some (Summary
                (total_entries s1 + total_entries s2)
                (authors s1 ++ authors s2)%list
                (agent_calls s1
                 ++ map (shift_call (List.length earlier)) (agent_calls s2))%list
                (final_output_found s1 || final_output_found s2))).
Proof.
  intros E1 E2.
  destruct (summary_spec earlier) as [_ A].
  destruct (summary_spec later) as [_ B].
  destruct (summary_spec (earlier ++ later)%list) as [_ C].
  rewrite A in E1. injection E1 as <-.
  rewrite B in E2. injection E2 as <-.
  rewrite C. do 2 f_equal.
  rewrite !sum_entries_fields. simpl.
  unfold enumerate. rewrite enumerate_app.
  rewrite !flat_map_app, existsb_app, length_app.
  rewrite shifted_entries_authors, shifted_entries_calls, shifted_entries_final.
  reflexivity.
Qed.

(** ** The calls and the flag of one entry *)

(** The summary [s] with [calls] appended to its calls. *)
Definition add_calls (calls : list agent_call) (s : summary) : summary :=
  Summary (total_entries s) (authors s) (agent_calls s ++ calls)%list
          (final_output_found s).

Module CallFacts.

Lemma add_calls_nil (s : summary) : add_calls [] s = s.
Proof. destruct s; unfold add_calls; simpl. now rewrite app_nil_r. Qed.

Lemma add_calls_app (a b : list agent_call) (s : summary) :
  add_calls b (add_calls a s) = add_calls (a ++ b) s.
Proof. unfold add_calls; simpl. now rewrite app_assoc. Qed.

Lemma summary_part_spec (i : nat) (author part : pyval) (s : summary) :
  match part_outcome i author part with
  | Some calls => summary_part i author part s = (add_calls calls s, Ok tt)
  | None => exists e, summary_part i author part s = (s, Raise e)
  end.
Proof.
  unfold summary_part, part_outcome.
  destruct part as [| | | |text|l|p]; cbn; try (eexists; reflexivity).
  - destruct (occurs "functionCall" text); cbn;
      [eexists; reflexivity | now rewrite add_calls_nil].
  - destruct (existsb _ l); cbn;
      [eexists; reflexivity | now rewrite add_calls_nil].
  - destruct (lookup "functionCall" p) as [call|]; cbn;
      [|now rewrite add_calls_nil].
    destruct call; cbn; first [reflexivity | eexists; reflexivity].
Qed.

Lemma parts_loop_spec (i : nat) (author : pyval) (parts : list pyval)
      (s : summary) :
  fst (for_each parts (summary_part i author) s)
  = add_calls (fst (parts_outcome i author parts)) s
  /\ (if snd (parts_outcome i author parts)
      then exists e, snd (for_each parts (summary_part i author) s) = Raise e
      else snd (for_each parts (summary_part i author) s) = Ok tt).
Proof.
  revert s; induction parts as [|part rest IH]; intros s; simpl.
  - now rewrite add_calls_nil.
  - pose proof (summary_part_spec i author part s) as P.
    unfold mbind.
    destruct (part_outcome i author part) as [calls|].
    + rewrite P. specialize (IH (add_calls calls s)).
      destruct (parts_outcome i author rest) as [more raised]. simpl in *.
      now rewrite <- add_calls_app.
    + destruct P as [e ->]. simpl. rewrite add_calls_nil. eauto.
Qed.

End CallFacts.
Import CallFacts.

(** The summary of an entry whose content holds a list of parts. *)
Lemma entry_summary_parts
      (i : nat) (e content : dict) (parts : list pyval) :
  lookup "content" e = Some (PDict content) ->
  lookup "parts" content = Some (PList parts) ->
  entry_summary (i, PDict e)
  = Summary 0 [author_or_unknown (PDict e)]
      (fst (parts_outcome i (author_or_unknown (PDict e)) parts))
      (negb (snd (parts_outcome i (author_or_unknown (PDict e)) parts))
       && holds (final_condition (PDict e))).
Proof.
  intros C P.
  unfold entry_summary, summary_entry. rewrite mtry_continue. simpl fst.
  unfold final_condition.
  cbn -[for_each parts_outcome summary_part]. rewrite C.
  cbn -[for_each parts_outcome summary_part]. rewrite P.
  cbn -[for_each parts_outcome summary_part].
  match goal with |- context [summary_part i ?a] => set (au := a) end.
  match goal with |- context [holds ?c] => set (fc := c) end.
  pose proof (parts_loop_spec i au parts (append_author au zero)) as [L1 L2].
  unfold mbind, lift.
  destruct (for_each parts (summary_part i au) (append_author au zero))
    as [s' r].
  simpl in L1, L2. subst s'.
  destruct (parts_outcome i au parts) as [calls raised]. simpl in *.
  destruct raised.
  - destruct L2 as [ex ->]. reflexivity.
  - rewrite L2. destruct fc as [[|]|]; reflexivity.
Qed.

(** X10.  A trace of one entry that is a dictionary, whose content is a
    dictionary whose parts are a list: the summary holds the author of
    the entry, the calls of its parts (entry index, name of the function
    or "unknown", author) up to the first part that raises, and the flag
    when no part raised and the test for the final output holds.  So a
    part that raises drops the calls of the parts after it and the test
    for the final output of its entry. *)
Lemma X10_calls_and_flag_of_an_entry (e content : dict) (parts : list pyval) :
  lookup "content" e = Some (PDict content) ->
  lookup "parts" content = Some (PList parts) ->
  extract_conversation_summary [PDict e]
  = Ok (Some (Summary 1 [author_or_unknown (PDict e)]
                (fst (parts_outcome 0 (author_or_unknown (PDict e)) parts))
                (negb (snd (parts_outcome 0 (author_or_unknown (PDict e)) parts))
                 && holds (final_condition (PDict e))))).
Proof.
  intros C P.
  destruct (summary_spec [PDict e]) as [_ ->].
  unfold sum_entries, enumerate. simpl.
  now rewrite (entry_summary_parts 0 e content parts C P).
Qed.

(** ** The flag for the final output *)

(** A statement leaves the flag as it is. *)
Definition keeps_flag {A : Type} (c : M summary A) : Prop :=
  forall s, final_output_found (fst (c s)) = final_output_found s.

(** The content of the entry raises nothing in the summary: the entry
    has no content, or its content is a dictionary without parts, or with
    a list of parts none of which raises. *)
Definition quiet_content (entry : pyval) : bool :=
  match entry with
  | PDict e =>
      match lookup "content" e with
      | None => true
      | Some (PDict content) =>
          match lookup "parts" content with
          | None => true
          | Some (PList parts) => negb (snd (parts_outcome 0 PNone parts))
          | Some _ => false
          end
      | Some _ => false
      end
  | _ => false
  end.

Module FlagFacts.

Lemma keeps_flag_ret {A : Type} (a : A) : keeps_flag (mret a).
Proof. now intros s. Qed.

Lemma keeps_flag_lift {A : Type} (r : result A) : keeps_flag (lift r).
Proof. now intros s. Qed.

Lemma keeps_flag_modify (f : summary -> summary) :
  (forall s, final_output_found (f s) = final_output_found s) ->
  keeps_flag (modify f).
Proof. intros H s; apply H. Qed.

Lemma keeps_flag_bind {A B : Type} (c : M summary A) (f : A -> M summary B) :
  keeps_flag c -> (forall a, keeps_flag (f a)) -> keeps_flag (mbind c f).
Proof.
  intros Hc Hf s. unfold mbind. specialize (Hc s).
  destruct (c s) as [s' [a|e]]; simpl in *; [|assumption].
  now rewrite (Hf a s').
Qed.

Lemma keeps_flag_for_each {A : Type} (xs : list A) (body : A -> M summary unit) :
  (forall x, keeps_flag (body x)) -> keeps_flag (for_each xs body).
Proof.
  intros H; induction xs as [|x xs IH]; simpl.
  - apply keeps_flag_ret.
  - apply keeps_flag_bind; auto.
Qed.

Ltac keeps_flag_steps :=
  repeat first
    [ apply keeps_flag_bind | apply keeps_flag_for_each | apply keeps_flag_lift
    | apply keeps_flag_ret | apply keeps_flag_modify; intros []; now simpl
    | match goal with
      | |- keeps_flag (if ?b then _ else _) => destruct b
      | |- forall _, _ => intro
      end ].

(** The flag after the body of the loop over the entries. *)
Lemma flag_of_entry_body (ra : result pyval) (hp : result bool)
      (parts_loop : pyval -> M summary unit) (fc : pyval -> result bool)
      (s0 : summary) :
  (forall a, keeps_flag (parts_loop a)) ->
  final_output_found s0 = false ->
  final_output_found
    (fst (mbind (lift ra)
            (fun a =>
               mbind (modify (append_author a))
                 (fun _ =>
                    mbind (lift hp)
                      (fun b =>
                         mbind (if b : bool then parts_loop a else mret tt)
                           (fun _ =>
                              mbind (lift (fc a))
                                (fun f =>
                                   if f : bool
                                   then modify set_final_output_found
                                   else mret tt))))) s0))
  = true ->
  exists a, ra = Ok a /\ fc a = Ok true.
Proof.
  intros K F.
  destruct ra as [a|e]; unfold mbind, lift, modify; simpl; [|congruence].
  destruct hp as [b|e]; simpl; [|congruence].
  assert (Kb : keeps_flag (if b then parts_loop a else mret tt)).
  { destruct b; [apply K | apply keeps_flag_ret]. }
  specialize (Kb (append_author a s0)).
  destruct ((if b then parts_loop a else mret tt) (append_author a s0))
    as [s' [[]|e]]; simpl in *.
  - destruct (fc a) as [[|]|e] eqn:Efc; simpl; intros H;
      [exists a; auto | congruence | congruence].
  - congruence.
Qed.

Lemma entry_flag_sound (i : nat) (entry : pyval) :
  final_output_found (entry_summary (i, entry)) = true ->
  holds (final_condition entry) = true.
Proof.
  unfold entry_summary, summary_entry. rewrite mtry_continue. simpl fst.
  intros H.
  apply flag_of_entry_body in H as (a & Ha & Hf).
  - destruct entry as [| | | | | |e]; try discriminate.
    simpl in Ha. injection Ha as <-.
    exact (f_equal holds Hf).
  - intros a. unfold summary_part. keeps_flag_steps.
  - reflexivity.
Qed.

Lemma final_condition_reading (entry : pyval) :
  holds (final_condition entry) = true ->
  has_coordinator_author entry = true
  /\ exists actions state_delta,
       py_getitem entry "actions" = Ok actions
       /\ py_getitem actions "stateDelta" = Ok state_delta
       /\ py_in "financial_coordinator_output" state_delta = Ok true.
Proof.
  unfold final_condition, has_coordinator_author, author_or_unknown, holds.
  destruct entry as [| | | | | |e]; cbn; try discriminate.
  destruct (lookup "author" e) as [a|]; cbn; [|discriminate].
  destruct (py_eq_str a "financial_coordinator"); cbn; [|discriminate].
  destruct (lookup "actions" e) as [actions|]; cbn; [|discriminate].
  destruct (py_in "stateDelta" actions) as [[|]|] eqn:I; cbn; try discriminate.
  destruct (py_getitem actions "stateDelta") as [sd|] eqn:G; cbn;
    [|discriminate].
  destruct (py_in "financial_coordinator_output" sd) as [[|]|] eqn:J;
    try discriminate.
  intros _. split; [reflexivity |]. exists actions, sd. auto.
Qed.

Lemma parts_raise_any_index (i j : nat) (a b : pyval) (parts : list pyval) :
  snd (parts_outcome i a parts) = snd (parts_outcome j b parts).
Proof.
  induction parts as [|part rest IH]; simpl; [reflexivity |].
  assert (E : match part_outcome i a part, part_outcome j b part with
              | Some _, Some _ | None, None => True
              | _, _ => False
              end).
  { unfold part_outcome. destruct part as [| | | |text|l|p]; auto.
    - now destruct (occurs "functionCall" text).
    - now destruct (existsb _ l).
    - destruct (lookup "functionCall" p) as [call|]; auto.
      now destruct call. }
  destruct (part_outcome i a part), (part_outcome j b part); try tauto.
  destruct (parts_outcome i a rest), (parts_outcome j b rest). exact IH.
Qed.

Lemma entry_flag_quiet (i : nat) (entry : pyval) :
  quiet_content entry = true ->
  final_output_found (entry_summary (i, entry)) = holds (final_condition entry).
Proof.
  unfold quiet_content.
  destruct entry as [| | | | | |e]; try discriminate.
  destruct (lookup "content" e) as [content|] eqn:C.
  - destruct content as [| | | | | |c]; try discriminate.
    destruct (lookup "parts" c) as [parts|] eqn:P.
    + destruct parts as [| | | | |parts|]; try discriminate.
      intros Q. rewrite (entry_summary_parts i e c parts C P). simpl.
      rewrite (parts_raise_any_index i 0 _ PNone parts).
      now rewrite Q.
    + intros _. unfold entry_summary, summary_entry. rewrite mtry_continue.
      unfold final_condition.
      cbn -[for_each summary_part]. rewrite C.
      cbn -[for_each summary_part]. rewrite P.
      cbn -[for_each summary_part].
      match goal with |- context [holds ?c] => destruct c as [[|]|] end;
        reflexivity.
  - intros _. unfold entry_summary, summary_entry. rewrite mtry_continue.
    unfold final_condition.
    cbn -[for_each summary_part]. rewrite C.
    cbn -[for_each summary_part].
    match goal with |- context [holds ?c] => destruct c as [[|]|] end;
      reflexivity.
Qed.

Lemma coordinator_raw_final_condition (entry raw : pyval) :
  coordinator_raw entry = Some raw ->
  holds (final_condition entry) = true.
Proof.
  unfold coordinator_raw, has_coordinator_author, state_delta_of,
    final_condition, author_or_unknown, holds.
  destruct entry as [| | | | | |e]; try discriminate.
  destruct (lookup "author" e) as [a|]; [|discriminate].
  destruct (py_eq_str a "financial_coordinator"); [|discriminate].
  destruct (lookup "actions" e) as [actions|] eqn:A; [|discriminate].
  destruct actions as [| | | | | |acts]; try discriminate.
  destruct (lookup "stateDelta" acts) as [sd|] eqn:D; [|discriminate].
  destruct sd as [| | | | | |delta]; try discriminate.
  intros R. cbn. rewrite A. cbn. rewrite D. cbn. now rewrite R.
Qed.

End FlagFacts.
Import FlagFacts.

(** X11.  The flag is set only for a reason in the trace: some entry has
    the coordinator as author, actions that can be indexed, and a state
    delta in which the test [in] finds the coordinator's key. *)
Lemma X11_flag_needs_a_coordinator_entry (trace : list pyval) (s : summary) :
  extract_conversation_summary trace = Ok (Some s) ->
  final_output_found s = true ->
  exists entry actions state_delta,
    In entry trace
    /\ has_coordinator_author entry = true
    /\ py_getitem entry "actions" = Ok actions
    /\ py_getitem actions "stateDelta" = Ok state_delta
    /\ py_in "financial_coordinator_output" state_delta = Ok true.
Proof.
  intros E F.
  destruct (summary_spec trace) as [_ E'].
  rewrite E' in E. injection E as <-.
  rewrite sum_entries_fields in F. simpl in F.
  apply existsb_exists in F as ([i entry] & I & F).
  apply entry_flag_sound in F.
  destruct (final_condition_reading entry F) as (H & actions & sd & A & D & K).
  exists entry, actions, sd. repeat split; auto.
  unfold enumerate in I. now apply in_combine_r in I.
Qed.

(** X12.  The flag tests presence only: a matching entry (author the
    coordinator, the key in its state delta) whose content raises nothing
    sets the flag whatever its value is, decodable or not. *)
Lemma X12_flag_is_set_by_a_matching_entry
      (pre post : list pyval) (entry raw : pyval) :
  coordinator_raw entry = Some raw ->
  quiet_content entry = true ->
  exists s,
    extract_conversation_summary (pre ++ entry :: post)%list = Ok (Some s)
    /\ final_output_found s = true.
Proof.
  intros R Q.
  destruct (summary_spec (pre ++ entry :: post)%list) as [_ E].
  eexists; split; [exact E |].
  rewrite sum_entries_fields. simpl.
  apply existsb_exists.
  exists (List.length pre, entry). split.
  - unfold enumerate. rewrite enumerate_app. apply in_or_app. right.
    simpl. left. now rewrite Nat.add_0_r.
  - rewrite (entry_flag_quiet _ entry Q).
    now apply (coordinator_raw_final_condition entry raw).
Qed.

(** ** Traces without entries to read, and responses that are not lists *)

(** [reversed(o)]: a list, a string and a dictionary can be reversed. *)
Definition py_reversed (o : pyval) : result (list pyval) :=
  match o with
  | PList l => Ok (rev l)
  | PStr s => Ok (rev (map PStr (chars s)))
  | PDict d => Ok (rev (map PStr (keys d)))
  | _ => Raise TypeError
  end.

(** [len(o)] *)
Definition py_len (o : pyval) : result nat :=
  match o with
  | PList l => Ok (List.length l)
  | PStr s => Ok (String.length s)
  | PDict d => Ok (List.length (keys d))
  | _ => Raise TypeError
  end.

Section AnyResponse.

Variable json_loads : string -> option pyval.
Variable json_error : string -> exn.

(** The three functions on whatever [response.json()] gives, a list or
    not: the same bodies, with [reversed], the loops and [len] applied to
    the value itself. *)
Definition extract_financial_coordinator_output_any (response_data : pyval)
  : result pyval :=
  try_except
    (entries <- py_reversed response_data ;;
     coordinator_scan json_loads json_error entries)
    (fun _ => Ok PNone).

Definition extract_all_agent_outputs_any (response_data : pyval) : result dict :=
  snd (mtry
         (put initial_outputs ;;;
          entries <~ lift (py_iter response_data) ;;
          for_each entries (outputs_entry json_loads json_error) ;;;
          get)
         (fun _ => mret []) []).

Definition extract_conversation_summary_any (response_data : pyval)
  : result (option summary) :=
  snd (mtry
         (total <~ lift (py_len response_data) ;;
          put (Summary total [] [] false) ;;;
          entries <~ lift (py_iter response_data) ;;
          for_each (enumerate entries) summary_entry ;;;
          s <~ get ;;
          mret (Some s))
         (fun _ => mret None)
         (Summary 0 [] [] false)).

Lemma any_agrees_on_lists (trace : list pyval) :
  extract_financial_coordinator_output_any (PList trace)
  = extract_financial_coordinator_output json_loads json_error trace
  /\ extract_all_agent_outputs_any (PList trace)
     = extract_all_agent_outputs json_loads json_error trace
  /\ extract_conversation_summary_any (PList trace)
     = extract_conversation_summary trace.
Proof.
  repeat split; try reflexivity.
  unfold extract_conversation_summary_any, extract_conversation_summary,
    summary_body, mtry, mbind, lift, put, get, mret, py_len, py_iter.
  now destruct (for_each (enumerate trace) summary_entry
                  (Summary (List.length trace) [] [] false)) as [s' [[]|e]].
Qed.

Lemma any_outputs_of_entries (response_data : pyval) (entries : list pyval) :
  py_iter response_data = Ok entries ->
  extract_all_agent_outputs_any response_data
  = extract_all_agent_outputs json_loads json_error entries.
Proof.
  intros E. unfold extract_all_agent_outputs_any. now rewrite E.
Qed.

Lemma no_mapping_no_delta (entry : pyval) :
  is_mapping entry = false -> state_delta_of entry = None.
Proof. destruct entry; try reflexivity; discriminate. Qed.

Lemma no_mapping_no_output (entries : list pyval) :
  Forall (fun x => is_mapping x = false) entries ->
  Forall (fun x => coordinator_output json_loads x = None) entries.
Proof.
  induction 1 as [|x l Hx _ IH]; constructor; [|assumption].
  now apply coordinator_output_no_delta, no_mapping_no_delta.
Qed.

Lemma no_mapping_no_summary (start : nat) (entries : list pyval) :
  Forall (fun x => is_mapping x = false) entries ->
  map entry_summary (combine (seq start (List.length entries)) entries)
  = map (fun _ => zero) entries.
Proof.
  intros F; revert start; induction F as [|x l Hx _ IH]; intros start; simpl.
  - reflexivity.
  - rewrite IH. f_equal. apply entry_summary_not_dict.
    intros e ->. discriminate.
Qed.

Lemma fold_plus_zeros {A : Type} (l : list A) (s : summary) :
  fold_left plus (map (fun _ => zero) l) s = s.
Proof.
  revert s; induction l as [|x l IH]; intros s; simpl; [reflexivity |].
  now rewrite plus_zero_r.
Qed.

Lemma outputs_without_mapping (entries : list pyval) :
  Forall (fun x => is_mapping x = false) entries ->
  for_each entries (outputs_entry json_loads json_error) initial_outputs
  = (initial_outputs, Ok tt).
Proof.
  intros F.
  destruct (outputs_loop_spec json_loads json_error entries initial_outputs eq_refl)
    as [E _].
  rewrite E. f_equal. clear E. generalize initial_outputs.
  induction F as [|x l Hx _ IH]; intros o; simpl; [reflexivity |].
  rewrite scan_entry_no_delta by now apply no_mapping_no_delta.
  apply IH.
Qed.

Lemma chars_not_mappings (s : string) :
  Forall (fun x => is_mapping x = false) (map PStr (chars s)).
Proof. induction s; simpl; constructor; auto. Qed.

Lemma strings_not_mappings (l : list string) :
  Forall (fun x => is_mapping x = false) (map PStr l).
Proof. induction l; simpl; constructor; auto. Qed.

Lemma length_chars (s : string) : List.length (chars s) = String.length s.
Proof. induction s; simpl; auto. Qed.

Lemma nothing_to_read (trace : list pyval) :
  Forall (fun x => is_mapping x = false) trace ->
  extract_financial_coordinator_output json_loads json_error trace = Ok PNone
  /\ extract_all_agent_outputs json_loads json_error trace = Ok initial_outputs
  /\ extract_conversation_summary trace
     = Ok (Some (Summary (List.length trace) [] [] false)).
Proof.
  intros F. repeat split.
  - apply extract_coordinator_none. now apply no_mapping_no_output.
  - unfold extract_all_agent_outputs, all_outputs_body, mtry, mbind, put, get.
    now rewrite (outputs_without_mapping trace F).
  - destruct (summary_spec trace) as [_ ->].
    unfold sum_entries, enumerate.
    now rewrite (no_mapping_no_summary 0 trace F), fold_plus_zeros.
Qed.

(** X13.  A trace none of whose elements is a dictionary (the empty
    trace among them) gives the defaults: no output, [None] under every
    key of the registry, and a summary that counts the elements and holds
    no author, no call and no flag. *)
Lemma X13_nothing_to_read_gives_the_defaults (trace : list pyval) :
  Forall (fun x => is_mapping x = false) trace ->
  extract_financial_coordinator_output json_loads json_error trace = Ok PNone
  /\ extract_all_agent_outputs json_loads json_error trace = Ok initial_outputs
  /\ extract_conversation_summary trace
     = Ok (Some (Summary (List.length trace) [] [] false)).
Proof. apply nothing_to_read. Qed.

(** X14.  A response that is a string or a dictionary, not a list, is
    scanned character by character or key by key and nothing is read
    from it: no output, [None] under every key of the registry, and a
    summary that only counts the characters or the keys. *)
Lemma X14_response_that_is_text_or_a_mapping (response_data : pyval) :
  match response_data with
  | PStr _ | PDict _ =>
      extract_financial_coordinator_output_any response_data = Ok PNone
      /\ extract_all_agent_outputs_any response_data = Ok initial_outputs
      /\ exists n,
           py_len response_data = Ok n
           /\ extract_conversation_summary_any response_data
              = Ok (Some (Summary n [] [] false))
  | _ => True
  end.
Proof.
  assert (G : forall entries n,
             Forall (fun x => is_mapping x = false) entries ->
             List.length entries = n ->
             try_except (coordinator_scan json_loads json_error (rev entries))
               (fun _ => Ok PNone) = Ok PNone
             /\ snd (mtry
                       (put initial_outputs ;;;
                        entries' <~ lift (Ok entries) ;;
                        for_each entries' (outputs_entry json_loads json_error) ;;;
                        get)
                       (fun _ => mret []) []) = Ok initial_outputs
             /\ snd (mtry
                       (total <~ lift (Ok n) ;;
                        put (Summary total [] [] false) ;;;
                        entries' <~ lift (Ok entries) ;;
                        for_each (enumerate entries') summary_entry ;;;
                        s <~ get ;;
                        mret (Some s))
                       (fun _ => mret None)
                       (Summary 0 [] [] false))
                = Ok (Some (Summary n [] [] false))).
  { intros entries n F <-.
    destruct (nothing_to_read entries F) as (A & B & C).
    repeat split.
    - exact A.
    - exact B.
    - rewrite <- C. exact (proj2 (proj2 (any_agrees_on_lists entries))). }
  destruct response_data as [| | | |s|l|d]; try exact I.
  - destruct (G (map PStr (chars s)) (String.length s)) as (A & B & C).
    + apply chars_not_mappings.
    + now rewrite length_map, length_chars.
    + repeat split; [exact A | exact B |].
      exists (String.length s). split; [reflexivity | exact C].
  - destruct (G (map PStr (keys d)) (List.length (keys d))) as (A & B & C).
    + apply strings_not_mappings.
    + now rewrite length_map.
    + repeat split; [exact A | exact B |].
      exists (List.length (keys d)). split; [reflexivity | exact C].
Qed.

(** X15.  A response that cannot be iterated (null, a boolean, a
    number): the reversed scan returns no output, and the two other
    functions return the empty dictionary of their outer handler. *)
Lemma X15_response_that_is_not_iterable (response_data : pyval) :
  match response_data with
  | PNone | PBool _ | PInt _ | PFloat _ =>
      extract_financial_coordinator_output_any response_data = Ok PNone
      /\ extract_all_agent_outputs_any response_data = Ok []
      /\ extract_conversation_summary_any response_data = Ok None
  | _ => True
  end.
Proof. destruct response_data; repeat split; reflexivity. Qed.

End AnyResponse.

(** * The endpoints of [server_clean.py]

    The three endpoints built on the extraction functions.  What lies
    outside the program is an input of the model: the outcome of the call
    to the run endpoint ([upstream]), the readings of [time.time()] (the
    lexemes [t0], [t1], [t2] of three floats, in the order the calls are
    made), the difference of two floats ([float_sub]), whether a float is
    zero ([float_is_zero]) and the text [str(e)] of an exception
    ([http_exception_str], [str_exn]). *)

Module Server.

(** [response.json()]: the decoded body, or the exception it raises. *)
Inductive json_body : Type :=
| BodyJson (v : pyval)
| BodyError (message : string).

(** The outcome of [await client.post(...)]: [httpx.TimeoutException],
    another exception with its text, or a response. *)
Inductive upstream : Type :=
| TimedOut
| Failed (message : string)
| Responded (status_code : Z) (text : string) (body : json_body).

(** What leaves the [try] block: a timeout or another exception. *)
Inductive raised : Type :=
| Timeout
| Other (message : string).

(** What an endpoint gives back: the dictionary it returns, or the
    [HTTPException] it raises. *)
Inductive reply : Type :=
| Returned (body : pyval)
| HTTPException (status_code : Z) (detail : string).

Definition attempt (A : Type) : Type := (raised + A)%type.

Definition abind {A B : Type} (a : attempt A) (f : A -> attempt B) : attempt B :=
  match a with
  | inl e => inl e
  | inr x => f x
  end.

(** The name of the type in the message of [len(o)] when it raises. *)
Definition type_name (o : pyval) : string :=
  match o with
  | PNone => "NoneType"
  | PBool _ => "bool"
  | PInt _ => "int"
  | PFloat _ => "float"
  | PStr _ => "str"
  | PList _ => "list"
  | PDict _ => "dict"
  end.

(** [summary] as the dictionary the function returns; [None] is the
    empty dictionary of the outer handler. *)
Definition call_to_py (c : agent_call) : pyval :=
  PDict [("entry_index", PInt (Z.of_nat (entry_index c)));
         ("function_name", function_name c);
         ("author", call_author c)].

Definition summary_to_py (s : option summary) : pyval :=
  match s with
  | Some s =>
      PDict [("total_entries", PInt (Z.of_nat (total_entries s)));
             ("authors", PList (authors s));
             ("agent_calls", PList (map call_to_py (agent_calls s)));
             ("final_output_found", PBool (final_output_found s))]
  | None => PDict []
  end.

(** [o[k]] on a dictionary, for reading a reply. *)
Definition field (k : string) (o : pyval) : option pyval :=
  match o with
  | PDict d => lookup k d
  | _ => None
  end.

Section Endpoints.

Variable json_loads : string -> option pyval.
Variable json_error : string -> exn.
Variable float_sub : string -> string -> string.
Variable float_is_zero : string -> bool.
Variable http_exception_str : Z -> string -> string.
Variable str_exn : exn -> string.

(** [if v:] *)
Definition truthy (v : pyval) : bool :=
  match v with
  | PNone => false
  | PBool b => b
  | PInt z => negb (z =? 0)%Z
  | PFloat x => negb (float_is_zero x)
  | PStr s => negb (String.eqb s "")
  | PList l => match l with [] => false | _ => true end
  | PDict d => match d with [] => false | _ => true end
  end.

Definition run {A : Type} (r : result A) : attempt A :=
  match r with
  | Ok a => inr a
  | Raise e => inl (Other (str_exn e))
  end.

(** The call to the run endpoint, the test of the status code and the
    decoding of the body: the [HTTPException] raised for a status other
    than 200 is raised inside the [try] block. *)
Definition run_response (up : upstream) : attempt pyval :=
  match up with
  | TimedOut => inl Timeout
  | Failed message => inl (Other message)
  | Responded status_code text body =>
      if negb (status_code =? 200)%Z then
        inl (Other (http_exception_str status_code
                      ("Run endpoint failed: " ++ text)))
      else
        match body with
        | BodyJson v => inr v
        | BodyError message => inl (Other message)
        end
  end.

(** The two handlers every endpoint ends with. *)
Definition handlers (a : attempt pyval) : reply :=
  match a with
  | inr body => Returned body
  | inl Timeout => HTTPException 408 "Request timed out"
  | inl (Other message) =>
      HTTPException 500 ("Internal server error: " ++ message)
  end.

Definition extract_financial_output (up : upstream) (t0 t1 t2 : string) : reply :=
  handlers
    (abind (run_response up) (fun response_data =>
     abind (run (extract_financial_coordinator_output_any json_loads json_error response_data))
           (fun financial_output =>
     let processing_time := float_sub t1 t0 in
     if truthy financial_output then
       inr (PDict
              [("financial_coordinator_output", financial_output);
               ("metadata",
                PDict [("endpoint_used", PStr "/extract_financial_output");
                       ("processing_time_seconds", PFloat processing_time);
                       ("extraction_successful", PBool true);
                       ("timestamp", PFloat t2)])])
     else
       inr (PDict
              [("financial_coordinator_output", PNone);
               ("metadata",
                PDict [("endpoint_used", PStr "/extract_financial_output");
                       ("processing_time_seconds", PFloat processing_time);
                       ("extraction_successful", PBool false);
                       ("error", PStr "No financial_coordinator_output found");
                       ("timestamp", PFloat t2)])])))).

Definition run_with_extraction (up : upstream) (t0 t1 t2 : string) : reply :=
  handlers
    (abind (run_response up) (fun response_data =>
     abind (run (extract_financial_coordinator_output_any json_loads json_error response_data))
           (fun financial_output =>
     abind (run (extract_all_agent_outputs_any json_loads json_error response_data))
           (fun all_outputs =>
     abind (run (extract_conversation_summary_any response_data))
           (fun conversation_summary =>
     let processing_time := float_sub t1 t0 in
     abind (match py_len response_data with
            | Ok n => inr n
            | Raise _ =>
                inl (Other ("object of type '" ++ type_name response_data
                            ++ "' has no len()"))
            end)
           (fun total =>
     inr (PDict
            [("raw_response", response_data);
             ("extracted_outputs",
              PDict [("financial_coordinator_output", financial_output);
                     ("all_agent_outputs", PDict all_outputs);
                     ("conversation_summary", summary_to_py conversation_summary)]);
             ("metadata",
              PDict [("endpoint_used", PStr "/run_with_extraction");
                     ("processing_time_seconds", PFloat processing_time);
                     ("extraction_successful",
                      PBool (negb (is_None financial_output)));
                     ("timestamp", PFloat t2);
                     ("total_response_entries", PInt (Z.of_nat total))])]))))))).

Definition extract_all_outputs (up : upstream) (t0 t1 t2 : string) : reply :=
  handlers
    (abind (run_response up) (fun response_data =>
     abind (run (extract_all_agent_outputs_any json_loads json_error response_data))
           (fun all_outputs =>
     abind (run (extract_conversation_summary_any response_data))
           (fun conversation_summary =>
     let processing_time := float_sub t1 t0 in
     inr (PDict
            [("agent_outputs", PDict all_outputs);
             ("conversation_summary", summary_to_py conversation_summary);
             ("metadata",
              PDict [("endpoint_used", PStr "/extract_all_outputs");
                     ("processing_time_seconds", PFloat processing_time);
                     ("extraction_successful", PBool true);
                     ("timestamp", PFloat t2)])]))))).

End Endpoints.

End Server.
Import Server.

(** ** What the endpoints answer *)

(** The call to the run endpoint was answered with status 200 and a body
    that decodes. *)
Definition answered (up : upstream) : bool :=
  match up with
  | Responded status_code _ (BodyJson _) => (status_code =? 200)%Z
  | _ => false
  end.

(** [reply["metadata"]["extraction_successful"]] *)
Definition success_flag (r : reply) : option pyval :=
  match r with
  | Returned body =>
      match field "metadata" body with
      | Some metadata => field "extraction_successful" metadata
      | None => None
      end
  | HTTPException _ _ => None
  end.

Section EndpointFacts.

Variable json_loads : string -> option pyval.
Variable json_error : string -> exn.
Variable float_sub : string -> string -> string.
Variable float_is_zero : string -> bool.
Variable http_exception_str : Z -> string -> string.
Variable str_exn : exn -> string.

Local Notation "'endpoint1'" :=
  (extract_financial_output json_loads json_error float_sub float_is_zero
     http_exception_str str_exn) (at level 0).
Local Notation "'endpoint2'" :=
  (run_with_extraction json_loads json_error float_sub http_exception_str str_exn)
  (at level 0).
Local Notation "'endpoint3'" :=
  (extract_all_outputs json_loads json_error float_sub http_exception_str str_exn)
  (at level 0).

Lemma any_never_raise (response_data : pyval) :
  (exists v, extract_financial_coordinator_output_any json_loads json_error response_data
             = Ok v)
  /\ (exists o, extract_all_agent_outputs_any json_loads json_error response_data = Ok o)
  /\ (exists s, extract_conversation_summary_any response_data = Ok s).
Proof.
  repeat split.
  - unfold extract_financial_coordinator_output_any, try_except.
    destruct (bind _ _); eauto.
  - unfold extract_all_agent_outputs_any, mtry.
    match goal with |- context [match ?c with _ => _ end] =>
      destruct c as [s' [a|e]] end; simpl; eauto.
  - unfold extract_conversation_summary_any, mtry.
    match goal with |- context [match ?c with _ => _ end] =>
      destruct c as [s' [a|e]] end; simpl; eauto.
Qed.

(** X16.  When the call to the run endpoint does not give status 200
    with a body that decodes, the three endpoints raise the same
    [HTTPException]: 408 for a timeout, and 500 for everything else, a
    status other than 200 included (the exception raised with the status
    of the run endpoint is caught by the last handler). *)
Lemma X16_failures_are_answered_with_408_or_500
      (up : upstream) (t0 t1 t2 : string) :
  answered up = false ->
  exists detail,
    endpoint1 up t0 t1 t2
    = HTTPException (match up with TimedOut => 408 | _ => 500 end) detail
    /\ endpoint2 up t0 t1 t2
       = HTTPException (match up with TimedOut => 408 | _ => 500 end) detail
    /\ endpoint3 up t0 t1 t2
       = HTTPException (match up with TimedOut => 408 | _ => 500 end) detail
    /\ match up with
       | Responded status_code text _ =>
           status_code <> 200%Z ->
           detail = "Internal server error: "
                    ++ http_exception_str status_code
                         ("Run endpoint failed: " ++ text)
       | _ => True
       end.
Proof.
  unfold answered, extract_financial_output, run_with_extraction,
    extract_all_outputs.
  destruct up as [|message|status_code text body]; cbn.
  - intros _. eexists; repeat split.
  - intros _. eexists; repeat split.
  - destruct (Z.eqb_spec status_code 200) as [->|N]; cbn.
    + destruct body as [v|message]; [discriminate |].
      intros _. eexists; repeat split. congruence.
    + intros _. eexists; repeat split.
Qed.

(** X17.  When the run endpoint answers 200 with a body that decodes,
    the first and the third endpoint always return; the second returns
    when the body has a length (a list, a string, a dictionary) and
    otherwise raises 500, [len] having raised. *)
Lemma X17_answers_to_a_decoded_body (text : string) (v : pyval) (t0 t1 t2 : string) :
  (exists body, endpoint1 (Responded 200 text (BodyJson v)) t0 t1 t2
                = Returned body)
  /\ (exists body, endpoint3 (Responded 200 text (BodyJson v)) t0 t1 t2
                   = Returned body)
  /\ match py_len v with
     | Ok _ => exists body, endpoint2 (Responded 200 text (BodyJson v)) t0 t1 t2
                            = Returned body
     | Raise _ =>
         endpoint2 (Responded 200 text (BodyJson v)) t0 t1 t2
         = HTTPException 500
             ("Internal server error: object of type '" ++ type_name v
              ++ "' has no len()")
     end.
Proof.
  destruct (any_never_raise v) as ((out & A) & (o & B) & (s & C)).
  unfold extract_financial_output, run_with_extraction, extract_all_outputs.
  cbn. rewrite A, B, C. cbn.
  repeat split.
  - destruct (truthy float_is_zero out); eexists; reflexivity.
  - eexists; reflexivity.
  - destruct (py_len v); cbn; [eexists |]; reflexivity.
Qed.

(** X18.  The first endpoint reports success by the truth value of the
    extracted output: a value that Python counts as false (null, false,
    zero, an empty string, list or dictionary) is answered as no output,
    [None] with the error text; any other value is returned as it is. *)
Lemma X18_first_endpoint_tests_the_truth_value
      (text : string) (v out : pyval) (t0 t1 t2 : string) :
  extract_financial_coordinator_output_any json_loads json_error v = Ok out ->
  exists body metadata,
    endpoint1 (Responded 200 text (BodyJson v)) t0 t1 t2 = Returned body
    /\ field "metadata" body = Some metadata
    /\ field "financial_coordinator_output" body
       = Some (if truthy float_is_zero out then out else PNone)
    /\ field "extraction_successful" metadata
       = Some (PBool (truthy float_is_zero out))
    /\ field "error" metadata
       = (if truthy float_is_zero out then None
          else Some (PStr "No financial_coordinator_output found")).
Proof.
  intros A. unfold extract_financial_output. cbn. rewrite A. cbn.
  destruct (truthy float_is_zero out); do 2 eexists; repeat split.
Qed.

(** X19.  The second endpoint on a list: it returns the response as it
    came, the three extractions, a success flag that only tests the output
    against [None], and a count of entries equal to the length of the
    list, which is also the count of the summary. *)
Lemma X19_second_endpoint_on_a_trace
      (text : string) (trace : list pyval) (t0 t1 t2 : string) :
  exists body extracted metadata out outputs s,
    endpoint2 (Responded 200 text (BodyJson (PList trace))) t0 t1 t2
    = Returned body
    /\ extract_financial_coordinator_output json_loads json_error trace = Ok out
    /\ extract_all_agent_outputs json_loads json_error trace = Ok outputs
    /\ extract_conversation_summary trace = Ok (Some s)
    /\ field "raw_response" body = Some (PList trace)
    /\ field "extracted_outputs" body = Some extracted
    /\ field "metadata" body = Some metadata
    /\ field "financial_coordinator_output" extracted = Some out
    /\ field "all_agent_outputs" extracted = Some (PDict outputs)
    /\ field "conversation_summary" extracted = Some (summary_to_py (Some s))
    /\ field "extraction_successful" metadata = Some (PBool (negb (is_None out)))
    /\ field "total_response_entries" metadata
       = Some (PInt (Z.of_nat (List.length trace)))
    /\ total_entries s = List.length trace.
Proof.
  destruct (any_agrees_on_lists json_loads json_error trace) as (A & B & C).
  destruct (all_outputs_spec json_loads json_error trace) as (o & _ & Eo & _).
  destruct (summary_spec trace) as [_ Es].
  unfold run_with_extraction. cbn -[extract_financial_coordinator_output_any
    extract_all_agent_outputs_any extract_conversation_summary_any].
  rewrite A, B, C, Eo, Es, extract_coordinator_spec. cbn.
  do 6 eexists. repeat split.
  unfold sum_entries. now rewrite fold_plus_total.
Qed.

(** X20.  On the same response the first endpoint reports the truth
    value of the output and the second whether the output is not [None]:
    the two success flags differ for an output that is not [None] and
    counts as false (an empty dictionary or list, zero, false, an empty
    string). *)
Lemma X20_success_flags_of_the_two_endpoints
      (text : string) (v out : pyval) (t0 t1 t2 : string) :
  extract_financial_coordinator_output_any json_loads json_error v = Ok out ->
  py_len v <> Raise TypeError ->
  success_flag (endpoint1 (Responded 200 text (BodyJson v)) t0 t1 t2)
  = Some (PBool (truthy float_is_zero out))
  /\ success_flag (endpoint2 (Responded 200 text (BodyJson v)) t0 t1 t2)
     = Some (PBool (negb (is_None out)))
  /\ (out <> PNone -> truthy float_is_zero out = false ->
      success_flag (endpoint1 (Responded 200 text (BodyJson v)) t0 t1 t2)
      = Some (PBool false)
      /\ success_flag (endpoint2 (Responded 200 text (BodyJson v)) t0 t1 t2)
         = Some (PBool true)).
Proof.
  intros A L.
  destruct (any_never_raise v) as (_ & (o & B) & (s & C)).
  unfold extract_financial_output, run_with_extraction.
  cbn -[extract_financial_coordinator_output_any
    extract_all_agent_outputs_any extract_conversation_summary_any].
  rewrite A, B, C. cbn.
  destruct (py_len v) as [n|e] eqn:E;
    [|destruct v; try discriminate; now destruct e].
  cbn. split; [|split; [|intros N T; split]].
  - now destruct (truthy float_is_zero out).
  - reflexivity.
  - now rewrite T.
  - now destruct out.
Qed.

(** X21.  The third endpoint always reports success on a decoded body,
    whatever was found: with a body that can be iterated its outputs hold
    the keys of the registry, and with a body that cannot (null, a
    boolean, a number) both its outputs and its summary are the empty
    dictionary. *)
Lemma X21_third_endpoint_always_reports_success
      (text : string) (v : pyval) (t0 t1 t2 : string) :
  exists body outputs,
    endpoint3 (Responded 200 text (BodyJson v)) t0 t1 t2 = Returned body
    /\ success_flag (endpoint3 (Responded 200 text (BodyJson v)) t0 t1 t2)
       = Some (PBool true)
    /\ field "agent_outputs" body = Some (PDict outputs)
    /\ match py_iter v with
       | Ok _ => map fst outputs = OUTPUT_KEYS
       | Raise _ =>
           outputs = [] /\ field "conversation_summary" body = Some (PDict [])
       end.
Proof.
  destruct (any_never_raise v) as (_ & (o & B) & (s & C)).
  unfold extract_all_outputs.
  cbn -[extract_all_agent_outputs_any extract_conversation_summary_any].
  rewrite B, C. cbn.
  exists (PDict
            [("agent_outputs", PDict o);
             ("conversation_summary", summary_to_py s);
             ("metadata",
              PDict [("endpoint_used", PStr "/extract_all_outputs");
                     ("processing_time_seconds", PFloat (float_sub t1 t0));
                     ("extraction_successful", PBool true);
                     ("timestamp", PFloat t2)])]), o.
  repeat split.
  destruct (py_iter v) as [entries|e] eqn:I.
  - rewrite (any_outputs_of_entries json_loads json_error v entries I) in B.
    destruct (all_outputs_spec json_loads json_error entries) as (o' & _ & E & K & _).
    rewrite E in B. now injection B as <-.
  - destruct v; try discriminate; cbn in B, C;
      injection B as <-; injection C as <-; now split.
Qed.

End EndpointFacts.

(** * The further properties on concrete inputs *)

(** An entry with three calls among its parts, the third one malformed. *)
Definition calling_entry : dict :=
  [("author", PStr "financial_coordinator");
   ("content",
    PDict [("parts",
            PList [PDict [("functionCall", PDict [("name", PStr "data_analyst")])];
                   PDict [("text", PStr "thinking")];
                   PDict [("functionCall", PDict [])];
                   PDict [("functionCall", PStr "risk_analyst")];
                   PDict [("functionCall", PDict [("name", PStr "late")])]])]);
   ("actions",
    PDict [("stateDelta",
            PDict [("financial_coordinator_output", PStr "pending")])])].

(** Stand-ins for the clock arithmetic and the exception texts. *)
Definition sample_float_sub (a b : string) : string := "0.25".
Definition sample_float_is_zero (x : string) : bool := String.eqb x "0.0".
Definition sample_http_exception_str (status_code : Z) (detail : string) : string :=
  detail.
Definition sample_str_exn (e : exn) : string := "error".

(** X2 on a fence written on one line. *)
Lemma X2_text_without_a_proper_fence_is_not_decoded_run :
  re_search ("```json {} ```") = None
  /\ fenced_decode json_loads_ref (PStr "```json {} ```") = None
  /\ stored_value json_loads_ref (PStr "```json {} ```") = PStr "```json {} ```".
Proof.
  apply (X2_text_without_a_proper_fence_is_not_decoded json_loads_ref
           "```json {} ```").
  right. reflexivity.
Defined.

Lemma X3_fenced_text_decodes_to_its_content_run :
  fenced_decode json_loads_ref (PStr (fenced ("  " ++ score "42" ++ " ")))
  = Some (score_value 42)
  /\ extract_financial_coordinator_output json_loads_ref json_error_ref
       ([PInt 1] ++ [coordinator_event (PStr (fenced ("  " ++ score "42" ++ " ")))])%list
     = Ok (score_value 42).
Proof.
  apply (X3_fenced_text_decodes_to_its_content json_loads_ref json_error_ref
           ("  " ++ score "42" ++ " ") (score_value 42) [PInt 1]
           (coordinator_event (PStr (fenced ("  " ++ score "42" ++ " ")))));
    reflexivity.
Defined.

Lemma X4_returned_output_is_a_decoded_block_run :
  score_value 42 = PNone
  \/ exists entry text group1,
       In entry [coordinator_event (PStr (fenced (score "42")))]
       /\ coordinator_raw entry = Some (PStr text)
       /\ re_search text = Some group1
       /\ json_loads_ref (strip group1) = Some (score_value 42).
Proof.
  apply (X4_returned_output_is_a_decoded_block json_loads_ref json_error_ref
           [coordinator_event (PStr (fenced (score "42")))] (score_value 42)).
  reflexivity.
Defined.

Lemma X5_stored_output_comes_from_its_key_run :
  PStr "plain" = PNone
  \/ exists entry raw,
       In entry [delta_event "risk_analyst" "risk_analyst_output" (PStr "plain")]
       /\ raw_at "risk_analyst_output" entry = Some raw
       /\ PStr "plain" = stored_value json_loads_ref raw.
Proof.
  apply (X5_stored_output_comes_from_its_key json_loads_ref json_error_ref
           [delta_event "risk_analyst" "risk_analyst_output" (PStr "plain")]
           [ ("data_analyst_output", PNone); ("trading_analyst_output", PNone);
             ("risk_analyst_output", PStr "plain");
             ("execution_analyst_output", PNone);
             ("financial_coordinator_output", PNone) ]
           "risk_analyst_output" (PStr "plain"));
    reflexivity.
Defined.

Lemma X6_later_trace_takes_precedence_run :
  extract_financial_coordinator_output json_loads_ref json_error_ref
    ([coordinator_event (PStr (fenced (score "1")))]
       ++ [coordinator_event (PStr (fenced (score "2"))); PNone])%list
  = extract_financial_coordinator_output json_loads_ref json_error_ref
      [coordinator_event (PStr (fenced (score "2"))); PNone].
Proof.
  apply (proj1 (X6_later_trace_takes_precedence json_loads_ref json_error_ref
                  [coordinator_event (PStr (fenced (score "1")))]
                  [coordinator_event (PStr (fenced (score "2"))); PNone])).
  apply Exists_cons_hd. discriminate.
Defined.

Lemma X7_outputs_of_concatenated_traces_run :
  extract_all_agent_outputs json_loads_ref json_error_ref
    ([coordinator_event (PStr (fenced (score "1")))]
       ++ [coordinator_event (PStr (fenced (score "2")));
           delta_event "risk_analyst" "risk_analyst_output" (PInt 3)])%list
  = Ok (merge_outputs
          (no_outputs (score_value 1))
          [ ("data_analyst_output", PNone); ("trading_analyst_output", PNone);
            ("risk_analyst_output", PInt 3);
            ("execution_analyst_output", PNone);
            ("financial_coordinator_output", score_value 2) ]).
Proof.
  apply (X7_outputs_of_concatenated_traces json_loads_ref json_error_ref);
    [repeat constructor | reflexivity | reflexivity].
Defined.

Lemma X8_both_scans_agree_on_a_single_output_run :
  extract_financial_coordinator_output json_loads_ref json_error_ref
    ([delta_event "data_analyst" "data_analyst_output" (PInt 3)]
       ++ coordinator_event (PStr (fenced (score "42"))) :: [PNone])%list
  = Ok (score_value 42)
  /\ exists outputs,
       extract_all_agent_outputs json_loads_ref json_error_ref
         ([delta_event "data_analyst" "data_analyst_output" (PInt 3)]
            ++ coordinator_event (PStr (fenced (score "42"))) :: [PNone])%list
       = Ok outputs
       /\ lookup "financial_coordinator_output" outputs = Some (score_value 42).
Proof.
  apply (X8_both_scans_agree_on_a_single_output json_loads_ref json_error_ref
           [delta_event "data_analyst" "data_analyst_output" (PInt 3)] [PNone]
           (coordinator_event (PStr (fenced (score "42")))) (score_value 42)).
  - reflexivity.
  - discriminate.
  - reflexivity.
  - repeat constructor.
Defined.

Lemma X9_summary_of_concatenated_traces_run :
  extract_conversation_summary ([PNone; PDict []] ++ [PDict calling_entry])%list
  = Ok (Some (Summary
                (2 + 1)
                ([PStr "unknown"] ++ [PStr "financial_coordinator"])%list
                ([] ++ map (shift_call 2)
                         [ AgentCall 0 (PStr "data_analyst")
                             (PStr "financial_coordinator");
                           AgentCall 0 (PStr "unknown")
                             (PStr "financial_coordinator") ])%list
                (false || false))).
Proof.
  apply (X9_summary_of_concatenated_traces [PNone; PDict []] [PDict calling_entry]
           (Summary 2 [PStr "unknown"] [] false)
           (Summary 1 [PStr "financial_coordinator"]
              [ AgentCall 0 (PStr "data_analyst") (PStr "financial_coordinator");
                AgentCall 0 (PStr "unknown") (PStr "financial_coordinator") ]
              false));
    reflexivity.
Defined.

(** X10 on an entry whose fourth part raises: the fifth call and the
    flag are lost. *)
Lemma X10_calls_and_flag_of_an_entry_run :
  extract_conversation_summary [PDict calling_entry]
  = Ok (Some (Summary 1 [PStr "financial_coordinator"]
                [ AgentCall 0 (PStr "data_analyst") (PStr "financial_coordinator");
                  AgentCall 0 (PStr "unknown") (PStr "financial_coordinator") ]
                false)).
Proof.
  exact (X10_calls_and_flag_of_an_entry calling_entry
           [("parts",
             PList [PDict [("functionCall", PDict [("name", PStr "data_analyst")])];
                    PDict [("text", PStr "thinking")];
                    PDict [("functionCall", PDict [])];
                    PDict [("functionCall", PStr "risk_analyst")];
                    PDict [("functionCall", PDict [("name", PStr "late")])]])]
           [PDict [("functionCall", PDict [("name", PStr "data_analyst")])];
            PDict [("text", PStr "thinking")];
            PDict [("functionCall", PDict [])];
            PDict [("functionCall", PStr "risk_analyst")];
            PDict [("functionCall", PDict [("name", PStr "late")])]]
           eq_refl eq_refl).
Defined.

Lemma X11_flag_needs_a_coordinator_entry_run :
  exists entry actions state_delta,
    In entry [PNone; coordinator_event (PStr "pending")]
    /\ has_coordinator_author entry = true
    /\ py_getitem entry "actions" = Ok actions
    /\ py_getitem actions "stateDelta" = Ok state_delta
    /\ py_in "financial_coordinator_output" state_delta = Ok true.
Proof.
  apply (X11_flag_needs_a_coordinator_entry
           [PNone; coordinator_event (PStr "pending")]
           (Summary 2 [PStr "financial_coordinator"] [] true));
    reflexivity.
Defined.

(** X12 on an entry whose value does not decode: the flag is set, and
    the reversed scan returns no output. *)
Lemma X12_flag_is_set_by_a_matching_entry_run :
  exists s,
    extract_conversation_summary
      ([PNone] ++ coordinator_event (PStr "pending") :: [])%list
    = Ok (Some s)
    /\ final_output_found s = true.
Proof.
  apply (X12_flag_is_set_by_a_matching_entry [PNone] []
           (coordinator_event (PStr "pending")) (PStr "pending"));
    reflexivity.
Defined.

Lemma X13_nothing_to_read_gives_the_defaults_run :
  extract_financial_coordinator_output json_loads_ref json_error_ref [PStr "ping"; PInt 7]
  = Ok PNone
  /\ extract_all_agent_outputs json_loads_ref json_error_ref [PStr "ping"; PInt 7]
     = Ok initial_outputs
  /\ extract_conversation_summary [PStr "ping"; PInt 7]
     = Ok (Some (Summary 2 [] [] false)).
Proof.
  apply (X13_nothing_to_read_gives_the_defaults json_loads_ref json_error_ref
           [PStr "ping"; PInt 7]).
  repeat constructor.
Defined.

(** X16 on a run endpoint that answers 404: the three endpoints raise
    500. *)
Lemma X16_failures_are_answered_with_408_or_500_run :
  exists detail,
    extract_financial_output json_loads_ref json_error_ref sample_float_sub sample_float_is_zero
      sample_http_exception_str sample_str_exn
      (Responded 404 "Not Found" (BodyJson PNone)) "1.0" "1.25" "1.3"
    = HTTPException 500 detail
    /\ run_with_extraction json_loads_ref json_error_ref sample_float_sub
         sample_http_exception_str sample_str_exn
         (Responded 404 "Not Found" (BodyJson PNone)) "1.0" "1.25" "1.3"
       = HTTPException 500 detail
    /\ extract_all_outputs json_loads_ref json_error_ref sample_float_sub
         sample_http_exception_str sample_str_exn
         (Responded 404 "Not Found" (BodyJson PNone)) "1.0" "1.25" "1.3"
       = HTTPException 500 detail.
Proof.
  destruct (X16_failures_are_answered_with_408_or_500 json_loads_ref json_error_ref
              sample_float_sub sample_float_is_zero sample_http_exception_str
              sample_str_exn (Responded 404 "Not Found" (BodyJson PNone))
              "1.0" "1.25" "1.3" eq_refl) as (detail & A & B & C & _).
  exists detail. auto.
Defined.

(** X18 on a coordinator whose fenced output is the empty object: the
    extraction returns it and the endpoint answers that nothing was
    found. *)
Lemma X18_first_endpoint_tests_the_truth_value_run :
  exists body metadata,
    extract_financial_output json_loads_ref json_error_ref sample_float_sub sample_float_is_zero
      sample_http_exception_str sample_str_exn
      (Responded 200 "" (BodyJson (PList [coordinator_event (PStr (fenced "{}"))])))
      "1.0" "1.25" "1.3"
    = Returned body
    /\ field "metadata" body = Some metadata
    /\ field "financial_coordinator_output" body = Some PNone
    /\ field "extraction_successful" metadata = Some (PBool false)
    /\ field "error" metadata
       = Some (PStr "No financial_coordinator_output found").
Proof.
  exact (X18_first_endpoint_tests_the_truth_value json_loads_ref json_error_ref
           sample_float_sub sample_float_is_zero sample_http_exception_str
           sample_str_exn ""
           (PList [coordinator_event (PStr (fenced "{}"))]) (PDict [])
           "1.0" "1.25" "1.3" eq_refl).
Defined.

Lemma X20_success_flags_of_the_two_endpoints_run :
  success_flag
    (extract_financial_output json_loads_ref json_error_ref sample_float_sub sample_float_is_zero
       sample_http_exception_str sample_str_exn
       (Responded 200 "" (BodyJson (PList [coordinator_event (PStr (fenced "{}"))])))
       "1.0" "1.25" "1.3")
  = Some (PBool false)
  /\ success_flag
       (run_with_extraction json_loads_ref json_error_ref sample_float_sub
          sample_http_exception_str sample_str_exn
          (Responded 200 "" (BodyJson (PList [coordinator_event (PStr (fenced "{}"))])))
          "1.0" "1.25" "1.3")
     = Some (PBool true).
Proof.
  destruct (X20_success_flags_of_the_two_endpoints json_loads_ref json_error_ref
              sample_float_sub sample_float_is_zero sample_http_exception_str
              sample_str_exn ""
              (PList [coordinator_event (PStr (fenced "{}"))]) (PDict [])
              "1.0" "1.25" "1.3" eq_refl) as (_ & _ & D).
  - discriminate.
  - apply D; [discriminate | reflexivity].
Defined.

(** X22 on an entry that holds a number, an integer too long for [int]
    and a text: the number is stored, the scan leaves the entry at the
    integer, and the text after it is never looked at. *)
Lemma X22_entry_is_left_on_another_exception_run :
  exists outputs',
    outputs_entry json_loads_ref json_error_ref
      (delta_event_of "trading_analyst"
         [ ("data_analyst_output", PInt 3);
           ("trading_analyst_output", PStr long_integer);
           ("financial_coordinator_output", PStr "plain") ])
      initial_outputs
    = (outputs', Ok tt)
    /\ lookup "data_analyst_output" outputs' = Some (PInt 3)
    /\ lookup "trading_analyst_output" outputs' = Some PNone
    /\ lookup "financial_coordinator_output" outputs' = Some PNone.
Proof.
  destruct (X22_entry_is_left_on_another_exception json_loads_ref json_error_ref
              initial_outputs
              [ ("data_analyst_output", PInt 3);
                ("trading_analyst_output", PStr long_integer);
                ("financial_coordinator_output", PStr "plain") ]
              (delta_event_of "trading_analyst"
                 [ ("data_analyst_output", PInt 3);
                   ("trading_analyst_output", PStr long_integer);
                   ("financial_coordinator_output", PStr "plain") ])
              (PStr long_integer)
              ["data_analyst_output"]
              [ "risk_analyst_output"; "execution_analyst_output";
                "financial_coordinator_output" ]
              "trading_analyst_output")
    as (o & E & _ & A & B).
  - reflexivity.
  - reflexivity.
  - reflexivity.
  - reflexivity.
  - vm_compute; reflexivity.
  - reflexivity.
  - vm_compute; reflexivity.
  - exists o. split; [exact E |]. split; [|split].
    + exact (B "data_analyst_output" PNone (or_introl eq_refl) eq_refl).
    + apply (A "trading_analyst_output"). now left.
    + apply (A "financial_coordinator_output"). simpl; tauto.
Defined.
